(** * CRM-Term: navigation and command-resolution engine

    A shallow embedding of the interactive core of CRM-Term
    ([internal/ui/model.go], [internal/storage/storage.go],
    [internal/config]) together with the properties of its command
    resolvers, its event classifier, its wizards and its navigation stack.

    Conventions.
    - Go strings are byte sequences; they are modelled by [string] (a list
      of 8-bit characters).  The functions of Go's [strings] package that
      the program calls are modelled on ASCII: bytes above 127 are passed
      through unchanged by [ToLower] and are never white space.
    - [int] and [int64] values are modelled by [Z].
    - A [time.Time] is an instant, in nanoseconds since the Unix epoch,
      with its location.  A [time.Location] is given by the library's
      [lookup] of the offset in force at an instant, and a calendar date
      is counted in days since January 1, 1970.
    - The SQLite engine, the file system, the clock and the time-zone
      database are collaborators outside the repository.  Their answers
      during one processing turn are collected in a [World] record, and
      every handler is a function of the world of its turn. *)

From Stdlib Require Import ZArith Lia Bool Ascii String List DecimalString Sorting.Sorted Sorting.Permutation.
From stdpp Require Import base decidable option list strings gmap sets.

Local Open Scope Z_scope.

(* ===================================================================== *)
(** * Part I: the embedding *)
(* ===================================================================== *)

(** ** Go's [strings] and [strconv] helpers used by the program *)

Module strings.

Definition lowerByte (c : ascii) : ascii :=
  let n := N_of_ascii c in
  if ((65 <=? n) && (n <=? 90))%N then ascii_of_N (n + 32) else c.

(** [strings.ToLower] *)
Fixpoint ToLower (s : string) : string :=
  match s with
  | EmptyString => EmptyString
  | String c rest => String (lowerByte c) (ToLower rest)
  end.

Fixpoint TrimLeft (s : string) : string :=
  match s with
  | String c rest => if Ascii.is_space c then TrimLeft rest else s
  | EmptyString => EmptyString
  end.

(** Drops the white space at the end of [s]. *)
Fixpoint TrimRight (s : string) : string :=
  match s with
  | EmptyString => EmptyString
  | String c rest =>
      match TrimRight rest with
      | EmptyString => if Ascii.is_space c then EmptyString else String c EmptyString
      | rest' => String c rest'
      end
  end.

(** [strings.TrimSpace] *)
Definition TrimSpace (s : string) : string := TrimRight (TrimLeft s).

(** [strings.HasPrefix s prefix] *)
Definition HasPrefix (s prefix : string) : bool := String.prefix prefix s.

(** [strings.EqualFold]: equality under (ASCII) case folding. *)
Definition EqualFold (s t : string) : bool := String.eqb (ToLower s) (ToLower t).

(** [strings.Contains s substr] *)
Fixpoint Contains (s substr : string) : bool :=
  HasPrefix s substr ||
  match s with
  | EmptyString => false
  | String _ rest => Contains rest substr
  end.

(** The slice expression [s[n:]]. *)
Fixpoint sliceFrom (n : nat) (s : string) : string :=
  match n, s with
  | O, _ => s
  | S n', String _ rest => sliceFrom n' rest
  | S _, EmptyString => EmptyString
  end.

(** [len(s)] *)
Definition len (s : string) : Z := Z.of_nat (String.length s).

End strings.

Module strconv.

Definition digitOf (c : ascii) : option Z :=
  let n := N_of_ascii c in
  if ((48 <=? n) && (n <=? 57))%N then Some (Z.of_N n - 48) else None.

Fixpoint digits (acc : Z) (s : string) : option Z :=
  match s with
  | EmptyString => Some acc
  | String c rest =>
      match digitOf c with
      | Some d => digits (acc * 10 + d) rest
      | None => None
      end
  end.

Definition unsigned (s : string) : option Z :=
  match s with
  | EmptyString => None
  | _ => digits 0 s
  end.

Definition inInt (n : Z) : bool := (- 2 ^ 63 <=? n) && (n <=? 2 ^ 63 - 1).

(** [strconv.Atoi]: an optional sign followed by decimal digits, with a
    value that fits a 64-bit [int]; [None] stands for a non-nil error. *)
Definition Atoi (s : string) : option Z :=
  let signed :=
    match s with
    | String "-"%char rest => Z.opp <$> unsigned rest
    | String "+"%char rest => unsigned rest
    | _ => unsigned s
    end in
  match signed with
  | Some n => if inInt n then Some n else None
  | None => None
  end.

End strconv.

(** ** Time *)

(** What the library's [lookup] answers for an instant: the offset in
    force at that instant, in seconds east of UTC, and the instants
    [zs_start <= sec < zs_end] over which it is in force.  Instants are
    in seconds since the Unix epoch. *)
Record zoneSpan := { zs_offset : Z; zs_start : Z; zs_end : Z }.

(** A [time.Location]: the rules of a zone, given by its [lookup].  The
    offset may change from one span to the next, as it does in the zones
    that [time.LoadLocation] loads. *)
Record Location := { lookup : Z -> zoneSpan }.

(** [time.UTC]: one span, with the bounds that the library gives it. *)
Definition UTC : Location :=
  {| lookup := fun _ => {| zs_offset := 0; zs_start := - 2 ^ 63; zs_end := 2 ^ 63 - 1 |} |}.

(** A [time.Time]: an instant, in nanoseconds since the Unix epoch, and
    the location it is presented in. *)
Record Time := { unixNano : Z; location : Location }.

Module time.

Definition Second : Z := 1000000000.

(** The zero [time.Time]: January 1, year 1, 00:00 UTC. *)
Definition zero : Time := {| unixNano := - 62135596800 * Second; location := UTC |}.

Definition IsZero (t : Time) : bool := unixNano t =? unixNano zero.
Definition In (t : Time) (loc : Location) : Time :=
  {| unixNano := unixNano t; location := loc |}.
Definition toUTC (t : Time) : Time := In t UTC.






End time.

(** ** Storage records ([internal/storage]) *)

Record NullInt64 := { Int64 : Z; Valid : bool }.
Record NullString := { NString : string; NValid : bool }.

Definition noInt64 : NullInt64 := {| Int64 := 0; Valid := false |}.
Definition noString : NullString := {| NString := ""; NValid := false |}.

Record Account := {
  a_ID : Z;
  a_Name : string;
  a_Phone : string;
  a_Address : string;
  a_Email : string;
  a_DecisionMaker : string;
  a_Creator : string;
  a_CreatedAt : Time
}.

Record Note := {
  n_ID : Z;
  n_Content : string;
  n_AccountID : NullInt64;
  n_Creator : string;
  n_CreatedAt : Time;
  n_AccountName : NullString
}.

Record Event := {
  e_ID : Z;
  e_Title : string;
  e_Details : string;
  e_EventTime : Time;
  e_AccountID : NullInt64;
  e_Creator : string;
  e_CreatedAt : Time;
  e_AccountName : NullString
}.

Record Activity := {
  act_ID : Z;
  act_Type : string;
  act_Title : string;
  act_Details : string;
  act_CreatedAt : Time
}.

Record ImportResult := {
  imp_Created : Z;
  imp_Skipped : Z;
  imp_Errors : list string
}.

(** The zero value [storage.Account{}]. *)
Definition emptyAccount : Account :=
  {| a_ID := 0; a_Name := ""; a_Phone := ""; a_Address := ""; a_Email := "";
     a_DecisionMaker := ""; a_Creator := ""; a_CreatedAt := time.zero |}.

(** ** Menu tables and the command resolver ([internal/ui]) *)

Record menuOption := {
  mo_id : string;
  mo_keywords : list string;
  mo_synonyms : list string
}.

Definition menuDashboard : string := "dashboard".
Definition menuAccounts : string := "accounts".
Definition menuAddAccount : string := "add-account".
Definition menuCreate : string := "create".
Definition menuSettings : string := "settings".
Definition menuQuit : string := "quit".

Definition accountActionActivity : string := "activity".
Definition accountActionAddNote : string := "add-note".
Definition accountActionAddEvent : string := "add-event".
Definition accountActionEdit : string := "edit-account".
Definition accountActionBack : string := "back".

Definition mainMenuOptions : list menuOption := [
  {| mo_id := menuDashboard;
     mo_keywords := ["dashboard"];
     mo_synonyms := ["1"; "d"; "dash"; "dashboard"] |};
  {| mo_id := menuAccounts;
     mo_keywords := ["accounts"];
     mo_synonyms := ["2"; "accounts"; "account"; "view"; "view accounts"] |};
  {| mo_id := menuAddAccount;
     mo_keywords := ["add"; "new"];
     mo_synonyms := ["3"; "add"; "add account"; "new account"] |};
  {| mo_id := menuCreate;
     mo_keywords := ["create"; "note"; "event"];
     mo_synonyms := ["4"; "create"; "note"; "event"; "create note"; "create event"] |};
  {| mo_id := menuSettings;
     mo_keywords := ["settings"; "help"];
     mo_synonyms := ["5"; "settings"; "help"; "settings & help"] |};
  {| mo_id := menuQuit;
     mo_keywords := ["quit"; "exit"];
     mo_synonyms := ["6"; "quit"; "exit"; "exit."; "q"] |}
].

Definition accountDetailOptions : list menuOption := [
  {| mo_id := accountActionActivity;
     mo_keywords := ["activity"; "timeline"];
     mo_synonyms := ["1"; "activity"; "view"; "timeline"] |};
  {| mo_id := accountActionAddNote;
     mo_keywords := ["note"];
     mo_synonyms := ["2"; "note"; "add note"; "create note"] |};
  {| mo_id := accountActionAddEvent;
     mo_keywords := ["event"];
     mo_synonyms := ["3"; "event"; "add event"; "create event"] |};
  {| mo_id := accountActionEdit;
     mo_keywords := ["edit"; "update"];
     mo_synonyms := ["4"; "edit"; "update"] |};
  {| mo_id := accountActionBack;
     mo_keywords := ["back"; "close"];
     mo_synonyms := ["5"; "back"; "exit"; "exit."; "/"] |}
].

(** The two resolvers of the source, [resolveMainMenuSelection] and
    [resolveAccountDetailAction], have the same body up to the table they
    range over; [resolveSelection] is that body. *)

(** The first loop: the first option, in table order, with a synonym equal
    to [value]. *)
Fixpoint directMatch (options : list menuOption) (value : string) : option string :=
  match options with
  | [] => None
  | option :: rest =>
      if existsb (fun syn => String.eqb value syn) (mo_synonyms option)
      then Some (mo_id option)
      else directMatch rest value
  end.

(** The second loop: the set [matches] of the ids of the options one of
    whose keywords starts with [value]. *)
Definition prefixMatches (options : list menuOption) (value : string) : gset string :=
  foldl (fun matches option =>
           if existsb (fun keyword => strings.HasPrefix keyword value) (mo_keywords option)
           then {[ mo_id option ]} ∪ matches
           else matches)
        ∅ options.

Definition resolveSelection (options : list menuOption) (input : string) : option string :=
  let value := strings.TrimSpace (strings.ToLower input) in
  if String.eqb value "" then None
  else
    match directMatch options value with
    | Some id => Some id
    | None =>
        let matches := prefixMatches options value in
        if decide (size matches = 1%nat) then head (elements matches) else None
    end.

Definition resolveMainMenuSelection (input : string) : option string :=
  resolveSelection mainMenuOptions input.

Definition resolveAccountDetailAction (input : string) : option string :=
  resolveSelection accountDetailOptions input.


(** ** Classifying events ([storage.SplitEvents]) *)

(** [sort.Slice]: the library call orders the slice by [less]; the order
    it leaves between elements that [less] does not separate is not
    specified.  The model is an insertion sort. *)
Module sort.



End sort.




(** ** Errors and the collaborators of one processing turn *)

Inductive error :=
  | ErrAccountExists          (* storage.ErrAccountExists *)
  | ErrNotFound               (* storage.ErrNotFound *)
  | ErrNoRows                 (* sql.ErrNoRows *)
  | errorString (msg : string).

Definition Error (e : error) : string :=
  match e with
  | ErrAccountExists => "account already exists"
  | ErrNotFound => "record not found"
  | ErrNoRows => "sql: no rows in result set"
  | errorString msg => msg
  end.

(** [fmt.Errorf(prefix + ": %w", err)] *)
Definition wrap (prefix : string) (e : error) : error :=
  errorString (prefix +:+ ": " +:+ Error e).

(** The statements that the program writes to the database, with the
    values bound to their placeholders. *)
Inductive Stmt :=
  | InsertAccount (name : string) (phone address email decision_maker : option string)
      (creator : string) (created_at : Time)
  | UpdateAccountRow (name : string) (phone address email decision_maker : option string)
      (id : Z)
  | InsertNote (content : string) (account_id : option Z) (creator : string)
      (created_at : Time)
  | InsertEvent (title : string) (details : option string) (event_time : Time)
      (account_id : option Z) (creator : string) (created_at : Time).

(** The answer of [ExecContext]: an error of the driver, or a result whose
    [LastInsertId] may itself be unavailable. *)
Inductive ExecResult :=
  | ExecErr (e : error)
  | ExecOk (lastInsertId : option Z).

(** [config.Data] *)
Record Data := { Name : string; Timezone : string }.

(** What the world outside the session answers during one turn: the clock,
    the zone database, the SQLite engine behind [storage.Store] and the
    files behind [config.Store] and the CSV import. *)
Record World := {
  w_Now : Z;
  w_LoadLocation : string -> option Location;
  (** [time.ParseInLocation("2006-01-02 15:04", value, loc)] *)
  w_ParseInLocation : string -> Location -> option Z;
  w_Exec : Stmt -> ExecResult;
  w_ListAccounts : list Account + error;
  w_SearchAccounts : string -> list Account + error;
  w_AccountRowByName : string -> Account + error;
  w_AccountRowByID : Z -> Account + error;
  w_ListEvents : list Event + error;
  w_ListActivities : Z -> list Activity + error;
  w_ListAccountActivity : Z -> Z -> list Activity + error;
  w_expandPath : string -> string + error;
  w_Open : string -> option error;
  (** [ImportAccountsCSV] on the opened file: the summary and the rows it
      inserted, or the error of reading the header. *)
  w_ImportAccountsCSV : string -> string -> Location -> (ImportResult * list Stmt) + error;
  w_writeConfig : Data -> option error
}.

(** ** [storage.Store]: the statements executed so far *)

Record Store := { executed : list Stmt }.

Module storage.

Definition nullString (s : string) : option string :=
  let s := strings.TrimSpace s in
  if String.eqb s "" then None else Some s.

Definition nullInt64 (v : NullInt64) : option Z :=
  if Valid v then Some (Int64 v) else None.

Definition isUniqueConstraint (err : error) : bool :=
  strings.Contains (strings.ToLower (Error err)) "unique".

Definition record (q : Stmt) (s : Store) : Store := {| executed := executed s ++ [q] |}.

(** [CreateAccount]: returns the store, the account as the call leaves
    it behind the pointer, and the error. *)
Definition CreateAccount (w : World) (s : Store) (a : Account) : Store * Account * option error :=
  if String.eqb (strings.TrimSpace (a_Name a)) "" then
    (s, a, Some (errorString "account name required"))
  else
    let now := time.toUTC {| unixNano := w_Now w; location := UTC |} in
    let a := if time.IsZero (a_CreatedAt a)
             then {| a_ID := a_ID a; a_Name := a_Name a; a_Phone := a_Phone a;
                     a_Address := a_Address a; a_Email := a_Email a;
                     a_DecisionMaker := a_DecisionMaker a; a_Creator := a_Creator a;
                     a_CreatedAt := now |}
             else a in
    let q := InsertAccount (strings.TrimSpace (a_Name a)) (nullString (a_Phone a))
               (nullString (a_Address a)) (nullString (a_Email a))
               (nullString (a_DecisionMaker a)) (a_Creator a)
               (time.toUTC (a_CreatedAt a)) in
    match w_Exec w q with
    | ExecErr err =>
        if isUniqueConstraint err then (s, a, Some ErrAccountExists)
        else (s, a, Some (wrap "insert account" err))
    | ExecOk (Some id) =>
        (record q s,
         {| a_ID := id; a_Name := a_Name a; a_Phone := a_Phone a;
            a_Address := a_Address a; a_Email := a_Email a;
            a_DecisionMaker := a_DecisionMaker a; a_Creator := a_Creator a;
            a_CreatedAt := a_CreatedAt a |}, None)
    | ExecOk None => (record q s, a, None)
    end.

Definition UpdateAccount (w : World) (s : Store) (a : Account) : Store * option error :=
  if String.eqb (strings.TrimSpace (a_Name a)) "" then
    (s, Some (errorString "account name required"))
  else
    let q := UpdateAccountRow (strings.TrimSpace (a_Name a)) (nullString (a_Phone a))
               (nullString (a_Address a)) (nullString (a_Email a))
               (nullString (a_DecisionMaker a)) (a_ID a) in
    match w_Exec w q with
    | ExecErr err =>
        if isUniqueConstraint err then (s, Some ErrAccountExists)
        else (s, Some (wrap "update account" err))
    | ExecOk _ => (record q s, None)
    end.

Definition CreateNote (w : World) (s : Store) (n : Note) : Store * option error :=
  if String.eqb (strings.TrimSpace (n_Content n)) "" then
    (s, Some (errorString "note content required"))
  else
    let created := if time.IsZero (n_CreatedAt n)
                   then {| unixNano := w_Now w; location := UTC |}
                   else n_CreatedAt n in
    let q := InsertNote (n_Content n) (nullInt64 (n_AccountID n)) (n_Creator n)
               (time.toUTC created) in
    match w_Exec w q with
    | ExecErr err => (s, Some (wrap "insert note" err))
    | ExecOk _ => (record q s, None)
    end.

Definition CreateEvent (w : World) (s : Store) (e : Event) : Store * option error :=
  if String.eqb (strings.TrimSpace (e_Title e)) "" then
    (s, Some (errorString "event title required"))
  else
    let eventTime := if time.IsZero (e_EventTime e)
                     then {| unixNano := w_Now w; location := UTC |}
                     else e_EventTime e in
    let created := if time.IsZero (e_CreatedAt e)
                   then {| unixNano := w_Now w; location := UTC |}
                   else e_CreatedAt e in
    let q := InsertEvent (e_Title e) (nullString (e_Details e)) (time.toUTC eventTime)
               (nullInt64 (e_AccountID e)) (e_Creator e) (time.toUTC created) in
    match w_Exec w q with
    | ExecErr err => (s, Some (wrap "insert event" err))
    | ExecOk _ => (record q s, None)
    end.

Definition AccountByName (w : World) (name : string) : Account + error :=
  match w_AccountRowByName w (strings.TrimSpace name) with
  | inl account => inl account
  | inr ErrNoRows => inr ErrNotFound
  | inr err => inr (wrap "get account" err)
  end.

Definition AccountByID (w : World) (id : Z) : Account + error :=
  match w_AccountRowByID w id with
  | inl account => inl account
  | inr ErrNoRows => inr ErrNotFound
  | inr err => inr (wrap "get account" err)
  end.

Definition ListAccounts (w : World) : list Account + error := w_ListAccounts w.

Definition SearchAccounts (w : World) (term : string) : list Account + error :=
  let term := strings.TrimSpace term in
  if String.eqb term "" then ListAccounts w
  else w_SearchAccounts w (strings.ToLower term).

Definition ListEvents (w : World) : list Event + error := w_ListEvents w.

Definition ListActivities (w : World) (limit : Z) : list Activity + error :=
  w_ListActivities w (if limit <=? 0 then 20 else limit).

Definition ListAccountActivity (w : World) (accountID limit : Z) : list Activity + error :=
  w_ListAccountActivity w accountID (if limit <=? 0 then 20 else limit).

End storage.

(** ** [config.Store] *)

Record ConfigStore := { Config : Data }.

Module config.

(** [Location]: the configured zone, UTC when it does not load. *)
Definition Location (w : World) (s : ConfigStore) : Location :=
  match w_LoadLocation w (Timezone (Config s)) with
  | Some loc => loc
  | None => UTC
  end.

Definition Save (w : World) (s : ConfigStore) : option error :=
  w_writeConfig w (Config s).

End config.


(** ** Record update *)

(** [r <| f := v |>] is the record [r] with its field [f] set to [v]: the
    assignment [r.f = v] of the source. *)
Class Setter {R F : Type} (proj : R -> F) := setter : F -> R -> R.
Arguments setter {R F} proj {Setter} v r /.
#[warning="-postfix-notation-not-level-1"]
Notation "r <| f := v |>" := (setter f v r) (at level 12, left associativity).

(** ** Bubble Tea messages *)

Module tea.

Inductive Key :=
  | KeyRunes (runes : string)
  | KeyEnter
  | KeyEsc
  | KeyCtrlC
  | KeyBackspace
  | KeyOther.

Inductive Msg :=
  | KeyMsg (key : Key)
  | WindowSizeMsg (Width Height : Z)
  | OtherMsg.

Definition isEnter (msg : Msg) : bool :=
  match msg with KeyMsg KeyEnter => true | _ => false end.

End tea.

(** ** The text input widget ([bubbles/textinput])

    The widget is a collaborator; the model keeps what the program reads
    and writes: the text, the placeholder, the prompt, the character limit
    and the focus.  A focused widget appends the typed characters at the
    end of its text and drops the last one on backspace; an unfocused one
    ignores the keys.  No other message changes the text. *)

Module textinput.

Record Model := {
  value : string;
  Placeholder : string;
  Prompt : string;
  CharLimit : Z;
  focus : bool
}.

#[global] Instance set_value : Setter value :=
  fun v r => {| value := v; Placeholder := Placeholder r; Prompt := Prompt r; CharLimit := CharLimit r; focus := focus r |}.
#[global] Instance set_Placeholder : Setter Placeholder :=
  fun v r => {| value := value r; Placeholder := v; Prompt := Prompt r; CharLimit := CharLimit r; focus := focus r |}.
#[global] Instance set_Prompt : Setter Prompt :=
  fun v r => {| value := value r; Placeholder := Placeholder r; Prompt := v; CharLimit := CharLimit r; focus := focus r |}.
#[global] Instance set_CharLimit : Setter CharLimit :=
  fun v r => {| value := value r; Placeholder := Placeholder r; Prompt := Prompt r; CharLimit := v; focus := focus r |}.
#[global] Instance set_focus : Setter focus :=
  fun v r => {| value := value r; Placeholder := Placeholder r; Prompt := Prompt r; CharLimit := CharLimit r; focus := v |}.

Definition New : Model :=
  {| value := ""; Placeholder := ""; Prompt := "> "; CharLimit := 0; focus := false |}.

Definition clip (limit : Z) (s : string) : string :=
  if (0 <? limit) && (limit <? strings.len s)
  then String.substring 0 (Z.to_nat limit) s
  else s.

Definition SetValue (s : string) (m : Model) : Model :=
  m <| value := clip (CharLimit m) s |>.

Definition Value (m : Model) : string := value m.
Definition Focus (m : Model) : Model := m <| focus := true |>.
Definition Focused (m : Model) : bool := focus m.

Fixpoint dropLast (s : string) : string :=
  match s with
  | EmptyString => EmptyString
  | String c EmptyString => EmptyString
  | String c rest => String c (dropLast rest)
  end.

Definition Update (msg : tea.Msg) (m : Model) : Model :=
  if focus m then
    match msg with
    | tea.KeyMsg (tea.KeyRunes runes) => m <| value := clip (CharLimit m) (value m +:+ runes) |>
    | tea.KeyMsg tea.KeyBackspace => m <| value := dropLast (value m) |>
    | _ => m
    end
  else m.

End textinput.

(** ** The session state ([internal/ui]) *)

Inductive viewState :=
  | stateMainMenu
  | stateDashboard
  | stateAccounts
  | stateAccountDetail
  | stateCreateAccount
  | stateCreateChoice
  | stateCreateNote
  | stateCreateEvent
  | stateSettings
  | stateSettingsEditName
  | stateSettingsEditTimezone.

#[global] Instance viewState_eq_dec : EqDecision viewState.
Proof. solve_decision. Defined.

Inductive dashboardView := dashboardEvents | dashboardActivity.
Inductive settingsMode := settingsViewing | settingsEditingName | settingsEditingTimezone.
Inductive noteStage := noteStageContent | noteStageAssociatePrompt | noteStageAssociateChoose.
Inductive eventStage :=
  | eventStageTitle
  | eventStageDetails
  | eventStageSchedule
  | eventStageAssociatePrompt
  | eventStageAssociateChoose.
Inductive accountDetailView := accountDetailSummary | accountDetailActivity.

Record formField := { ff_label : string; ff_value : string; ff_required : bool }.

Record accountForm := {
  af_index : Z;
  af_fields : list formField;
  af_input : textinput.Model;
  af_err : string;
  af_editing : bool;
  af_original : Account
}.

Record noteWizard := {
  nw_stage : noteStage;
  nw_contentInput : textinput.Model;
  nw_associateInput : textinput.Model;
  nw_accountInput : textinput.Model;
  nw_associate : bool;
  nw_err : string;
  nw_presetAccount : option Account
}.

Record eventWizard := {
  ew_stage : eventStage;
  ew_titleInput : textinput.Model;
  ew_detailsInput : textinput.Model;
  ew_scheduleInput : textinput.Model;
  ew_associateInput : textinput.Model;
  ew_accountInput : textinput.Model;
  ew_associate : bool;
  ew_err : string;
  ew_presetAccount : option Account
}.

Record dashboardModel := {
  dm_view : dashboardView;
  dm_events : list Event;
  dm_activity : list Activity
}.

Record settingsModel := {
  sm_mode : settingsMode;
  sm_input : textinput.Model;
  sm_err : string
}.

Record accountDetailModel := {
  ad_account : Account;
  ad_activity : list Activity;
  ad_view : accountDetailView;
  ad_err : string
}.

(** The [model] struct; its [theme] field, a constant palette, is left
    out. *)
Record model := {
  state : viewState;
  prevStates : list viewState;
  store : Store;
  cfg : ConfigStore;
  width : Z;
  height : Z;
  infoMessage : string;
  errMessage : string;
  showSplash : bool;
  menuInput : textinput.Model;
  accounts : list Account;
  accountFilter : textinput.Model;
  filteredAccounts : list Account;
  accountForm_ : accountForm;
  noteWizard_ : noteWizard;
  eventWizard_ : eventWizard;
  dashboard : dashboardModel;
  settings : settingsModel;
  accountDetail : accountDetailModel
}.

#[global] Instance set_a_ID : Setter a_ID :=
  fun v r => {| a_ID := v; a_Name := a_Name r; a_Phone := a_Phone r; a_Address := a_Address r; a_Email := a_Email r; a_DecisionMaker := a_DecisionMaker r; a_Creator := a_Creator r; a_CreatedAt := a_CreatedAt r |}.
#[global] Instance set_a_Name : Setter a_Name :=
  fun v r => {| a_ID := a_ID r; a_Name := v; a_Phone := a_Phone r; a_Address := a_Address r; a_Email := a_Email r; a_DecisionMaker := a_DecisionMaker r; a_Creator := a_Creator r; a_CreatedAt := a_CreatedAt r |}.
#[global] Instance set_a_Phone : Setter a_Phone :=
  fun v r => {| a_ID := a_ID r; a_Name := a_Name r; a_Phone := v; a_Address := a_Address r; a_Email := a_Email r; a_DecisionMaker := a_DecisionMaker r; a_Creator := a_Creator r; a_CreatedAt := a_CreatedAt r |}.
#[global] Instance set_a_Address : Setter a_Address :=
  fun v r => {| a_ID := a_ID r; a_Name := a_Name r; a_Phone := a_Phone r; a_Address := v; a_Email := a_Email r; a_DecisionMaker := a_DecisionMaker r; a_Creator := a_Creator r; a_CreatedAt := a_CreatedAt r |}.
#[global] Instance set_a_Email : Setter a_Email :=
  fun v r => {| a_ID := a_ID r; a_Name := a_Name r; a_Phone := a_Phone r; a_Address := a_Address r; a_Email := v; a_DecisionMaker := a_DecisionMaker r; a_Creator := a_Creator r; a_CreatedAt := a_CreatedAt r |}.
#[global] Instance set_a_DecisionMaker : Setter a_DecisionMaker :=
  fun v r => {| a_ID := a_ID r; a_Name := a_Name r; a_Phone := a_Phone r; a_Address := a_Address r; a_Email := a_Email r; a_DecisionMaker := v; a_Creator := a_Creator r; a_CreatedAt := a_CreatedAt r |}.
#[global] Instance set_a_Creator : Setter a_Creator :=
  fun v r => {| a_ID := a_ID r; a_Name := a_Name r; a_Phone := a_Phone r; a_Address := a_Address r; a_Email := a_Email r; a_DecisionMaker := a_DecisionMaker r; a_Creator := v; a_CreatedAt := a_CreatedAt r |}.
#[global] Instance set_a_CreatedAt : Setter a_CreatedAt :=
  fun v r => {| a_ID := a_ID r; a_Name := a_Name r; a_Phone := a_Phone r; a_Address := a_Address r; a_Email := a_Email r; a_DecisionMaker := a_DecisionMaker r; a_Creator := a_Creator r; a_CreatedAt := v |}.
#[global] Instance set_ff_label : Setter ff_label :=
  fun v r => {| ff_label := v; ff_value := ff_value r; ff_required := ff_required r |}.
#[global] Instance set_ff_value : Setter ff_value :=
  fun v r => {| ff_label := ff_label r; ff_value := v; ff_required := ff_required r |}.
#[global] Instance set_ff_required : Setter ff_required :=
  fun v r => {| ff_label := ff_label r; ff_value := ff_value r; ff_required := v |}.
#[global] Instance set_af_index : Setter af_index :=
  fun v r => {| af_index := v; af_fields := af_fields r; af_input := af_input r; af_err := af_err r; af_editing := af_editing r; af_original := af_original r |}.
#[global] Instance set_af_fields : Setter af_fields :=
  fun v r => {| af_index := af_index r; af_fields := v; af_input := af_input r; af_err := af_err r; af_editing := af_editing r; af_original := af_original r |}.
#[global] Instance set_af_input : Setter af_input :=
  fun v r => {| af_index := af_index r; af_fields := af_fields r; af_input := v; af_err := af_err r; af_editing := af_editing r; af_original := af_original r |}.
#[global] Instance set_af_err : Setter af_err :=
  fun v r => {| af_index := af_index r; af_fields := af_fields r; af_input := af_input r; af_err := v; af_editing := af_editing r; af_original := af_original r |}.
#[global] Instance set_af_editing : Setter af_editing :=
  fun v r => {| af_index := af_index r; af_fields := af_fields r; af_input := af_input r; af_err := af_err r; af_editing := v; af_original := af_original r |}.
#[global] Instance set_af_original : Setter af_original :=
  fun v r => {| af_index := af_index r; af_fields := af_fields r; af_input := af_input r; af_err := af_err r; af_editing := af_editing r; af_original := v |}.
#[global] Instance set_nw_stage : Setter nw_stage :=
  fun v r => {| nw_stage := v; nw_contentInput := nw_contentInput r; nw_associateInput := nw_associateInput r; nw_accountInput := nw_accountInput r; nw_associate := nw_associate r; nw_err := nw_err r; nw_presetAccount := nw_presetAccount r |}.
#[global] Instance set_nw_contentInput : Setter nw_contentInput :=
  fun v r => {| nw_stage := nw_stage r; nw_contentInput := v; nw_associateInput := nw_associateInput r; nw_accountInput := nw_accountInput r; nw_associate := nw_associate r; nw_err := nw_err r; nw_presetAccount := nw_presetAccount r |}.
#[global] Instance set_nw_associateInput : Setter nw_associateInput :=
  fun v r => {| nw_stage := nw_stage r; nw_contentInput := nw_contentInput r; nw_associateInput := v; nw_accountInput := nw_accountInput r; nw_associate := nw_associate r; nw_err := nw_err r; nw_presetAccount := nw_presetAccount r |}.
#[global] Instance set_nw_accountInput : Setter nw_accountInput :=
  fun v r => {| nw_stage := nw_stage r; nw_contentInput := nw_contentInput r; nw_associateInput := nw_associateInput r; nw_accountInput := v; nw_associate := nw_associate r; nw_err := nw_err r; nw_presetAccount := nw_presetAccount r |}.
#[global] Instance set_nw_associate : Setter nw_associate :=
  fun v r => {| nw_stage := nw_stage r; nw_contentInput := nw_contentInput r; nw_associateInput := nw_associateInput r; nw_accountInput := nw_accountInput r; nw_associate := v; nw_err := nw_err r; nw_presetAccount := nw_presetAccount r |}.
#[global] Instance set_nw_err : Setter nw_err :=
  fun v r => {| nw_stage := nw_stage r; nw_contentInput := nw_contentInput r; nw_associateInput := nw_associateInput r; nw_accountInput := nw_accountInput r; nw_associate := nw_associate r; nw_err := v; nw_presetAccount := nw_presetAccount r |}.
#[global] Instance set_nw_presetAccount : Setter nw_presetAccount :=
  fun v r => {| nw_stage := nw_stage r; nw_contentInput := nw_contentInput r; nw_associateInput := nw_associateInput r; nw_accountInput := nw_accountInput r; nw_associate := nw_associate r; nw_err := nw_err r; nw_presetAccount := v |}.
#[global] Instance set_ew_stage : Setter ew_stage :=
  fun v r => {| ew_stage := v; ew_titleInput := ew_titleInput r; ew_detailsInput := ew_detailsInput r; ew_scheduleInput := ew_scheduleInput r; ew_associateInput := ew_associateInput r; ew_accountInput := ew_accountInput r; ew_associate := ew_associate r; ew_err := ew_err r; ew_presetAccount := ew_presetAccount r |}.
#[global] Instance set_ew_titleInput : Setter ew_titleInput :=
  fun v r => {| ew_stage := ew_stage r; ew_titleInput := v; ew_detailsInput := ew_detailsInput r; ew_scheduleInput := ew_scheduleInput r; ew_associateInput := ew_associateInput r; ew_accountInput := ew_accountInput r; ew_associate := ew_associate r; ew_err := ew_err r; ew_presetAccount := ew_presetAccount r |}.
#[global] Instance set_ew_detailsInput : Setter ew_detailsInput :=
  fun v r => {| ew_stage := ew_stage r; ew_titleInput := ew_titleInput r; ew_detailsInput := v; ew_scheduleInput := ew_scheduleInput r; ew_associateInput := ew_associateInput r; ew_accountInput := ew_accountInput r; ew_associate := ew_associate r; ew_err := ew_err r; ew_presetAccount := ew_presetAccount r |}.
#[global] Instance set_ew_scheduleInput : Setter ew_scheduleInput :=
  fun v r => {| ew_stage := ew_stage r; ew_titleInput := ew_titleInput r; ew_detailsInput := ew_detailsInput r; ew_scheduleInput := v; ew_associateInput := ew_associateInput r; ew_accountInput := ew_accountInput r; ew_associate := ew_associate r; ew_err := ew_err r; ew_presetAccount := ew_presetAccount r |}.
#[global] Instance set_ew_associateInput : Setter ew_associateInput :=
  fun v r => {| ew_stage := ew_stage r; ew_titleInput := ew_titleInput r; ew_detailsInput := ew_detailsInput r; ew_scheduleInput := ew_scheduleInput r; ew_associateInput := v; ew_accountInput := ew_accountInput r; ew_associate := ew_associate r; ew_err := ew_err r; ew_presetAccount := ew_presetAccount r |}.
#[global] Instance set_ew_accountInput : Setter ew_accountInput :=
  fun v r => {| ew_stage := ew_stage r; ew_titleInput := ew_titleInput r; ew_detailsInput := ew_detailsInput r; ew_scheduleInput := ew_scheduleInput r; ew_associateInput := ew_associateInput r; ew_accountInput := v; ew_associate := ew_associate r; ew_err := ew_err r; ew_presetAccount := ew_presetAccount r |}.
#[global] Instance set_ew_associate : Setter ew_associate :=
  fun v r => {| ew_stage := ew_stage r; ew_titleInput := ew_titleInput r; ew_detailsInput := ew_detailsInput r; ew_scheduleInput := ew_scheduleInput r; ew_associateInput := ew_associateInput r; ew_accountInput := ew_accountInput r; ew_associate := v; ew_err := ew_err r; ew_presetAccount := ew_presetAccount r |}.
#[global] Instance set_ew_err : Setter ew_err :=
  fun v r => {| ew_stage := ew_stage r; ew_titleInput := ew_titleInput r; ew_detailsInput := ew_detailsInput r; ew_scheduleInput := ew_scheduleInput r; ew_associateInput := ew_associateInput r; ew_accountInput := ew_accountInput r; ew_associate := ew_associate r; ew_err := v; ew_presetAccount := ew_presetAccount r |}.
#[global] Instance set_ew_presetAccount : Setter ew_presetAccount :=
  fun v r => {| ew_stage := ew_stage r; ew_titleInput := ew_titleInput r; ew_detailsInput := ew_detailsInput r; ew_scheduleInput := ew_scheduleInput r; ew_associateInput := ew_associateInput r; ew_accountInput := ew_accountInput r; ew_associate := ew_associate r; ew_err := ew_err r; ew_presetAccount := v |}.
#[global] Instance set_dm_view : Setter dm_view :=
  fun v r => {| dm_view := v; dm_events := dm_events r; dm_activity := dm_activity r |}.
#[global] Instance set_dm_events : Setter dm_events :=
  fun v r => {| dm_view := dm_view r; dm_events := v; dm_activity := dm_activity r |}.
#[global] Instance set_dm_activity : Setter dm_activity :=
  fun v r => {| dm_view := dm_view r; dm_events := dm_events r; dm_activity := v |}.
#[global] Instance set_sm_mode : Setter sm_mode :=
  fun v r => {| sm_mode := v; sm_input := sm_input r; sm_err := sm_err r |}.
#[global] Instance set_sm_input : Setter sm_input :=
  fun v r => {| sm_mode := sm_mode r; sm_input := v; sm_err := sm_err r |}.
#[global] Instance set_sm_err : Setter sm_err :=
  fun v r => {| sm_mode := sm_mode r; sm_input := sm_input r; sm_err := v |}.
#[global] Instance set_ad_account : Setter ad_account :=
  fun v r => {| ad_account := v; ad_activity := ad_activity r; ad_view := ad_view r; ad_err := ad_err r |}.
#[global] Instance set_ad_activity : Setter ad_activity :=
  fun v r => {| ad_account := ad_account r; ad_activity := v; ad_view := ad_view r; ad_err := ad_err r |}.
#[global] Instance set_ad_view : Setter ad_view :=
  fun v r => {| ad_account := ad_account r; ad_activity := ad_activity r; ad_view := v; ad_err := ad_err r |}.
#[global] Instance set_ad_err : Setter ad_err :=
  fun v r => {| ad_account := ad_account r; ad_activity := ad_activity r; ad_view := ad_view r; ad_err := v |}.
#[global] Instance set_Config : Setter Config :=
  fun v r => {| Config := v |}.
#[global] Instance set_Name : Setter Name :=
  fun v r => {| Name := v; Timezone := Timezone r |}.
#[global] Instance set_Timezone : Setter Timezone :=
  fun v r => {| Name := Name r; Timezone := v |}.
#[global] Instance set_state : Setter state :=
  fun v r => {| state := v; prevStates := prevStates r; store := store r; cfg := cfg r; width := width r; height := height r; infoMessage := infoMessage r; errMessage := errMessage r; showSplash := showSplash r; menuInput := menuInput r; accounts := accounts r; accountFilter := accountFilter r; filteredAccounts := filteredAccounts r; accountForm_ := accountForm_ r; noteWizard_ := noteWizard_ r; eventWizard_ := eventWizard_ r; dashboard := dashboard r; settings := settings r; accountDetail := accountDetail r |}.
#[global] Instance set_prevStates : Setter prevStates :=
  fun v r => {| state := state r; prevStates := v; store := store r; cfg := cfg r; width := width r; height := height r; infoMessage := infoMessage r; errMessage := errMessage r; showSplash := showSplash r; menuInput := menuInput r; accounts := accounts r; accountFilter := accountFilter r; filteredAccounts := filteredAccounts r; accountForm_ := accountForm_ r; noteWizard_ := noteWizard_ r; eventWizard_ := eventWizard_ r; dashboard := dashboard r; settings := settings r; accountDetail := accountDetail r |}.
#[global] Instance set_store : Setter store :=
  fun v r => {| state := state r; prevStates := prevStates r; store := v; cfg := cfg r; width := width r; height := height r; infoMessage := infoMessage r; errMessage := errMessage r; showSplash := showSplash r; menuInput := menuInput r; accounts := accounts r; accountFilter := accountFilter r; filteredAccounts := filteredAccounts r; accountForm_ := accountForm_ r; noteWizard_ := noteWizard_ r; eventWizard_ := eventWizard_ r; dashboard := dashboard r; settings := settings r; accountDetail := accountDetail r |}.
#[global] Instance set_cfg : Setter cfg :=
  fun v r => {| state := state r; prevStates := prevStates r; store := store r; cfg := v; width := width r; height := height r; infoMessage := infoMessage r; errMessage := errMessage r; showSplash := showSplash r; menuInput := menuInput r; accounts := accounts r; accountFilter := accountFilter r; filteredAccounts := filteredAccounts r; accountForm_ := accountForm_ r; noteWizard_ := noteWizard_ r; eventWizard_ := eventWizard_ r; dashboard := dashboard r; settings := settings r; accountDetail := accountDetail r |}.
#[global] Instance set_width : Setter width :=
  fun v r => {| state := state r; prevStates := prevStates r; store := store r; cfg := cfg r; width := v; height := height r; infoMessage := infoMessage r; errMessage := errMessage r; showSplash := showSplash r; menuInput := menuInput r; accounts := accounts r; accountFilter := accountFilter r; filteredAccounts := filteredAccounts r; accountForm_ := accountForm_ r; noteWizard_ := noteWizard_ r; eventWizard_ := eventWizard_ r; dashboard := dashboard r; settings := settings r; accountDetail := accountDetail r |}.
#[global] Instance set_height : Setter height :=
  fun v r => {| state := state r; prevStates := prevStates r; store := store r; cfg := cfg r; width := width r; height := v; infoMessage := infoMessage r; errMessage := errMessage r; showSplash := showSplash r; menuInput := menuInput r; accounts := accounts r; accountFilter := accountFilter r; filteredAccounts := filteredAccounts r; accountForm_ := accountForm_ r; noteWizard_ := noteWizard_ r; eventWizard_ := eventWizard_ r; dashboard := dashboard r; settings := settings r; accountDetail := accountDetail r |}.
#[global] Instance set_infoMessage : Setter infoMessage :=
  fun v r => {| state := state r; prevStates := prevStates r; store := store r; cfg := cfg r; width := width r; height := height r; infoMessage := v; errMessage := errMessage r; showSplash := showSplash r; menuInput := menuInput r; accounts := accounts r; accountFilter := accountFilter r; filteredAccounts := filteredAccounts r; accountForm_ := accountForm_ r; noteWizard_ := noteWizard_ r; eventWizard_ := eventWizard_ r; dashboard := dashboard r; settings := settings r; accountDetail := accountDetail r |}.
#[global] Instance set_errMessage : Setter errMessage :=
  fun v r => {| state := state r; prevStates := prevStates r; store := store r; cfg := cfg r; width := width r; height := height r; infoMessage := infoMessage r; errMessage := v; showSplash := showSplash r; menuInput := menuInput r; accounts := accounts r; accountFilter := accountFilter r; filteredAccounts := filteredAccounts r; accountForm_ := accountForm_ r; noteWizard_ := noteWizard_ r; eventWizard_ := eventWizard_ r; dashboard := dashboard r; settings := settings r; accountDetail := accountDetail r |}.
#[global] Instance set_showSplash : Setter showSplash :=
  fun v r => {| state := state r; prevStates := prevStates r; store := store r; cfg := cfg r; width := width r; height := height r; infoMessage := infoMessage r; errMessage := errMessage r; showSplash := v; menuInput := menuInput r; accounts := accounts r; accountFilter := accountFilter r; filteredAccounts := filteredAccounts r; accountForm_ := accountForm_ r; noteWizard_ := noteWizard_ r; eventWizard_ := eventWizard_ r; dashboard := dashboard r; settings := settings r; accountDetail := accountDetail r |}.
#[global] Instance set_menuInput : Setter menuInput :=
  fun v r => {| state := state r; prevStates := prevStates r; store := store r; cfg := cfg r; width := width r; height := height r; infoMessage := infoMessage r; errMessage := errMessage r; showSplash := showSplash r; menuInput := v; accounts := accounts r; accountFilter := accountFilter r; filteredAccounts := filteredAccounts r; accountForm_ := accountForm_ r; noteWizard_ := noteWizard_ r; eventWizard_ := eventWizard_ r; dashboard := dashboard r; settings := settings r; accountDetail := accountDetail r |}.
#[global] Instance set_accounts : Setter accounts :=
  fun v r => {| state := state r; prevStates := prevStates r; store := store r; cfg := cfg r; width := width r; height := height r; infoMessage := infoMessage r; errMessage := errMessage r; showSplash := showSplash r; menuInput := menuInput r; accounts := v; accountFilter := accountFilter r; filteredAccounts := filteredAccounts r; accountForm_ := accountForm_ r; noteWizard_ := noteWizard_ r; eventWizard_ := eventWizard_ r; dashboard := dashboard r; settings := settings r; accountDetail := accountDetail r |}.
#[global] Instance set_accountFilter : Setter accountFilter :=
  fun v r => {| state := state r; prevStates := prevStates r; store := store r; cfg := cfg r; width := width r; height := height r; infoMessage := infoMessage r; errMessage := errMessage r; showSplash := showSplash r; menuInput := menuInput r; accounts := accounts r; accountFilter := v; filteredAccounts := filteredAccounts r; accountForm_ := accountForm_ r; noteWizard_ := noteWizard_ r; eventWizard_ := eventWizard_ r; dashboard := dashboard r; settings := settings r; accountDetail := accountDetail r |}.
#[global] Instance set_filteredAccounts : Setter filteredAccounts :=
  fun v r => {| state := state r; prevStates := prevStates r; store := store r; cfg := cfg r; width := width r; height := height r; infoMessage := infoMessage r; errMessage := errMessage r; showSplash := showSplash r; menuInput := menuInput r; accounts := accounts r; accountFilter := accountFilter r; filteredAccounts := v; accountForm_ := accountForm_ r; noteWizard_ := noteWizard_ r; eventWizard_ := eventWizard_ r; dashboard := dashboard r; settings := settings r; accountDetail := accountDetail r |}.
#[global] Instance set_accountForm_ : Setter accountForm_ :=
  fun v r => {| state := state r; prevStates := prevStates r; store := store r; cfg := cfg r; width := width r; height := height r; infoMessage := infoMessage r; errMessage := errMessage r; showSplash := showSplash r; menuInput := menuInput r; accounts := accounts r; accountFilter := accountFilter r; filteredAccounts := filteredAccounts r; accountForm_ := v; noteWizard_ := noteWizard_ r; eventWizard_ := eventWizard_ r; dashboard := dashboard r; settings := settings r; accountDetail := accountDetail r |}.
#[global] Instance set_noteWizard_ : Setter noteWizard_ :=
  fun v r => {| state := state r; prevStates := prevStates r; store := store r; cfg := cfg r; width := width r; height := height r; infoMessage := infoMessage r; errMessage := errMessage r; showSplash := showSplash r; menuInput := menuInput r; accounts := accounts r; accountFilter := accountFilter r; filteredAccounts := filteredAccounts r; accountForm_ := accountForm_ r; noteWizard_ := v; eventWizard_ := eventWizard_ r; dashboard := dashboard r; settings := settings r; accountDetail := accountDetail r |}.
#[global] Instance set_eventWizard_ : Setter eventWizard_ :=
  fun v r => {| state := state r; prevStates := prevStates r; store := store r; cfg := cfg r; width := width r; height := height r; infoMessage := infoMessage r; errMessage := errMessage r; showSplash := showSplash r; menuInput := menuInput r; accounts := accounts r; accountFilter := accountFilter r; filteredAccounts := filteredAccounts r; accountForm_ := accountForm_ r; noteWizard_ := noteWizard_ r; eventWizard_ := v; dashboard := dashboard r; settings := settings r; accountDetail := accountDetail r |}.
#[global] Instance set_dashboard : Setter dashboard :=
  fun v r => {| state := state r; prevStates := prevStates r; store := store r; cfg := cfg r; width := width r; height := height r; infoMessage := infoMessage r; errMessage := errMessage r; showSplash := showSplash r; menuInput := menuInput r; accounts := accounts r; accountFilter := accountFilter r; filteredAccounts := filteredAccounts r; accountForm_ := accountForm_ r; noteWizard_ := noteWizard_ r; eventWizard_ := eventWizard_ r; dashboard := v; settings := settings r; accountDetail := accountDetail r |}.
#[global] Instance set_settings : Setter settings :=
  fun v r => {| state := state r; prevStates := prevStates r; store := store r; cfg := cfg r; width := width r; height := height r; infoMessage := infoMessage r; errMessage := errMessage r; showSplash := showSplash r; menuInput := menuInput r; accounts := accounts r; accountFilter := accountFilter r; filteredAccounts := filteredAccounts r; accountForm_ := accountForm_ r; noteWizard_ := noteWizard_ r; eventWizard_ := eventWizard_ r; dashboard := dashboard r; settings := v; accountDetail := accountDetail r |}.
#[global] Instance set_accountDetail : Setter accountDetail :=
  fun v r => {| state := state r; prevStates := prevStates r; store := store r; cfg := cfg r; width := width r; height := height r; infoMessage := infoMessage r; errMessage := errMessage r; showSplash := showSplash r; menuInput := menuInput r; accounts := accounts r; accountFilter := accountFilter r; filteredAccounts := filteredAccounts r; accountForm_ := accountForm_ r; noteWizard_ := noteWizard_ r; eventWizard_ := eventWizard_ r; dashboard := dashboard r; settings := settings r; accountDetail := v |}.

(** ** Constructors of the forms and wizards *)

Definition newAccountForm (existing : option Account) : accountForm :=
  let ti := textinput.Focus
              (textinput.New <| textinput.Placeholder := "Account name" |>
                             <| textinput.CharLimit := 96 |>) in
  let fields := [
    {| ff_label := "Account name"; ff_value := ""; ff_required := true |};
    {| ff_label := "Phone"; ff_value := ""; ff_required := false |};
    {| ff_label := "Address"; ff_value := ""; ff_required := false |};
    {| ff_label := "Email"; ff_value := ""; ff_required := false |};
    {| ff_label := "Decision maker"; ff_value := ""; ff_required := false |} ] in
  let form := {| af_index := 0; af_fields := fields; af_input := ti; af_err := "";
                 af_editing := false; af_original := emptyAccount |} in
  match existing with
  | None => form
  | Some existing =>
      {| af_index := 0;
         af_fields := [
           {| ff_label := "Account name"; ff_value := a_Name existing; ff_required := true |};
           {| ff_label := "Phone"; ff_value := a_Phone existing; ff_required := false |};
           {| ff_label := "Address"; ff_value := a_Address existing; ff_required := false |};
           {| ff_label := "Email"; ff_value := a_Email existing; ff_required := false |};
           {| ff_label := "Decision maker"; ff_value := a_DecisionMaker existing;
              ff_required := false |} ];
         af_input := textinput.SetValue (a_Name existing) ti;
         af_err := "";
         af_editing := true;
         af_original := existing |}
  end.

Definition newNoteWizard (account : option Account) : noteWizard :=
  let content := textinput.Focus
                   (textinput.New <| textinput.Placeholder := "Note details" |>
                                  <| textinput.CharLimit := 256 |>) in
  let assoc := textinput.New <| textinput.Placeholder := "Associate with account? (y/n)" |>
                             <| textinput.CharLimit := 5 |> in
  let accountInput := textinput.New <| textinput.Placeholder := "Type account name" |>
                                    <| textinput.CharLimit := 96 |> in
  {| nw_stage := noteStageContent;
     nw_contentInput := content;
     nw_associateInput := assoc;
     nw_accountInput := accountInput;
     nw_associate := false;
     nw_err := "";
     nw_presetAccount := account |}.

Definition newEventWizard (account : option Account) : eventWizard :=
  let title := textinput.Focus
                 (textinput.New <| textinput.Placeholder := "Event title" |>
                                <| textinput.CharLimit := 96 |>) in
  let details := textinput.New <| textinput.Placeholder := "Details (optional)" |>
                               <| textinput.CharLimit := 256 |> in
  let schedule := textinput.New
                    <| textinput.Placeholder := "YYYY-MM-DD HH:MM (blank = now)" |>
                    <| textinput.CharLimit := 32 |> in
  let assoc := textinput.New <| textinput.Placeholder := "Associate with account? (y/n)" |>
                             <| textinput.CharLimit := 5 |> in
  let accountInput := textinput.New <| textinput.Placeholder := "Type account name" |>
                                    <| textinput.CharLimit := 96 |> in
  {| ew_stage := eventStageTitle;
     ew_titleInput := title;
     ew_detailsInput := details;
     ew_scheduleInput := schedule;
     ew_associateInput := assoc;
     ew_accountInput := accountInput;
     ew_associate := false;
     ew_err := "";
     ew_presetAccount := account |}.

(** ** Navigation helpers *)

Definition pushState (next : viewState) (m : model) : model :=
  m <| prevStates := prevStates m ++ [state m] |> <| state := next |>.

Definition popState (m : model) : model :=
  match last (prevStates m) with
  | None => m <| state := stateMainMenu |>
  | Some top =>
      m <| state := top |> <| prevStates := removelast (prevStates m) |>
  end.

Definition resetMessages (m : model) : model :=
  m <| errMessage := "" |> <| infoMessage := "" |>.

Definition setMenuInput (placeholder : string) (limit : Z) (m : model) : model :=
  let input := textinput.New <| textinput.Prompt := "" |>
                             <| textinput.Placeholder := placeholder |> in
  let input := if 0 <? limit then input <| textinput.CharLimit := limit |> else input in
  m <| menuInput := textinput.Focus input |>.

Definition ensureMenuInput (placeholder : string) (limit : Z) (m : model) : model :=
  if String.eqb (strings.TrimSpace (textinput.Placeholder (menuInput m))) placeholder
     && ((limit <=? 0) || (textinput.CharLimit (menuInput m) =? limit))
  then
    if negb (textinput.Focused (menuInput m))
    then m <| menuInput := textinput.Focus (menuInput m) |>
    else m
  else setMenuInput placeholder limit m.

(** ** The account selection resolver *)

(** One pass of the last loop of [resolveAccountSelection] over a list;
    [match] and [count] are carried from one list to the next. *)
Definition prefixScan (queryLower : string) (acc : Account * Z) (list : list Account)
    : Account * Z :=
  foldl (fun '(match_, count) a =>
           if strings.HasPrefix (strings.ToLower (a_Name a)) queryLower
           then (a, count + 1)
           else (match_, count))
        acc list.

Definition resolveAccountSelection (m : model) (input : string) : option Account :=
  if (length (accounts m) =? 0)%nat && (length (filteredAccounts m) =? 0)%nat then None
  else
    let trimmed := strings.TrimSpace input in
    if String.eqb trimmed "" then
      match filteredAccounts m with
      | [only] => Some only
      | _ => None
      end
    else
      let lower := strings.ToLower trimmed in
      let query :=
        if strings.HasPrefix lower "open " then strings.TrimSpace (strings.sliceFrom 5 trimmed)
        else if strings.HasPrefix lower "view " then strings.TrimSpace (strings.sliceFrom 5 trimmed)
        else if strings.HasPrefix lower "select " then strings.TrimSpace (strings.sliceFrom 7 trimmed)
        else if strings.HasPrefix lower "#" then strings.TrimSpace (strings.sliceFrom 1 trimmed)
        else trimmed in
      let byIndex :=
        match strconv.Atoi query with
        | Some idx =>
            if (0 <? idx) && (idx <=? Z.of_nat (length (filteredAccounts m)))
            then filteredAccounts m !! Z.to_nat (idx - 1)
            else None
        | None => None
        end in
      match byIndex with
      | Some account => Some account
      | None =>
          match List.find (fun a => strings.EqualFold (a_Name a) query)
                          (filteredAccounts m ++ accounts m) with
          | Some account => Some account
          | None =>
              let queryLower := strings.ToLower query in
              let '(match1, count1) :=
                prefixScan queryLower (emptyAccount, 0) (filteredAccounts m) in
              if count1 =? 1 then Some match1
              else
                let '(match2, count2) := prefixScan queryLower (match1, count1) (accounts m) in
                if count2 =? 1 then Some match2 else None
          end
      end.

(** ** Global command helpers *)

Definition isExitCommand (value : string) : bool :=
  let v := strings.TrimSpace (strings.ToLower value) in
  String.eqb v "exit." || String.eqb v "quit".

Definition isBackCommand (value : string) : bool :=
  let v := strings.TrimSpace (strings.ToLower value) in
  String.eqb v "/" || String.eqb v "back".

(** [fmt.Sprintf("%d", n)] *)
Definition itoa (n : Z) : string := NilZero.string_of_int (Z.to_int n).

(** The clock of the turn, in the configured zone:
    [time.Now().In(m.cfg.Location())]. *)
Definition nowIn (w : World) (m : model) : Time :=
  {| unixNano := w_Now w; location := config.Location w (cfg m) |}.

(** ** Loading data from the store *)

Definition refreshAccountDetailAccount (w : World) (m : model) : model :=
  if a_ID (ad_account (accountDetail m)) =? 0 then m
  else
    match storage.AccountByID w (a_ID (ad_account (accountDetail m))) with
    | inr err =>
        m <| accountDetail := accountDetail m <| ad_err := "load account: " +:+ Error err |> |>
    | inl account =>
        m <| accountDetail := accountDetail m <| ad_account := account |> |>
    end.

Definition loadAccountActivity (w : World) (m : model) : model :=
  if a_ID (ad_account (accountDetail m)) =? 0 then
    m <| accountDetail := accountDetail m <| ad_activity := [] |> |>
  else
    match storage.ListAccountActivity w (a_ID (ad_account (accountDetail m))) 50 with
    | inr err =>
        m <| accountDetail := accountDetail m <| ad_err := "load activity: " +:+ Error err |> |>
    | inl activity =>
        m <| accountDetail := accountDetail m <| ad_err := "" |> <| ad_activity := activity |> |>
    end.

Definition openAccountDetail (w : World) (account : Account) (m : model) : model :=
  let m := m <| accountDetail :=
                  {| ad_account := account; ad_activity := [];
                     ad_view := accountDetailSummary; ad_err := "" |} |> in
  let m := refreshAccountDetailAccount w m in
  let m := pushState stateAccountDetail m in
  setMenuInput "1=Activity  2=Add note  3=Add event  4=Edit  5=Back" 64 m.

Definition handleAccountImport (w : World) (path : string) (m : model) : model :=
  let m := m <| infoMessage := "" |> in
  let trimmed := strings.TrimSpace path in
  if String.eqb trimmed "" then m <| errMessage := "Provide a CSV path" |>
  else
    match w_expandPath w trimmed with
    | inr err => m <| errMessage := "import path: " +:+ Error err |>
    | inl resolved =>
        match w_Open w resolved with
        | Some err => m <| errMessage := "open file: " +:+ Error err |>
        | None =>
            match w_ImportAccountsCSV w resolved (Name (Config (cfg m)))
                    (config.Location w (cfg m)) with
            | inr err => m <| errMessage := "import csv: " +:+ Error err |>
            | inl (result, inserted) =>
                let m := m <| store := {| executed := executed (store m) ++ inserted |} |> in
                let parts := ["Imported " +:+ itoa (imp_Created result) +:+ " account(s)"] in
                let parts := if 0 <? imp_Skipped result
                             then parts ++ ["skipped " +:+ itoa (imp_Skipped result)]
                             else parts in
                let m := m <| infoMessage := String.concat ", " parts |> in
                if (0 <? length (imp_Errors result))%nat
                then m <| errMessage := String.concat "; " (imp_Errors result) |>
                else m <| errMessage := "" |>
            end
        end
    end.

Definition refreshAccounts (w : World) (m : model) : model :=
  match storage.ListAccounts w with
  | inr err => m <| errMessage := "load accounts: " +:+ Error err |>
  | inl accounts_ =>
      let m := m <| accounts := accounts_ |> in
      let filter := strings.TrimSpace (textinput.Value (accountFilter m)) in
      if String.eqb filter "" then m <| filteredAccounts := accounts_ |>
      else
        match storage.SearchAccounts w filter with
        | inr err => m <| errMessage := "search accounts: " +:+ Error err |>
        | inl filtered => m <| filteredAccounts := filtered |>
        end
  end.

Definition refreshDashboard (w : World) (now : Time) (m : model) : model :=
  let m := match storage.ListEvents w with
           | inr err => m <| errMessage := "load events: " +:+ Error err |>
           | inl events => m <| dashboard := dashboard m <| dm_events := events |> |>
           end in
  match storage.ListActivities w 50 with
  | inr err => m <| errMessage := "load activity: " +:+ Error err |>
  | inl activity => m <| dashboard := dashboard m <| dm_activity := activity |> |>
  end.

(** [newModel]: the session as the program starts it. *)
Definition newModel (w : World) (store_ : Store) (cfg_ : ConfigStore) : model :=
  let ti := textinput.Focus
              (textinput.New <| textinput.Prompt := "" |>
                             <| textinput.Placeholder := "Choose an option" |>
                             <| textinput.CharLimit := 32 |>) in
  let filter := textinput.New <| textinput.Prompt := "" |>
                  <| textinput.Placeholder := "Type to search, / to go back" |>
                  <| textinput.CharLimit := 64 |> in
  let m := {| state := stateMainMenu;
              prevStates := [];
              store := store_;
              cfg := cfg_;
              width := 0;
              height := 0;
              infoMessage := "";
              errMessage := "";
              showSplash := true;
              menuInput := ti;
              accounts := [];
              accountFilter := filter;
              filteredAccounts := [];
              accountForm_ := newAccountForm None;
              noteWizard_ := newNoteWizard None;
              eventWizard_ := newEventWizard None;
              dashboard := {| dm_view := dashboardEvents; dm_events := []; dm_activity := [] |};
              settings := {| sm_mode := settingsViewing;
                             sm_input := textinput.New <| textinput.Prompt := "" |>
                                                       <| textinput.CharLimit := 64 |>;
                             sm_err := "" |};
              accountDetail := {| ad_account := emptyAccount; ad_activity := [];
                                  ad_view := accountDetailSummary; ad_err := "" |} |} in
  let m := refreshDashboard w (nowIn w m) m in
  refreshAccounts w m.

(** ** Main menu *)

(** The second component tells whether [tea.Quit] is among the commands
    returned; the focus and blink commands are not modelled. *)
Definition updateMainMenu (w : World) (msg : tea.Msg) (m : model) : model * bool :=
  let m := ensureMenuInput "Choose an option" 32 m in
  let m := m <| menuInput := textinput.Update msg (menuInput m) |> in
  if tea.isEnter msg then
    let choice := strings.TrimSpace (strings.ToLower (textinput.Value (menuInput m))) in
    let m := m <| menuInput := textinput.SetValue "" (menuInput m) |> in
    let m := m <| showSplash := false |> in
    match resolveMainMenuSelection choice with
    | None =>
        if String.eqb choice "" || String.eqb choice "0" then (m, false)
        else (m <| errMessage := "Unknown choice" |>, false)
    | Some action =>
        if String.eqb action menuDashboard then
          let m := resetMessages m in
          let m := pushState stateDashboard m in
          let m := refreshDashboard w (nowIn w m) m in
          (setMenuInput "Command (t=toggle, r=refresh, /, exit.)" 48 m, false)
        else if String.eqb action menuAccounts then
          let m := resetMessages m in
          let m := pushState stateAccounts m in
          let m := if negb (textinput.Focused (accountFilter m))
                   then m <| accountFilter := textinput.Focus (accountFilter m) |>
                   else m in
          (refreshAccounts w m, false)
        else if String.eqb action menuAddAccount then
          let m := resetMessages m in
          let m := m <| accountForm_ := newAccountForm None |> in
          (pushState stateCreateAccount m, false)
        else if String.eqb action menuCreate then
          let m := resetMessages m in
          let m := pushState stateCreateChoice m in
          (setMenuInput "1=Note  2=Event  3=Back" 32 m, false)
        else if String.eqb action menuSettings then
          let m := resetMessages m in
          let m := m <| settings :=
                          {| sm_mode := settingsViewing;
                             sm_input := textinput.New <| textinput.CharLimit := 96 |>
                                                       <| textinput.Prompt := "" |>;
                             sm_err := "" |} |> in
          let m := pushState stateSettings m in
          (setMenuInput "1=Name  2=Timezone  3=Back" 40 m, false)
        else if String.eqb action menuQuit then (m, true)
        else (m, false)
    end
  else (m, false).

(** ** Accounts list *)

(** The tail of [updateAccounts]: the list is filtered again by the text
    of the search box. *)
Definition applyAccountFilter (w : World) (m : model) : model :=
  let filter := strings.TrimSpace (textinput.Value (accountFilter m)) in
  if String.eqb filter "" then m <| filteredAccounts := accounts m |>
  else
    match storage.SearchAccounts w filter with
    | inl accounts_ => m <| filteredAccounts := accounts_ |>
    | inr _ => m
    end.

Definition updateAccounts (w : World) (msg : tea.Msg) (m : model) : model :=
  let m := m <| accountFilter := textinput.Update msg (accountFilter m) |> in
  match msg with
  | tea.KeyMsg tea.KeyEnter =>
      let value := strings.TrimSpace (textinput.Value (accountFilter m)) in
      if isExitCommand value then
        let m := m <| accountFilter := textinput.SetValue "" (accountFilter m) |> in
        let m := m <| prevStates := [] |> <| state := stateMainMenu |> in
        setMenuInput "Choose an option" 32 m
      else if isBackCommand value then
        let m := m <| accountFilter := textinput.SetValue "" (accountFilter m) |> in
        let m := popState m in
        if decide (state m = stateMainMenu) then setMenuInput "Choose an option" 32 m else m
      else
        let trimmedValue := strings.TrimSpace value in
        if strings.HasPrefix (strings.ToLower trimmedValue) "import " then
          let path := strings.TrimSpace (strings.sliceFrom 7 trimmedValue) in
          let m := handleAccountImport w path m in
          let m := m <| accountFilter := textinput.SetValue "" (accountFilter m) |> in
          refreshAccounts w m
        else
          match resolveAccountSelection m trimmedValue with
          | Some account =>
              let m := m <| accountFilter := textinput.SetValue "" (accountFilter m) |> in
              openAccountDetail w account m
          | None => applyAccountFilter w (refreshAccounts w m)
          end
  | tea.KeyMsg tea.KeyEsc =>
      let m := popState m in
      if decide (state m = stateMainMenu) then setMenuInput "Choose an option" 32 m else m
  | _ => applyAccountFilter w m
  end.

(** ** Account form *)

(** [fields[i]]; [None] stands for the run-time panic of an index out of
    range. *)
Definition fieldAt (fields : list formField) (i : Z) : option formField :=
  if 0 <=? i then fields !! Z.to_nat i else None.

Definition buildAccount (fields : list formField) (base : Account) : Account :=
  let account := base in
  let account := match fields !! 0%nat with
                 | Some f => account <| a_Name := ff_value f |> | None => account end in
  let account := match fields !! 1%nat with
                 | Some f => account <| a_Phone := ff_value f |> | None => account end in
  let account := match fields !! 2%nat with
                 | Some f => account <| a_Address := ff_value f |> | None => account end in
  let account := match fields !! 3%nat with
                 | Some f => account <| a_Email := ff_value f |> | None => account end in
  match fields !! 4%nat with
  | Some f => account <| a_DecisionMaker := ff_value f |> | None => account end.

(** The menu input that the view reached by [popState] expects. *)
Definition focusAfterForm (m : model) : model :=
  if decide (state m = stateMainMenu) then setMenuInput "Choose an option" 32 m
  else if decide (state m = stateAccountDetail)
  then setMenuInput "1=Activity  2=Add note  3=Add event  4=Edit  5=Back" 64 m
  else m.

(** Leaving the form without saving: the block of the back command on the
    first field, repeated for the escape key. *)
Definition cancelAccountForm (m : model) : model :=
  let m := if af_editing (accountForm_ m)
           then m <| accountForm_ := newAccountForm (Some (af_original (accountForm_ m))) |>
           else m <| accountForm_ := newAccountForm None |> in
  focusAfterForm (popState m).

(** Saving the form once its last field is accepted. *)
Definition submitAccountForm (w : World) (m : model) : option model :=
  let base := if af_editing (accountForm_ m) then af_original (accountForm_ m)
              else emptyAccount in
  let account := buildAccount (af_fields (accountForm_ m)) base in
  let duplicate (shown : string) (m : model) : option model :=
    match fieldAt (af_fields (accountForm_ m)) 0 with
    | None => None
    | Some first =>
        Some (m <| accountForm_ :=
                     accountForm_ m
                       <| af_err := "An account with that name already exists" |>
                       <| af_index := 0 |>
                       <| af_input := textinput.SetValue shown (af_input (accountForm_ m))
                                        <| textinput.Placeholder := ff_label first |> |> |>)
    end in
  let finish (account : Account) (m : model) : option model :=
    let m := if af_editing (accountForm_ m)
             then refreshAccountDetailAccount w
                    (m <| accountDetail := accountDetail m <| ad_account := account |> |>)
             else m in
    let m := m <| accountForm_ := newAccountForm None |> in
    let m := focusAfterForm (popState m) in
    let m := refreshAccounts w m in
    Some (if decide (state m = stateAccountDetail) then loadAccountActivity w m else m) in
  if af_editing (accountForm_ m) then
    match storage.UpdateAccount w (store m) account with
    | (_, Some ErrAccountExists) => duplicate (a_Name account) m
    | (_, Some err) => Some (m <| accountForm_ := accountForm_ m <| af_err := Error err |> |>)
    | (store_, None) =>
        let m := m <| store := store_ |> in
        finish account (m <| infoMessage := "Account '" +:+ a_Name account +:+ "' updated" |>)
    end
  else
    let account := account <| a_Creator := Name (Config (cfg m)) |>
                           <| a_CreatedAt := nowIn w m |> in
    match storage.CreateAccount w (store m) account with
    | (_, _, Some ErrAccountExists) => duplicate "" m
    | (_, _, Some err) => Some (m <| accountForm_ := accountForm_ m <| af_err := Error err |> |>)
    | (store_, account, None) =>
        let m := m <| store := store_ |> in
        finish account (m <| infoMessage := "Account '" +:+ a_Name account +:+ "' created" |>)
    end.

Definition updateAccountForm (w : World) (msg : tea.Msg) (m : model) : option model :=
  let m := m <| accountForm_ :=
                  accountForm_ m <| af_input := textinput.Update msg (af_input (accountForm_ m)) |> |> in
  match msg with
  | tea.KeyMsg tea.KeyEnter =>
      let value := strings.TrimSpace (textinput.Value (af_input (accountForm_ m))) in
      if isExitCommand value then
        let m := m <| accountForm_ := newAccountForm None |> in
        let m := m <| prevStates := [] |> <| state := stateMainMenu |> in
        Some (setMenuInput "Choose an option" 32 m)
      else if isBackCommand value then
        if af_index (accountForm_ m) =? 0 then Some (cancelAccountForm m)
        else
          let index := af_index (accountForm_ m) - 1 in
          match fieldAt (af_fields (accountForm_ m)) index with
          | None => None
          | Some prev =>
              Some (m <| accountForm_ :=
                           accountForm_ m
                             <| af_index := index |>
                             <| af_input := textinput.SetValue (ff_value prev)
                                  (af_input (accountForm_ m)
                                     <| textinput.Placeholder := ff_label prev |>) |>
                             <| af_err := "" |> |>)
          end
      else
        match fieldAt (af_fields (accountForm_ m)) (af_index (accountForm_ m)) with
        | None => None
        | Some current =>
            if ff_required current && String.eqb value "" then
              Some (m <| accountForm_ := accountForm_ m <| af_err := "This field is required" |> |>)
            else
              let fields := <[ Z.to_nat (af_index (accountForm_ m)) := current <| ff_value := value |> ]>
                              (af_fields (accountForm_ m)) in
              let m := m <| accountForm_ :=
                              accountForm_ m
                                <| af_fields := fields |>
                                <| af_input := textinput.SetValue "" (af_input (accountForm_ m)) |>
                                <| af_err := "" |> |> in
              if Z.of_nat (length (af_fields (accountForm_ m))) - 1 <=? af_index (accountForm_ m)
              then submitAccountForm w m
              else
                let index := af_index (accountForm_ m) + 1 in
                match fieldAt (af_fields (accountForm_ m)) index with
                | None => None
                | Some next =>
                    Some (m <| accountForm_ :=
                                 accountForm_ m
                                   <| af_index := index |>
                                   <| af_input := textinput.SetValue (ff_value next)
                                        (af_input (accountForm_ m)
                                           <| textinput.Placeholder := ff_label next |>) |> |>)
                end
        end
  | tea.KeyMsg tea.KeyEsc => Some (cancelAccountForm m)
  | _ => Some m
  end.

(** ** Account detail *)

Definition updateAccountDetail (w : World) (msg : tea.Msg) (m : model) : model :=
  let m := ensureMenuInput "1=Activity  2=Add note  3=Add event  4=Edit  5=Back" 64 m in
  let m := m <| menuInput := textinput.Update msg (menuInput m) |> in
  let back (m : model) : model :=
    let m := popState m in
    if decide (state m = stateMainMenu) then setMenuInput "Choose an option" 32 m else m in
  match msg with
  | tea.KeyMsg tea.KeyEnter =>
      let choice := strings.TrimSpace (strings.ToLower (textinput.Value (menuInput m))) in
      let m := m <| menuInput := textinput.SetValue "" (menuInput m) |> in
      match resolveAccountDetailAction choice with
      | None =>
          if String.eqb choice "" then m
          else m <| accountDetail := accountDetail m <| ad_err := "Unknown choice" |> |>
      | Some action =>
          let m := m <| accountDetail := accountDetail m <| ad_err := "" |> |> in
          let summary (m : model) : model :=
            m <| accountDetail := accountDetail m <| ad_view := accountDetailSummary |> |> in
          if String.eqb action accountActionActivity then
            loadAccountActivity w
              (m <| accountDetail := accountDetail m <| ad_view := accountDetailActivity |> |>)
          else if String.eqb action accountActionAddNote then
            let m := summary m in
            let m := m <| noteWizard_ := newNoteWizard (Some (ad_account (accountDetail m))) |> in
            pushState stateCreateNote m
          else if String.eqb action accountActionAddEvent then
            let m := summary m in
            let m := m <| eventWizard_ := newEventWizard (Some (ad_account (accountDetail m))) |> in
            pushState stateCreateEvent m
          else if String.eqb action accountActionEdit then
            let m := summary m in
            let m := m <| accountForm_ := newAccountForm (Some (ad_account (accountDetail m))) |> in
            pushState stateCreateAccount m
          else if String.eqb action accountActionBack then back m
          else m
      end
  | tea.KeyMsg tea.KeyEsc => back m
  | _ => m
  end.

(** ** Create choice *)

Definition updateCreateChoice (w : World) (msg : tea.Msg) (m : model) : model :=
  let m := ensureMenuInput "1=Note  2=Event  3=Back" 32 m in
  let m := m <| menuInput := textinput.Update msg (menuInput m) |> in
  if tea.isEnter msg then
    let input := strings.TrimSpace (strings.ToLower (textinput.Value (menuInput m))) in
    let m := m <| menuInput := textinput.SetValue "" (menuInput m) |> in
    if String.eqb input "1" || String.eqb input "note" || String.eqb input "n" then
      m <| noteWizard_ := newNoteWizard None |> <| state := stateCreateNote |>
    else if String.eqb input "2" || String.eqb input "event" || String.eqb input "e" then
      m <| eventWizard_ := newEventWizard None |> <| state := stateCreateEvent |>
    else if String.eqb input "3" || String.eqb input "back" || String.eqb input "/" then
      let m := popState m in
      if decide (state m = stateMainMenu) then setMenuInput "Choose an option" 32 m else m
    else if String.eqb input "exit." || String.eqb input "exit" || String.eqb input "quit" then
      let m := m <| prevStates := [] |> <| state := stateMainMenu |> in
      setMenuInput "Choose an option" 32 m
    else m <| errMessage := "Choose 1 for note or 2 for event" |>
  else m.

(** ** Note wizard *)

(** [saveNote]: [accountID] is the pointer argument, [None] for [nil]. *)
Definition saveNote (w : World) (accountID : option NullInt64) (m : model)
    : model * option error :=
  let content := strings.TrimSpace (textinput.Value (nw_contentInput (noteWizard_ m))) in
  let note := {| n_ID := 0;
                 n_Content := content;
                 n_AccountID := match accountID with Some id => id | None => noInt64 end;
                 n_Creator := Name (Config (cfg m));
                 n_CreatedAt := nowIn w m;
                 n_AccountName := noString |} in
  let '(store_, err) := storage.CreateNote w (store m) note in
  (m <| store := store_ |>, err).

Definition completeNoteSave (w : World) (message : string) (m : model) : model :=
  let m := m <| noteWizard_ := newNoteWizard None |> in
  let m := m <| infoMessage := message |> in
  let m := popState m in
  let m := if decide (state m = stateAccountDetail)
           then loadAccountActivity w (refreshAccountDetailAccount w m)
           else if decide (state m = stateMainMenu)
           then setMenuInput "Choose an option" 32 m
           else m in
  refreshDashboard w (nowIn w m) m.

(** The exit command as the wizards and the settings editors handle it. *)
Definition exitToMainMenu (m : model) : model :=
  let m := m <| prevStates := [] |> <| state := stateMainMenu |> in
  setMenuInput "Choose an option" 32 m.

Definition updateNoteWizard (w : World) (msg : tea.Msg) (m : model) : model :=
  let wz := noteWizard_ m in
  let setErr (e : string) (m : model) : model :=
    m <| noteWizard_ := noteWizard_ m <| nw_err := e |> |> in
  let setStage (s : noteStage) (m : model) : model :=
    m <| noteWizard_ := noteWizard_ m <| nw_stage := s |> |> in
  match nw_stage wz with
  | noteStageContent =>
      let input := if negb (textinput.Focused (nw_contentInput wz))
                   then textinput.Focus (nw_contentInput wz) else nw_contentInput wz in
      let input := textinput.Update msg input in
      let m := m <| noteWizard_ := wz <| nw_contentInput := input |> |> in
      if tea.isEnter msg then
        let value := strings.TrimSpace (textinput.Value input) in
        if isExitCommand value then
          exitToMainMenu (m <| noteWizard_ := newNoteWizard None |>)
        else if isBackCommand value then
          let m := popState (m <| noteWizard_ := newNoteWizard None |>) in
          if decide (state m = stateMainMenu) then setMenuInput "Choose an option" 32 m else m
        else if String.eqb value "" then setErr "Note cannot be empty" m
        else
          let m := setErr "" m in
          match nw_presetAccount (noteWizard_ m) with
          | Some preset =>
              match saveNote w (Some {| Int64 := a_ID preset; Valid := true |}) m with
              | (m, Some err) => setErr (Error err) m
              | (m, None) =>
                  let name := if String.eqb (a_Name preset) ""
                              then a_Name (ad_account (accountDetail m))
                              else a_Name preset in
                  let message := if String.eqb name "" then "Note saved"
                                 else "Note saved for " +:+ name in
                  completeNoteSave w message m
              end
          | None => setStage noteStageAssociatePrompt m
          end
      else m
  | noteStageAssociatePrompt =>
      let input := if negb (textinput.Focused (nw_associateInput wz))
                   then textinput.Focus (nw_associateInput wz) else nw_associateInput wz in
      let input := textinput.Update msg input in
      let m := m <| noteWizard_ := wz <| nw_associateInput := input |> |> in
      if tea.isEnter msg then
        let value := strings.ToLower (strings.TrimSpace (textinput.Value input)) in
        let m := m <| noteWizard_ :=
                        noteWizard_ m <| nw_associateInput := textinput.SetValue "" input |> |> in
        if isExitCommand value then
          exitToMainMenu (m <| noteWizard_ := newNoteWizard None |>)
        else if isBackCommand value then setStage noteStageContent m
        else if String.eqb value "y" || String.eqb value "yes" then
          setStage noteStageAssociateChoose
            (m <| noteWizard_ := noteWizard_ m <| nw_associate := true |> |>)
        else if String.eqb value "n" || String.eqb value "no" || String.eqb value "" then
          let m := m <| noteWizard_ := noteWizard_ m <| nw_associate := false |> |> in
          match saveNote w None m with
          | (m, Some err) => setErr (Error err) m
          | (m, None) => completeNoteSave w "Note saved" m
          end
        else setErr "Please answer y or n" m
      else m
  | noteStageAssociateChoose =>
      let input := if negb (textinput.Focused (nw_accountInput wz))
                   then textinput.Focus (nw_accountInput wz) else nw_accountInput wz in
      let input := textinput.Update msg input in
      let m := m <| noteWizard_ := wz <| nw_accountInput := input |> |> in
      if tea.isEnter msg then
        let value := strings.TrimSpace (textinput.Value input) in
        if isExitCommand value then
          exitToMainMenu (m <| noteWizard_ := newNoteWizard None |>)
        else if isBackCommand value then setStage noteStageAssociatePrompt m
        else if String.eqb value "" then
          match saveNote w None m with
          | (m, Some err) => setErr (Error err) m
          | (m, None) => completeNoteSave w "Note saved" m
          end
        else
          match storage.AccountByName w value with
          | inr _ => setErr "Account not found" m
          | inl account =>
              match saveNote w (Some {| Int64 := a_ID account; Valid := true |}) m with
              | (m, Some err) => setErr (Error err) m
              | (m, None) => completeNoteSave w ("Note saved for " +:+ a_Name account) m
              end
          end
      else m
  end.

(** ** Event wizard *)

Definition saveEvent (w : World) (accountID : option NullInt64) (m : model)
    : model * option error :=
  let title := strings.TrimSpace (textinput.Value (ew_titleInput (eventWizard_ m))) in
  let details := strings.TrimSpace (textinput.Value (ew_detailsInput (eventWizard_ m))) in
  let scheduleStr := strings.TrimSpace (textinput.Value (ew_scheduleInput (eventWizard_ m))) in
  let loc := config.Location w (cfg m) in
  let eventTime :=
    if String.eqb scheduleStr "" then Some (nowIn w m)
    else match w_ParseInLocation w scheduleStr loc with
         | Some parsed => Some {| unixNano := parsed; location := loc |}
         | None => None
         end in
  match eventTime with
  | None => (m, Some (errorString "invalid schedule format"))
  | Some eventTime =>
      let evt := {| e_ID := 0;
                    e_Title := title;
                    e_Details := details;
                    e_EventTime := eventTime;
                    e_AccountID := match accountID with Some id => id | None => noInt64 end;
                    e_Creator := Name (Config (cfg m));
                    e_CreatedAt := nowIn w m;
                    e_AccountName := noString |} in
      let '(store_, err) := storage.CreateEvent w (store m) evt in
      (m <| store := store_ |>, err)
  end.

Definition completeEventSave (w : World) (message : string) (m : model) : model :=
  let m := m <| eventWizard_ := newEventWizard None |> in
  let m := m <| infoMessage := message |> in
  let m := popState m in
  let m := if decide (state m = stateAccountDetail)
           then loadAccountActivity w (refreshAccountDetailAccount w m)
           else if decide (state m = stateMainMenu)
           then setMenuInput "Choose an option" 32 m
           else m in
  refreshDashboard w (nowIn w m) m.

Definition updateEventWizard (w : World) (msg : tea.Msg) (m : model) : model :=
  let wz := eventWizard_ m in
  let setErr (e : string) (m : model) : model :=
    m <| eventWizard_ := eventWizard_ m <| ew_err := e |> |> in
  let setStage (s : eventStage) (m : model) : model :=
    m <| eventWizard_ := eventWizard_ m <| ew_stage := s |> |> in
  let focused (input : textinput.Model) : textinput.Model :=
    if negb (textinput.Focused input) then textinput.Focus input else input in
  match ew_stage wz with
  | eventStageTitle =>
      let input := textinput.Update msg (focused (ew_titleInput wz)) in
      let m := m <| eventWizard_ := wz <| ew_titleInput := input |> |> in
      if tea.isEnter msg then
        let value := strings.TrimSpace (textinput.Value input) in
        if isExitCommand value then
          exitToMainMenu (m <| eventWizard_ := newEventWizard None |>)
        else if isBackCommand value then
          let m := popState (m <| eventWizard_ := newEventWizard None |>) in
          if decide (state m = stateMainMenu) then setMenuInput "Choose an option" 32 m else m
        else if String.eqb value "" then setErr "Title is required" m
        else setStage eventStageDetails (setErr "" m)
      else m
  | eventStageDetails =>
      let input := textinput.Update msg (focused (ew_detailsInput wz)) in
      let m := m <| eventWizard_ := wz <| ew_detailsInput := input |> |> in
      if tea.isEnter msg then
        let value := strings.TrimSpace (textinput.Value input) in
        if isExitCommand value then
          exitToMainMenu (m <| eventWizard_ := newEventWizard None |>)
        else if isBackCommand value then setStage eventStageTitle m
        else setStage eventStageSchedule m
      else m
  | eventStageSchedule =>
      let input := textinput.Update msg (focused (ew_scheduleInput wz)) in
      let m := m <| eventWizard_ := wz <| ew_scheduleInput := input |> |> in
      if tea.isEnter msg then
        let value := strings.TrimSpace (textinput.Value input) in
        if isExitCommand value then
          exitToMainMenu (m <| eventWizard_ := newEventWizard None |>)
        else if isBackCommand value then setStage eventStageDetails m
        else if negb (String.eqb value "")
                && negb (bool_decide (is_Some
                     (w_ParseInLocation w value (config.Location w (cfg m)))))
        then setErr "Use format YYYY-MM-DD HH:MM" m
        else
          let m := setErr "" m in
          match ew_presetAccount (eventWizard_ m) with
          | Some preset =>
              match saveEvent w (Some {| Int64 := a_ID preset; Valid := true |}) m with
              | (m, Some err) => setErr (Error err) m
              | (m, None) =>
                  let name := if String.eqb (a_Name preset) ""
                              then a_Name (ad_account (accountDetail m))
                              else a_Name preset in
                  let message := if String.eqb name "" then "Event created"
                                 else "Event created for " +:+ name in
                  completeEventSave w message m
              end
          | None => setStage eventStageAssociatePrompt m
          end
      else m
  | eventStageAssociatePrompt =>
      let input := textinput.Update msg (focused (ew_associateInput wz)) in
      let m := m <| eventWizard_ := wz <| ew_associateInput := input |> |> in
      if tea.isEnter msg then
        let value := strings.ToLower (strings.TrimSpace (textinput.Value input)) in
        let m := m <| eventWizard_ :=
                        eventWizard_ m <| ew_associateInput := textinput.SetValue "" input |> |> in
        if isExitCommand value then
          exitToMainMenu (m <| eventWizard_ := newEventWizard None |>)
        else if isBackCommand value then setStage eventStageSchedule m
        else if String.eqb value "y" || String.eqb value "yes" then
          setStage eventStageAssociateChoose
            (m <| eventWizard_ := eventWizard_ m <| ew_associate := true |> |>)
        else if String.eqb value "n" || String.eqb value "no" || String.eqb value "" then
          let m := m <| eventWizard_ := eventWizard_ m <| ew_associate := false |> |> in
          match saveEvent w None m with
          | (m, Some err) => setErr (Error err) m
          | (m, None) => completeEventSave w "Event created" m
          end
        else setErr "Please answer y or n" m
      else m
  | eventStageAssociateChoose =>
      let input := textinput.Update msg (focused (ew_accountInput wz)) in
      let m := m <| eventWizard_ := wz <| ew_accountInput := input |> |> in
      if tea.isEnter msg then
        let value := strings.TrimSpace (textinput.Value input) in
        if isExitCommand value then
          exitToMainMenu (m <| eventWizard_ := newEventWizard None |>)
        else if isBackCommand value then setStage eventStageAssociatePrompt m
        else if String.eqb value "" then
          match saveEvent w None m with
          | (m, Some err) => setErr (Error err) m
          | (m, None) => completeEventSave w "Event created" m
          end
        else
          match storage.AccountByName w value with
          | inr _ => setErr "Account not found" m
          | inl account =>
              match saveEvent w (Some {| Int64 := a_ID account; Valid := true |}) m with
              | (m, Some err) => setErr (Error err) m
              | (m, None) => completeEventSave w ("Event created for " +:+ a_Name account) m
              end
          end
      else m
  end.

(** ** Dashboard *)

Definition updateDashboard (w : World) (msg : tea.Msg) (m : model) : model :=
  let m := ensureMenuInput "Command (t=toggle, r=refresh, /, exit.)" 48 m in
  let m := m <| menuInput := textinput.Update msg (menuInput m) |> in
  if tea.isEnter msg then
    let command := strings.TrimSpace (strings.ToLower (textinput.Value (menuInput m))) in
    let m := m <| menuInput := textinput.SetValue "" (menuInput m) |> in
    if String.eqb command "t" || String.eqb command "toggle" then
      match dm_view (dashboard m) with
      | dashboardEvents => m <| dashboard := dashboard m <| dm_view := dashboardActivity |> |>
      | dashboardActivity => m <| dashboard := dashboard m <| dm_view := dashboardEvents |> |>
      end
    else if String.eqb command "r" || String.eqb command "refresh" then
      refreshDashboard w (nowIn w m) m
    else if String.eqb command "/" || String.eqb command "back" then
      let m := popState m in
      if decide (state m = stateMainMenu) then setMenuInput "Choose an option" 32 m else m
    else if String.eqb command "exit." || String.eqb command "exit" || String.eqb command "quit"
    then exitToMainMenu m
    else if String.eqb command "" then m
    else m <| errMessage := "Unknown dashboard command" |>
  else m.

(** ** Settings *)

Definition updateSettings (w : World) (msg : tea.Msg) (m : model) : model :=
  let setErr (e : string) (m : model) : model :=
    m <| settings := settings m <| sm_err := e |> |> in
  let setMode (md : settingsMode) (m : model) : model :=
    m <| settings := settings m <| sm_mode := md |> |> in
  let edit (md : settingsMode) (current : string) (m : model) : model :=
    let input := textinput.New <| textinput.Prompt := "" |> <| textinput.CharLimit := 64 |> in
    let input := textinput.Focus (textinput.SetValue current input) in
    setMode md m <| settings := settings (setMode md m) <| sm_input := input |> |> in
  let editing (m : model) : model :=
    let input := if negb (textinput.Focused (sm_input (settings m)))
                 then textinput.Focus (sm_input (settings m)) else sm_input (settings m) in
    m <| settings := settings m <| sm_input := textinput.Update msg input |> |> in
  match sm_mode (settings m) with
  | settingsViewing =>
      let m := ensureMenuInput "1=Name  2=Timezone  3=Back" 40 m in
      let m := m <| menuInput := textinput.Update msg (menuInput m) |> in
      if tea.isEnter msg then
        let value := strings.TrimSpace (strings.ToLower (textinput.Value (menuInput m))) in
        let m := m <| menuInput := textinput.SetValue "" (menuInput m) |> in
        if String.eqb value "1" || String.eqb value "name" then
          edit settingsEditingName (Name (Config (cfg m))) m
        else if String.eqb value "2" || String.eqb value "timezone" then
          edit settingsEditingTimezone (Timezone (Config (cfg m))) m
        else if String.eqb value "3" || String.eqb value "back" || String.eqb value "/" then
          let m := popState m in
          if decide (state m = stateMainMenu) then setMenuInput "Choose an option" 32 m else m
        else if String.eqb value "exit." || String.eqb value "exit" || String.eqb value "quit"
        then exitToMainMenu m
        else setErr "Choose 1 or 2 to edit settings" m
      else m
  | settingsEditingName =>
      let m := editing m in
      if tea.isEnter msg then
        let value := strings.TrimSpace (textinput.Value (sm_input (settings m))) in
        if isExitCommand value then exitToMainMenu m
        else if isBackCommand value then setMode settingsViewing m
        else if String.eqb value "" then setErr "Name cannot be empty" m
        else
          let m := m <| cfg := cfg m <| Config := Config (cfg m) <| Name := value |> |> |> in
          match config.Save w (cfg m) with
          | Some err => setErr (Error err) m
          | None => setMode settingsViewing (setErr "" m <| infoMessage := "Name updated" |>)
          end
      else m
  | settingsEditingTimezone =>
      let m := editing m in
      if tea.isEnter msg then
        let value := strings.TrimSpace (textinput.Value (sm_input (settings m))) in
        if isExitCommand value then exitToMainMenu m
        else if isBackCommand value then setMode settingsViewing m
        else if String.eqb value "" then setErr "Timezone cannot be empty" m
        else
          match w_LoadLocation w value with
          | None => setErr "Invalid timezone" m
          | Some _ =>
              let m := m <| cfg := cfg m <| Config := Config (cfg m) <| Timezone := value |> |> |> in
              match config.Save w (cfg m) with
              | Some err => setErr (Error err) m
              | None => setMode settingsViewing (setErr "" m <| infoMessage := "Timezone updated" |>)
              end
          end
      else m
  end.

(** ** The session controller *)

(** [Update]: the model after the message and whether the program quits.
    [None] stands for a run-time panic of the handler.  The [default]
    branch of the source's switch serves integers that are none of the
    declared view constants; [viewState] holds the declared constants
    only, so that branch has no counterpart here. *)
Definition Update (w : World) (msg : tea.Msg) (m : model) : option (model * bool) :=
  match msg with
  | tea.KeyMsg tea.KeyCtrlC => Some (m, true)
  | _ =>
      let m := match msg with
               | tea.WindowSizeMsg width_ height_ => m <| width := width_ |> <| height := height_ |>
               | _ => m
               end in
      match state m with
      | stateMainMenu => Some (updateMainMenu w msg m)
      | stateAccounts => Some (updateAccounts w msg m, false)
      | stateAccountDetail => Some (updateAccountDetail w msg m, false)
      | stateCreateAccount =>
          match updateAccountForm w msg m with
          | Some m => Some (m, false)
          | None => None
          end
      | stateCreateChoice => Some (updateCreateChoice w msg m, false)
      | stateCreateNote => Some (updateNoteWizard w msg m, false)
      | stateCreateEvent => Some (updateEventWizard w msg m, false)
      | stateDashboard => Some (updateDashboard w msg m, false)
      | stateSettings | stateSettingsEditName | stateSettingsEditTimezone =>
          Some (updateSettings w msg m, false)
      end
  end.

(** ** Sample sessions

    Concrete worlds and runs on which the theorems below are exercised. *)

Definition acme : Account := emptyAccount <| a_ID := 1 |> <| a_Name := "Acme" |>.
Definition acmeCorp : Account := emptyAccount <| a_ID := 2 |> <| a_Name := "Acme Corp" |>.

(** A world whose database holds the two accounts above and answers the
    statements of the turn with [exec]. *)
Definition sampleWorld (exec : Stmt -> ExecResult) : World := {|
  w_Now := 1700000000 * time.Second;
  w_LoadLocation := fun name => if String.eqb name "UTC" then Some UTC else None;
  w_ParseInLocation := fun _ _ => None;
  w_Exec := exec;
  w_ListAccounts := inl [acme; acmeCorp];
  w_SearchAccounts := fun _ => inl [acme; acmeCorp];
  w_AccountRowByName := fun _ => inr ErrNoRows;
  w_AccountRowByID := fun id => if id =? 1 then inl acme
                                else if id =? 2 then inl acmeCorp else inr ErrNoRows;
  w_ListEvents := inl [];
  w_ListActivities := fun _ => inl [];
  w_ListAccountActivity := fun _ _ => inl [];
  w_expandPath := fun p => inl p;
  w_Open := fun _ => Some (errorString "no such file or directory");
  w_ImportAccountsCSV := fun _ _ _ => inr (errorString "read header: EOF");
  w_writeConfig := fun _ => None
|}.

(** Every statement succeeds. *)
Definition quietWorld : World := sampleWorld (fun _ => ExecOk (Some 3)).

(** Every statement violates the uniqueness constraint of [accounts.name]. *)
Definition duplicateWorld : World :=
  sampleWorld (fun _ => ExecErr (errorString "UNIQUE constraint failed: accounts.name")).

(** The messages of [msgs] processed in order, every turn in world [w]. *)
Fixpoint run (w : World) (msgs : list tea.Msg) (m : model) : option model :=
  match msgs with
  | [] => Some m
  | msg :: rest =>
      match Update w msg m with
      | Some (m', _) => run w rest m'
      | None => None
      end
  end.

(** Typing [text] and pressing enter. *)
Definition submit (text : string) : list tea.Msg :=
  [tea.KeyMsg (tea.KeyRunes text); tea.KeyMsg tea.KeyEnter].

Definition session0 : model :=
  newModel quietWorld {| executed := [] |}
           {| Config := {| Name := "sam"; Timezone := "UTC" |} |}.

(** ** Predicates of the statements *)

(** [candidate options value id]: some option with identifier [id] has a
    keyword that starts with [value]. *)
Definition candidate (options : list menuOption) (value id : string) : Prop :=
  exists o, o ∈ options /\ mo_id o = id /\
    exists keyword, keyword ∈ mo_keywords o /\ strings.HasPrefix keyword value = true.











(** The navigation part of a session: the active view and the stack. *)
Definition navOf (m : model) : viewState * list viewState := (state m, prevStates m).

Definition pushNav (next : viewState) (n : viewState * list viewState)
    : viewState * list viewState :=
  (next, n.2 ++ [n.1]).

Definition popNav (n : viewState * list viewState) : viewState * list viewState :=
  match last n.2 with
  | None => (stateMainMenu, n.2)
  | Some top => (top, removelast n.2)
  end.

(** The active view with the stack below it, in every way the menus lead
    from the main menu to a screen. *)
Definition validNavs : list (viewState * list viewState) := [
  (stateMainMenu, []);
  (stateDashboard, [stateMainMenu]);
  (stateAccounts, [stateMainMenu]);
  (stateCreateAccount, [stateMainMenu]);
  (stateCreateChoice, [stateMainMenu]);
  (stateCreateNote, [stateMainMenu]);
  (stateCreateEvent, [stateMainMenu]);
  (stateSettings, [stateMainMenu]);
  (stateAccountDetail, [stateMainMenu; stateAccounts]);
  (stateCreateNote, [stateMainMenu; stateAccounts; stateAccountDetail]);
  (stateCreateEvent, [stateMainMenu; stateAccounts; stateAccountDetail]);
  (stateCreateAccount, [stateMainMenu; stateAccounts; stateAccountDetail])
].

(** Where one turn can lead from the navigation [n]: the views that the
    handler of the active view pushes, the views it replaces itself by,
    the view it pops to and the main menu it resets to. *)
Definition navSuccessors (n : viewState * list viewState)
    : list (viewState * list viewState) :=
  match n.1 with
  | stateMainMenu =>
      [n; pushNav stateDashboard n; pushNav stateAccounts n; pushNav stateCreateAccount n;
       pushNav stateCreateChoice n; pushNav stateSettings n]
  | stateAccounts => [n; (stateMainMenu, []); popNav n; pushNav stateAccountDetail n]
  | stateAccountDetail =>
      [n; popNav n; pushNav stateCreateNote n; pushNav stateCreateEvent n;
       pushNav stateCreateAccount n]
  | stateCreateAccount => [n; (stateMainMenu, []); popNav n]
  | stateCreateChoice =>
      [n; (stateCreateNote, n.2); (stateCreateEvent, n.2); popNav n; (stateMainMenu, [])]
  | _ => [n; popNav n; (stateMainMenu, [])]
  end.

(** The states that the session can be in: the initial one and those that
    [Update] leads to, whatever the world answers. *)
Inductive reachable : model -> Prop :=
  | reachable_init w store_ cfg_ : reachable (newModel w store_ cfg_)
  | reachable_step w msg m m' quit :
      reachable m -> Update w msg m = Some (m', quit) -> reachable m'.

(** The text that the active screen reads when the enter key arrives. *)
Definition submittedText (m : model) : string :=
  textinput.Value
    match state m with
    | stateMainMenu => menuInput (ensureMenuInput "Choose an option" 32 m)
    | stateDashboard =>
        menuInput (ensureMenuInput "Command (t=toggle, r=refresh, /, exit.)" 48 m)
    | stateAccounts => accountFilter m
    | stateAccountDetail =>
        menuInput (ensureMenuInput "1=Activity  2=Add note  3=Add event  4=Edit  5=Back" 64 m)
    | stateCreateAccount => af_input (accountForm_ m)
    | stateCreateChoice => menuInput (ensureMenuInput "1=Note  2=Event  3=Back" 32 m)
    | stateCreateNote =>
        match nw_stage (noteWizard_ m) with
        | noteStageContent => nw_contentInput (noteWizard_ m)
        | noteStageAssociatePrompt => nw_associateInput (noteWizard_ m)
        | noteStageAssociateChoose => nw_accountInput (noteWizard_ m)
        end
    | stateCreateEvent =>
        match ew_stage (eventWizard_ m) with
        | eventStageTitle => ew_titleInput (eventWizard_ m)
        | eventStageDetails => ew_detailsInput (eventWizard_ m)
        | eventStageSchedule => ew_scheduleInput (eventWizard_ m)
        | eventStageAssociatePrompt => ew_associateInput (eventWizard_ m)
        | eventStageAssociateChoose => ew_accountInput (eventWizard_ m)
        end
    | stateSettings | stateSettingsEditName | stateSettingsEditTimezone =>
        match sm_mode (settings m) with
        | settingsViewing => menuInput (ensureMenuInput "1=Name  2=Timezone  3=Back" 40 m)
        | _ => sm_input (settings m)
        end
    end.

(** The cursor of the account form points at one of its fields. *)
Definition formOK (f : accountForm) : Prop :=
  0 <= af_index f < Z.of_nat (length (af_fields f)).

(** An input that has never had the focus holds no text. *)
Definition tidy (i : textinput.Model) : Prop :=
  textinput.focus i = false -> textinput.value i = "".

(** The wizards and the settings editor of a session. *)
Definition inputsOf (m : model) : noteWizard * eventWizard * settingsModel :=
  (noteWizard_ m, eventWizard_ m, settings m).

(** The first input of each wizard and the input of the settings editor
    in use have the focus; the inputs of the later stages are tidy. *)
Definition inputsOK (x : noteWizard * eventWizard * settingsModel) : Prop :=
  textinput.focus (nw_contentInput x.1.1) = true
  /\ tidy (nw_associateInput x.1.1)
  /\ textinput.focus (ew_titleInput x.1.2) = true
  /\ tidy (ew_scheduleInput x.1.2)
  /\ tidy (ew_associateInput x.1.2)
  /\ (sm_mode x.2 <> settingsViewing -> textinput.focus (sm_input x.2) = true).

(** A string that does not begin with white space. *)
Definition noLeadingSpace (s : string) : Prop :=
  match s with
  | EmptyString => True
  | String c _ => Ascii.is_space c = false
  end.

(** The turns of [steps] in order, each in its own world. *)
Fixpoint turns (steps : list (World * tea.Msg)) (m : model) : option model :=
  match steps with
  | [] => Some m
  | (w, msg) :: rest =>
      match Update w msg m with
      | Some (m', _) => turns rest m'
      | None => None
      end
  end.

(** The session after "4" and "1": the note wizard, started from the
    create-choice screen. *)
Definition noteSession : model :=
  default session0 (run quietWorld (submit "4" ++ submit "1") session0).

(** [rejection w m m']: in the session [m], the validator of the active
    stage rejects the text submitted with the enter key, and [m'] is the
    session that the rejection leaves: [m] with the error of the stage
    set and, for an answer that is neither yes nor no, with the answer
    erased from its input. *)
Inductive rejection (w : World) (m : model) : model -> Prop :=
  | reject_required_field (f : formField) :
      state m = stateCreateAccount ->
      fieldAt (af_fields (accountForm_ m)) (af_index (accountForm_ m)) = Some f ->
      ff_required f = true ->
      strings.TrimSpace (textinput.Value (af_input (accountForm_ m))) = "" ->
      rejection w m
        (m <| accountForm_ := accountForm_ m <| af_err := "This field is required" |> |>)
  | reject_note_content :
      state m = stateCreateNote ->
      nw_stage (noteWizard_ m) = noteStageContent ->
      strings.TrimSpace (textinput.Value (nw_contentInput (noteWizard_ m))) = "" ->
      rejection w m
        (m <| noteWizard_ := noteWizard_ m <| nw_err := "Note cannot be empty" |> |>)
  | reject_event_title :
      state m = stateCreateEvent ->
      ew_stage (eventWizard_ m) = eventStageTitle ->
      strings.TrimSpace (textinput.Value (ew_titleInput (eventWizard_ m))) = "" ->
      rejection w m
        (m <| eventWizard_ := eventWizard_ m <| ew_err := "Title is required" |> |>)
  | reject_event_schedule (value : string) :
      state m = stateCreateEvent ->
      ew_stage (eventWizard_ m) = eventStageSchedule ->
      strings.TrimSpace (textinput.Value (ew_scheduleInput (eventWizard_ m))) = value ->
      isExitCommand value = false ->
      isBackCommand value = false ->
      value <> "" ->
      w_ParseInLocation w value (config.Location w (cfg m)) = None ->
      rejection w m
        (m <| eventWizard_ := eventWizard_ m <| ew_err := "Use format YYYY-MM-DD HH:MM" |> |>)
  | reject_note_answer (value : string) :
      state m = stateCreateNote ->
      nw_stage (noteWizard_ m) = noteStageAssociatePrompt ->
      strings.ToLower (strings.TrimSpace
        (textinput.Value (nw_associateInput (noteWizard_ m)))) = value ->
      isExitCommand value = false ->
      isBackCommand value = false ->
      value ∉ ["y"; "yes"; "n"; "no"; ""] ->
      rejection w m
        (m <| noteWizard_ :=
                noteWizard_ m
                  <| nw_associateInput :=
                       textinput.SetValue "" (nw_associateInput (noteWizard_ m)) |>
                  <| nw_err := "Please answer y or n" |> |>)
  | reject_event_answer (value : string) :
      state m = stateCreateEvent ->
      ew_stage (eventWizard_ m) = eventStageAssociatePrompt ->
      strings.ToLower (strings.TrimSpace
        (textinput.Value (ew_associateInput (eventWizard_ m)))) = value ->
      isExitCommand value = false ->
      isBackCommand value = false ->
      value ∉ ["y"; "yes"; "n"; "no"; ""] ->
      rejection w m
        (m <| eventWizard_ :=
                eventWizard_ m
                  <| ew_associateInput :=
                       textinput.SetValue "" (ew_associateInput (eventWizard_ m)) |>
                  <| ew_err := "Please answer y or n" |> |>)
  | reject_settings_name :
      state m = stateSettings ->
      sm_mode (settings m) = settingsEditingName ->
      strings.TrimSpace (textinput.Value (sm_input (settings m))) = "" ->
      rejection w m (m <| settings := settings m <| sm_err := "Name cannot be empty" |> |>)
  | reject_settings_timezone_empty :
      state m = stateSettings ->
      sm_mode (settings m) = settingsEditingTimezone ->
      strings.TrimSpace (textinput.Value (sm_input (settings m))) = "" ->
      rejection w m (m <| settings := settings m <| sm_err := "Timezone cannot be empty" |> |>)
  | reject_settings_timezone (value : string) :
      state m = stateSettings ->
      sm_mode (settings m) = settingsEditingTimezone ->
      strings.TrimSpace (textinput.Value (sm_input (settings m))) = value ->
      isExitCommand value = false ->
      isBackCommand value = false ->
      value <> "" ->
      w_LoadLocation w value = None ->
      rejection w m (m <| settings := settings m <| sm_err := "Invalid timezone" |> |>).

(** ** Importing accounts from CSV ([storage.ImportAccountsCSV]) *)

(** The functions of Go's [time] package that the import calls: parsing
    with a layout, in a location ([time.ParseInLocation]) or not
    ([time.Parse]), and the zone [time.Local]. *)
Record TimeLib := {
  tl_ParseInLocation : string -> string -> Location -> option Time;
  tl_Parse : string -> string -> option Time;
  tl_Local : Location
}.

Definition RFC3339Nano : string := "2006-01-02T15:04:05.999999999Z07:00".
Definition RFC3339 : string := "2006-01-02T15:04:05Z07:00".
Definition RFC1123 : string := "Mon, 02 Jan 2006 15:04:05 MST".

(** The loop of [parseImportTime]: the first layout that parses [value]. *)
Fixpoint firstLayout (tl : TimeLib) (layouts : list string) (value : string)
    (loc : Location) : option Time :=
  match layouts with
  | [] => None
  | layout :: rest =>
      match tl_ParseInLocation tl layout value loc with
      | Some t => Some t
      | None => firstLayout tl rest value loc
      end
  end.

(** [parseImportTime]; [None] stands for the result [false]. *)
Definition parseImportTime (tl : TimeLib) (value : string) (loc : Location) : option Time :=
  match firstLayout tl [RFC3339Nano; RFC3339; "2006-01-02 15:04"; "2006-01-02"] value loc with
  | Some t => Some t
  | None =>
      match tl_Parse tl RFC1123 value with
      | Some t => Some (time.In t loc)
      | None => None
      end
  end.

(** The map [index] that the loop over the header fills: the position of
    each column name, lower-cased and trimmed; a later cell replaces an
    earlier one of the same name, a blank cell is skipped. *)
Definition headerIndex (header : list string) : gmap string nat :=
  (foldl (fun '(index, i) h =>
            let key := strings.ToLower (strings.TrimSpace h) in
            (if String.eqb key "" then index else <[ key := i ]> index, S i))
         (∅, 0%nat) header).1.

(** The guarded read of an optional column:
    [if idx, ok := index[key]; ok && idx < len(record)], with the cell
    trimmed. *)
Definition column (index : gmap string nat) (record : list string) (key : string)
    : option string :=
  match index !! key with
  | Some idx => strings.TrimSpace <$> record !! idx
  | None => None
  end.

(** One answer of [reader.Read] after the header: the record or the error
    of the reader, with the world that answers while the row is
    processed (the clock and the SQLite engine). *)
Record csvRead := { cr_world : World; cr_record : list string + error }.

(** The state of the loop of [ImportAccountsCSV]. *)
Record importState := { is_result : ImportResult; is_row : Z; is_store : Store }.

Definition reportRow (st : importState) (row : Z) (skipped : Z) (message : string)
    : importState :=
  {| is_result := {| imp_Created := imp_Created (is_result st);
                     imp_Skipped := imp_Skipped (is_result st) + skipped;
                     imp_Errors := imp_Errors (is_result st) ++ [message] |};
     is_row := row;
     is_store := is_store st |}.

(** One iteration of the loop of [ImportAccountsCSV], for an answer of the
    reader other than [io.EOF].  [errors.Is(err, ErrAccountExists)] is
    the comparison with the sentinel: [CreateAccount] returns the
    sentinel itself, or an error built from an error of the driver, whose
    errors are not the sentinels of the storage package. *)
Definition importRow (tl : TimeLib) (index : gmap string nat) (nameIdx : nat)
    (defaultCreator : string) (locUsed : Location)
    (st : importState) (rd : csvRead) : importState :=
  match cr_record rd with
  | inr err =>
      reportRow st (is_row st) 0 ("row " +:+ itoa (is_row st + 1) +:+ ": " +:+ Error err)
  | inl record =>
      let row := is_row st + 1 in
      match record !! nameIdx with
      | None => reportRow st row 1 ("row " +:+ itoa row +:+ ": missing name field")
      | Some cell =>
          let name := strings.TrimSpace cell in
          if String.eqb name "" then
            reportRow st row 1 ("row " +:+ itoa row +:+ ": account name required")
          else
            let account := emptyAccount <| a_Name := name |> in
            let account := match column index record "phone" with
                           | Some v => account <| a_Phone := v |> | None => account end in
            let account := match column index record "address" with
                           | Some v => account <| a_Address := v |> | None => account end in
            let account := match column index record "email" with
                           | Some v => account <| a_Email := v |> | None => account end in
            let account := match column index record "decision_maker" with
                           | Some v => account <| a_DecisionMaker := v |>
                           | None => account end in
            let creator := match column index record "creator" with
                           | Some val => if String.eqb val "" then defaultCreator else val
                           | None => defaultCreator
                           end in
            let creator := if String.eqb creator "" then "Import" else creator in
            let account := account <| a_Creator := creator |> in
            let account :=
              match column index record "created_at" with
              | Some stamp =>
                  if String.eqb stamp "" then account
                  else match parseImportTime tl stamp locUsed with
                       | Some parsed => account <| a_CreatedAt := parsed |>
                       | None => account
                       end
              | None => account
              end in
            let account :=
              if time.IsZero (a_CreatedAt account)
              then account <| a_CreatedAt :=
                                {| unixNano := w_Now (cr_world rd); location := locUsed |} |>
              else account in
            match storage.CreateAccount (cr_world rd) (is_store st) account with
            | (_, account, Some ErrAccountExists) =>
                reportRow st row 1
                  ("row " +:+ itoa row +:+ ": duplicate account '" +:+ a_Name account +:+ "'")
            | (_, _, Some err) =>
                reportRow st row 1 ("row " +:+ itoa row +:+ ": " +:+ Error err)
            | (store_, _, None) =>
                {| is_result := {| imp_Created := imp_Created (is_result st) + 1;
                                   imp_Skipped := imp_Skipped (is_result st);
                                   imp_Errors := imp_Errors (is_result st) |};
                   is_row := row;
                   is_store := store_ |}
            end
      end
  end.

(** [ImportAccountsCSV]: [header] is the first answer of the reader and
    [reads] are its answers after that, up to the first [io.EOF]; [loc]
    is [None] for a nil location.  The result is the store, the summary
    and the error. *)
Definition ImportAccountsCSV (tl : TimeLib) (s : Store) (header : list string + error)
    (reads : list csvRead) (defaultCreator : string) (loc : option Location)
    : Store * ImportResult * option error :=
  let result := {| imp_Created := 0; imp_Skipped := 0; imp_Errors := [] |} in
  match header with
  | inr err => (s, result, Some (wrap "read header" err))
  | inl header =>
      let index := headerIndex header in
      match index !! "name" with
      | None => (s, result, Some (errorString "csv missing 'name' column"))
      | Some nameIdx =>
          let locUsed := default (tl_Local tl) loc in
          let st := foldl (importRow tl index nameIdx defaultCreator locUsed)
                          {| is_result := result; is_row := 1; is_store := s |} reads in
          (is_store st, is_result st, None)
      end
  end.

(** ** Loading the configuration ([internal/config]) *)

(** The operating system and the libraries that [config.Load] calls:
    the directories and the environment, the file of the configuration,
    the JSON codec and the name of the local time zone. *)
Record Host := {
  h_UserConfigDir : string * option error;
  h_Getenv : string -> string;
  h_GOOS : string;
  h_MkdirAll : string -> option error;
  (** [filepath.Join] of two elements *)
  h_Join : string -> string -> string;
  h_Stat : string -> option error;
  (** [errors.Is(err, os.ErrNotExist)] *)
  h_IsNotExist : error -> bool;
  h_ReadFile : string -> string + error;
  (** [json.Unmarshal] into the zero [Data] *)
  h_Unmarshal : string -> Data + error;
  h_MarshalIndent : Data -> string + error;
  h_WriteFile : string -> string -> option error;
  (** [time.Now().Location().String()] *)
  h_LocalName : string
}.

Module configfile.

(** The text of [fmt.Errorf(prefix + ": %w", err)] for an [err] that may
    be nil. *)
Definition wrapNil (prefix : string) (err : option error) : error :=
  match err with
  | Some e => wrap prefix e
  | None => errorString (prefix +:+ ": %!w(<nil>)")
  end.

Definition resolvePath (h : Host) : string + error :=
  let '(base, err) := h_UserConfigDir h in
  let unresolved := bool_decide (is_Some err) || String.eqb base "" in
  let base := if unresolved then h_Getenv h "HOME" else base in
  if unresolved && String.eqb base "" then
    inr (wrapNil "cannot resolve config directory" err)
  else
    let dir := h_Join h base "crmterm" in
    match h_MkdirAll h dir with
    | Some err => inr (wrap "create config dir" err)
    | None => inl (h_Join h dir "config.json")
    end.

(** [writeConfig]: the error and the files written, as pairs of a path
    and a content. *)
Definition writeConfig (h : Host) (path : string) (cfg : Data)
    : option error * list (string * string) :=
  match h_MarshalIndent h cfg with
  | inr err => (Some (wrap "marshal config" err), [])
  | inl bytes =>
      match h_WriteFile h path bytes with
      | Some err => (Some (wrap "write config" err), [])
      | None => (None, [(path, bytes)])
      end
  end.

Definition defaultName (h : Host) : string :=
  if negb (String.eqb (h_Getenv h "USER") "") then h_Getenv h "USER"
  else if String.eqb (h_GOOS h) "windows" && negb (String.eqb (h_Getenv h "USERNAME") "")
  then h_Getenv h "USERNAME"
  else "CRM User".

Definition defaultTimezone (h : Host) : string :=
  if negb (String.eqb (h_LocalName h) "Local") && negb (String.eqb (h_LocalName h) "")
  then h_LocalName h
  else "UTC".

Definition defaultConfig (h : Host) : Data :=
  {| Name := defaultName h; Timezone := defaultTimezone h |}.

(** [Load]: the store or the error, and the files written.  The path of
    the store is not kept in [ConfigStore]. *)
Definition Load (h : Host) : (ConfigStore + error) * list (string * string) :=
  match resolvePath h with
  | inr err => (inr err, [])
  | inl cfgPath =>
      let loaded : (Data + error) * list (string * string) :=
        match h_Stat h cfgPath with
        | Some err =>
            if negb (h_IsNotExist h err) then (inr (wrap "stat config" err), [])
            else
              let cfg := defaultConfig h in
              match writeConfig h cfgPath cfg with
              | (Some err, written) => (inr err, written)
              | (None, written) => (inl cfg, written)
              end
        | None =>
            match h_ReadFile h cfgPath with
            | inr err => (inr (wrap "read config" err), [])
            | inl bytes =>
                match h_Unmarshal h bytes with
                | inr err => (inr (wrap "parse config" err), [])
                | inl cfg => (inl cfg, [])
                end
            end
        end in
      match loaded with
      | (inr err, written) => (inr err, written)
      | (inl cfg, written) =>
          let cfg := if String.eqb (Timezone cfg) ""
                     then cfg <| Timezone := defaultTimezone h |> else cfg in
          let cfg := if String.eqb (Name cfg) ""
                     then cfg <| Name := defaultName h |> else cfg in
          (inl {| Config := cfg |}, written)
      end
  end.

End configfile.

(** ** Predicates of the further statements *)

(** The persistent part of a session: the statements executed on the
    database and the configuration. *)
Definition persistOf (m : model) : Store * ConfigStore := (store m, cfg m).

(** [writesOne enter p p']: from [p] to [p'] the configuration is kept,
    and the log of statements is kept or, when [enter] holds, extended by
    one statement. *)
Definition writesOne (enter : bool) (p p' : Store * ConfigStore) : Prop :=
  p'.2 = p.2
  /\ (p'.1 = p.1 \/ (enter = true /\ exists q, executed p'.1 = executed p.1 ++ [q])).

(** [writesMany enter p p']: as [writesOne], with any number of
    statements. *)
Definition writesMany (enter : bool) (p p' : Store * ConfigStore) : Prop :=
  p'.2 = p.2
  /\ (p'.1 = p.1 \/ (enter = true /\ exists new, executed p'.1 = executed p.1 ++ new)).

(** [configures w enter p p']: from [p] to [p'] the log of statements is
    kept, and the configuration is kept or, when [enter] holds, given a
    name that is not empty or a time zone that the world [w] loads. *)
Definition configures (w : World) (enter : bool) (p p' : Store * ConfigStore) : Prop :=
  p'.1 = p.1
  /\ (p'.2 = p.2
      \/ (enter = true
          /\ ((exists v, v <> "" /\ p'.2 = p.2 <| Config := Config p.2 <| Name := v |> |>)
              \/ (exists v, is_Some (w_LoadLocation w v)
                    /\ p'.2 = p.2 <| Config := Config p.2 <| Timezone := v |> |>)))).

(** What a turn on the view [v] may do to the persistent part. *)
Definition persistStep (w : World) (v : viewState) (enter : bool)
    (p p' : Store * ConfigStore) : Prop :=
  match v with
  | stateMainMenu | stateDashboard | stateAccountDetail | stateCreateChoice => p' = p
  | stateAccounts => writesMany enter p p'
  | stateCreateAccount | stateCreateNote | stateCreateEvent => writesOne enter p p'
  | stateSettings | stateSettingsEditName | stateSettingsEditTimezone =>
      configures w enter p p'
  end.

(** The navigation after a message that is not the enter key, on each
    screen: the escape key pops on the accounts list, the account detail
    and the account form; nothing else moves. *)
Definition afterKey (msg : tea.Msg) (m : model) : viewState * list viewState :=
  match msg, state m with
  | tea.KeyMsg tea.KeyEsc, (stateAccounts | stateAccountDetail | stateCreateAccount) =>
      popNav (navOf m)
  | _, _ => navOf m
  end.

(** The answers of the reader that are records. *)
Definition isRecord (rd : csvRead) : bool :=
  match cr_record rd with inl _ => true | inr _ => false end.

(** An [INSERT] into the accounts table whose name is trimmed and not
    empty and whose creator is not empty. *)
Definition namedInsert (q : Stmt) : Prop :=
  match q with
  | InsertAccount name _ _ _ _ creator _ =>
      name <> "" /\ strings.TrimSpace name = name /\ creator <> ""
  | _ => False
  end.

(** [storedAs raw v]: the value [v] bound to an optional text column is
    what [nullString] makes of the field [raw]: NULL for a blank field,
    the trimmed text otherwise. *)
Definition storedAs (raw : string) (v : option string) : Prop :=
  match v with
  | None => strings.TrimSpace raw = ""
  | Some text => text = strings.TrimSpace raw /\ text <> ""
  end.

(** ** Further sample data *)

(** The session after "3": the form of a new account. *)
Definition formSession : model :=
  default session0 (run quietWorld (submit "3") session0).

(** The session after "2", "1", "2" and the text "Call back": the note
    wizard opened from the detail screen of the first account, with the
    text typed. *)
Definition presetNoteSession : model :=
  default session0
    (run quietWorld
       (submit "2" ++ submit "1" ++ submit "2" ++ [tea.KeyMsg (tea.KeyRunes "Call back")])
       session0).

(** The session after "2", "1", "3", "Demo" and an empty line of details:
    the event wizard opened from the detail screen of the first account,
    at its schedule stage. *)
Definition presetEventSession : model :=
  default session0
    (run quietWorld
       (submit "2" ++ submit "1" ++ submit "3" ++ submit "Demo" ++ submit "")
       session0).

(** The session after "5", "1" and the letter x: the name editor of the
    settings screen with the text typed after the current name. *)
Definition nameSession : model :=
  default session0
    (run quietWorld (submit "5" ++ submit "1" ++ [tea.KeyMsg (tea.KeyRunes "x")]) session0).

(** The note wizard of [noteSession] with "exit." typed. *)
Definition exitSession : model :=
  default session0 (run quietWorld [tea.KeyMsg (tea.KeyRunes "exit.")] noteSession).

(** A world that refuses every statement with the error "disk I/O error". *)
Definition brokenWorld : World :=
  sampleWorld (fun _ => ExecErr (errorString "disk I/O error")).

(** A sample import: a library that parses no time, and a file with the
    header [Name, Phone] whose reader delivers a record that is
    inserted, a record that the database refuses as a duplicate, an error
    and a record with a blank name. *)
Definition sampleTimeLib : TimeLib :=
  {| tl_ParseInLocation := fun _ _ _ => None; tl_Parse := fun _ _ => None; tl_Local := UTC |}.

Definition sampleReads : list csvRead := [
  {| cr_world := quietWorld; cr_record := inl ["Initech"; " 555 0100 "] |};
  {| cr_world := duplicateWorld; cr_record := inl ["Acme"] |};
  {| cr_world := quietWorld; cr_record := inr (errorString "bare quote in field") |};
  {| cr_world := quietWorld; cr_record := inl ["  "; "555 0199"] |}
].

Definition sampleImport : Store * ImportResult * option error :=
  ImportAccountsCSV sampleTimeLib {| executed := [] |} (inl ["Name"; "Phone"])
    sampleReads "sam" None.

(** A host without a configuration file: the environment names the home
    directory only, and the file system accepts every write. *)
Definition freshHost : Host := {|
  h_UserConfigDir := ("/home/sam/.config", None);
  h_Getenv := fun name => if String.eqb name "HOME" then "/home/sam" else "";
  h_GOOS := "linux";
  h_MkdirAll := fun _ => None;
  h_Join := fun a b => a +:+ "/" +:+ b;
  h_Stat := fun _ => Some (errorString "no such file or directory");
  h_IsNotExist := fun _ => true;
  h_ReadFile := fun _ => inr (errorString "no such file or directory");
  h_Unmarshal := fun _ => inr (errorString "unexpected end of JSON input");
  h_MarshalIndent := fun cfg =>
    inl ("{ name: " +:+ Name cfg +:+ ", timezone: " +:+ Timezone cfg +:+ " }");
  h_WriteFile := fun _ _ => None;
  h_LocalName := "Local"
|}.

(* ===================================================================== *)
(** * Part II: properties *)
(* ===================================================================== *)

(** ** Navigation stack *)

Lemma last_snoc_view (l : list viewState) (x : viewState) : last (l ++ [x]) = Some x.
Proof. induction l as [|y [|z l] IH]; simpl in *; auto. Qed.

Lemma removelast_snoc_view (l : list viewState) (x : viewState) : removelast (l ++ [x]) = l.
Proof.
  induction l as [|y l IH]; simpl; auto.
  destruct (l ++ [x]) eqn:E.
  - destruct l; discriminate.
  - rewrite IH. reflexivity.
Qed.

(** C10: [popState] undoes [pushState].  For every session state [m] and
    every view [v], pushing [v] and popping at once gives back the active
    view and the navigation stack of [m]; no other field changes, so the
    whole model is restored. *)
Theorem C10_pop_after_push (m : model) (v : viewState) :
  state (popState (pushState v m)) = state m
  /\ prevStates (popState (pushState v m)) = prevStates m
  /\ popState (pushState v m) = m.
Proof.
  assert (E : popState (pushState v m) = m).
  { unfold popState, pushState; simpl.
    rewrite last_snoc_view, removelast_snoc_view.
    destruct m; reflexivity. }
  rewrite E. auto.
Qed.

(** ** Command resolver *)

Lemma existsb_elem_of {A : Type} (f : A -> bool) (l : list A) :
  existsb f l = true <-> exists x, x ∈ l /\ f x = true.
Proof.
  rewrite existsb_exists. split; intros [x [H1 H2]]; exists x; split; auto;
    apply list_elem_of_In; auto.
Qed.

(** The exact phase does not look at keywords: when an option declares
    [value] as a synonym and no option before it does, its identifier is
    the answer. *)
Lemma directMatch_first (before : list menuOption) (o : menuOption)
    (after : list menuOption) (value : string) :
  (forall o', o' ∈ before -> value ∉ mo_synonyms o') ->
  value ∈ mo_synonyms o ->
  directMatch (before ++ o :: after) value = Some (mo_id o).
Proof.
  intros Hbefore Hin. induction before as [|o' before IH]; simpl.
  - assert (E : existsb (fun syn => String.eqb value syn) (mo_synonyms o) = true).
    { apply existsb_elem_of. exists value. split; auto. apply String.eqb_refl. }
    rewrite E. reflexivity.
  - destruct (existsb (fun syn => String.eqb value syn) (mo_synonyms o')) eqn:E.
    + apply existsb_elem_of in E as [s [Hs Heq]].
      apply String.eqb_eq in Heq. subst s.
      exfalso. apply (Hbefore o'); [left | assumption].
    + apply IH. intros o'' Ho''. apply Hbefore. right. assumption.
Qed.

Lemma directMatch_None (options : list menuOption) (value : string) :
  (forall o s, o ∈ options -> s ∈ mo_synonyms o -> value <> s) ->
  directMatch options value = None.
Proof.
  induction options as [|o options IH]; intros H; simpl; auto.
  destruct (existsb (fun syn => String.eqb value syn) (mo_synonyms o)) eqn:E.
  - apply existsb_elem_of in E as [s [Hs Heq]]. apply String.eqb_eq in Heq.
    exfalso. apply (H o s); [left | assumption | assumption].
  - apply IH. intros o' s Ho'. apply H. right. assumption.
Qed.

(** When the exact phase answers, the resolver returns its answer. *)
Lemma resolveSelection_direct (options : list menuOption) (input id : string) :
  strings.TrimSpace (strings.ToLower input) <> "" ->
  directMatch options (strings.TrimSpace (strings.ToLower input)) = Some id ->
  resolveSelection options input = Some id.
Proof.
  intros Hne Hd. unfold resolveSelection.
  destruct (String.eqb_spec (strings.TrimSpace (strings.ToLower input)) "") as [E|_].
  - contradiction.
  - rewrite Hd. reflexivity.
Qed.

Ltac each_member H :=
  repeat (apply elem_of_cons in H as [->|H]);
  try (apply elem_of_nil in H; contradiction).

(** C1: a declared synonym resolves to its option.  For every input whose
    trimmed, lower-cased form equals a synonym declared by an option of
    the main-menu table (of the account-detail table), the main-menu
    resolver (the account-detail resolver) returns the identifier of that
    option.  The keywords play no part: the equality with the synonyms is
    decided before the prefix phase runs. *)
Theorem C1_synonym_resolves (input : string) (o : menuOption) (s : string) :
  s ∈ mo_synonyms o ->
  strings.TrimSpace (strings.ToLower input) = s ->
  (o ∈ mainMenuOptions -> resolveMainMenuSelection input = Some (mo_id o))
  /\ (o ∈ accountDetailOptions -> resolveAccountDetailAction input = Some (mo_id o)).
Proof.
  intros Hs Hin. split; intros Ho.
  - unfold resolveMainMenuSelection, mainMenuOptions in *.
    each_member Ho; simpl in Hs; each_member Hs;
      (apply resolveSelection_direct; rewrite Hin; [discriminate | reflexivity]).
  - unfold resolveAccountDetailAction, accountDetailOptions in *.
    each_member Ho; simpl in Hs; each_member Hs;
      (apply resolveSelection_direct; rewrite Hin; [discriminate | reflexivity]).
Qed.

Lemma C1_synonym_resolves_witness :
  resolveMainMenuSelection "  DASH " = Some "dashboard"
  /\ resolveAccountDetailAction " Exit." = Some "back".
Proof.
  split.
  - apply (C1_synonym_resolves "  DASH "
             {| mo_id := menuDashboard; mo_keywords := ["dashboard"];
                mo_synonyms := ["1"; "d"; "dash"; "dashboard"] |} "dash").
    + vm_compute. do 2 right. left.
    + reflexivity.
    + left.
  - apply (C1_synonym_resolves " Exit."
             {| mo_id := accountActionBack; mo_keywords := ["back"; "close"];
                mo_synonyms := ["5"; "back"; "exit"; "exit."; "/"] |} "exit.").
    + do 3 right. left.
    + reflexivity.
    + do 4 right. left.
Defined.

Lemma prefixMatches_fold (value id : string) (options : list menuOption) (acc : gset string) :
  id ∈ foldl (fun matches option =>
                if existsb (fun keyword => strings.HasPrefix keyword value) (mo_keywords option)
                then {[ mo_id option ]} ∪ matches
                else matches) acc options
  <-> id ∈ acc \/ candidate options value id.
Proof.
  revert acc. induction options as [|o options IH]; intros acc; simpl.
  - split; [auto|]. intros [H|[o [Ho _]]]; auto. apply elem_of_nil in Ho. contradiction.
  - rewrite IH. clear IH.
    destruct (existsb (fun keyword => strings.HasPrefix keyword value) (mo_keywords o)) eqn:E.
    + apply existsb_elem_of in E as [kw [Hkw Hp]].
      split.
      * intros [H|[o' [Ho' H]]].
        -- apply elem_of_union in H as [H|H]; auto.
           apply elem_of_singleton in H. right. exists o. split; [left|]. eauto.
        -- right. exists o'. split; [right; auto | auto].
      * intros [H|[o' [Ho' [Hid Hk]]]].
        -- left. apply elem_of_union. auto.
        -- apply elem_of_cons in Ho' as [->|Ho'].
           ++ left. apply elem_of_union. left. apply elem_of_singleton. auto.
           ++ right. exists o'. eauto.
    + split.
      * intros [H|[o' [Ho' H]]]; auto. right. exists o'. split; [right; auto|auto].
      * intros [H|[o' [Ho' [Hid [kw [Hkw Hp]]]]]]; auto.
        apply elem_of_cons in Ho' as [->|Ho'].
        -- assert (existsb (fun keyword => strings.HasPrefix keyword value) (mo_keywords o) = true)
             by (apply existsb_elem_of; eauto).
           congruence.
        -- right. exists o'. eauto.
Qed.

Lemma prefixMatches_candidate (options : list menuOption) (value id : string) :
  id ∈ prefixMatches options value <-> candidate options value id.
Proof.
  unfold prefixMatches. rewrite prefixMatches_fold. split; auto.
  intros [H|H]; auto. apply not_elem_of_empty in H. contradiction.
Qed.

(** C2: the prefix phase.  Let the trimmed, lower-cased input be non-empty
    and equal to no synonym of the table.  If the options that have a
    keyword starting with it all bear one identifier [id] (and there is
    one), the resolver returns [id]; if no option has such a keyword, or
    two options with different identifiers have, the resolver fails.
    Several matching keywords of one option count once.  The statement
    holds for every table, hence for the main-menu and the account-detail
    resolvers. *)
Theorem C2_prefix_phase (options : list menuOption) (input : string) :
  let value := strings.TrimSpace (strings.ToLower input) in
  value <> "" ->
  (forall o s, o ∈ options -> s ∈ mo_synonyms o -> value <> s) ->
  (forall id, candidate options value id ->
              (forall id', candidate options value id' -> id' = id) ->
              resolveSelection options input = Some id)
  /\ ((forall id, ~ candidate options value id) -> resolveSelection options input = None)
  /\ (forall id1 id2, candidate options value id1 -> candidate options value id2 ->
                      id1 <> id2 -> resolveSelection options input = None).
Proof.
  intros value Hne Hsyn.
  assert (Hres : resolveSelection options input =
                 if decide (size (prefixMatches options value) = 1%nat)
                 then head (elements (prefixMatches options value)) else None).
  { unfold resolveSelection. fold value.
    destruct (String.eqb_spec value "") as [E|_]; [contradiction|].
    rewrite (directMatch_None options value Hsyn). reflexivity. }
  rewrite Hres. clear Hres. repeat split.
  - intros id Hc Huniq.
    assert (E : prefixMatches options value = {[ id ]}).
    { apply set_eq. intros x. rewrite prefixMatches_candidate, elem_of_singleton.
      split; [apply Huniq | intros ->; exact Hc]. }
    rewrite E, size_singleton, elements_singleton. reflexivity.
  - intros Hnone.
    assert (E : prefixMatches options value = ∅).
    { apply set_eq. intros x. rewrite prefixMatches_candidate.
      split; [intros H; destruct (Hnone x H) | intros H; apply not_elem_of_empty in H; contradiction]. }
    rewrite E, size_empty. reflexivity.
  - intros id1 id2 H1 H2 Hd.
    destruct (decide (size (prefixMatches options value) = 1%nat)) as [Hsize|]; [|reflexivity].
    exfalso. apply size_1_elem_of in Hsize as [x Hx].
    apply prefixMatches_candidate in H1, H2.
    rewrite Hx in H1, H2. apply elem_of_singleton in H1, H2. congruence.
Qed.

Lemma C2_prefix_phase_witness :
  resolveMainMenuSelection "Set" = Some "settings"
  /\ resolveMainMenuSelection "zz" = None
  /\ resolveMainMenuSelection "e" = None.
Proof.
  assert (Hsyn : forall value, value = "set" \/ value = "zz" \/ value = "e" ->
            forall o s, o ∈ mainMenuOptions -> s ∈ mo_synonyms o -> value <> s).
  { intros value Hv o s Ho Hs. unfold mainMenuOptions in Ho.
    each_member Ho; simpl in Hs; each_member Hs;
      destruct Hv as [->|[->| ->]]; discriminate. }
  assert (Hkw : forall value id, candidate mainMenuOptions value id ->
            exists o, o ∈ mainMenuOptions /\ mo_id o = id /\
              existsb (fun keyword => strings.HasPrefix keyword value) (mo_keywords o) = true).
  { intros value id [o [Ho [Hid Hk]]]. exists o. repeat split; auto.
    apply existsb_elem_of. exact Hk. }
  split; [|split].
  - apply (proj1 (C2_prefix_phase mainMenuOptions "Set" ltac:(discriminate)
                    (Hsyn "set" ltac:(auto)))).
    + exists {| mo_id := menuSettings; mo_keywords := ["settings"; "help"];
                mo_synonyms := ["5"; "settings"; "help"; "settings & help"] |}.
      split; [do 4 right; left|]. split; [reflexivity|].
      exists "settings". split; [left | reflexivity].
    + intros id' Hc. apply Hkw in Hc as [o [Ho [Hid He]]].
      unfold mainMenuOptions in Ho. each_member Ho; vm_compute in He; try discriminate He.
      rewrite <- Hid. reflexivity.
  - apply (proj1 (proj2 (C2_prefix_phase mainMenuOptions "zz" ltac:(discriminate)
                    (Hsyn "zz" ltac:(auto))))).
    intros id Hc. apply Hkw in Hc as [o [Ho [Hid He]]].
    unfold mainMenuOptions in Ho. each_member Ho; vm_compute in He; discriminate He.
  - apply (proj2 (proj2 (C2_prefix_phase mainMenuOptions "e" ltac:(discriminate)
                    (Hsyn "e" ltac:(auto)))) "create" "quit").
    + exists {| mo_id := menuCreate; mo_keywords := ["create"; "note"; "event"];
                mo_synonyms := ["4"; "create"; "note"; "event"; "create note"; "create event"] |}.
      split; [do 3 right; left|]. split; [reflexivity|].
      exists "event". split; [do 2 right; left | reflexivity].
    + exists {| mo_id := menuQuit; mo_keywords := ["quit"; "exit"];
                mo_synonyms := ["6"; "quit"; "exit"; "exit."; "q"] |}.
      split; [do 5 right; left|]. split; [reflexivity|].
      exists "exit". split; [right; left | reflexivity].
    + discriminate.
Defined.

(** ** Account selection resolver *)

(** The claim C3 as stated fails: with the filtered list "Acme",
    "Acme Corp" (both in the full list), the input "acme" does not fail;
    it selects the account named "Acme", because the scan for an equal
    name folds case and runs before the prefix scan. *)
Lemma C3_lowercase_name_selects :
  map a_Name (filteredAccounts session0) = ["Acme"; "Acme Corp"]
  /\ accounts session0 = filteredAccounts session0
  /\ resolveAccountSelection session0 "acme" = Some acme
  /\ resolveAccountSelection session0 "acme" <> None.
Proof. vm_compute. repeat split; discriminate. Qed.

(** A text that begins with the letter a, in either case, is no number. *)
Lemma Atoi_letter_a (c : ascii) (rest : string) :
  strings.lowerByte c = "a"%char -> strconv.Atoi (String c rest) = None.
Proof.
  intros Hc.
  destruct c as [[] [] [] [] [] [] [] []]; vm_compute in Hc; try discriminate Hc;
    reflexivity.
Qed.

(** C3, amended: with the filtered list exactly [a; b], named "Acme" and
    "Acme Corp", the inputs "Acme" and "acme" both select [a], whatever the
    full list holds: a name equal to the query up to case is looked for
    before any prefix is.  When the full list holds the same two
    accounts, every input whose trimmed text equals neither name up to
    case and begins both names up to case, such as "ac", selects
    nothing. *)
Theorem C3_exact_name_before_prefix (m : model) (a b : Account) :
  a_Name a = "Acme" ->
  a_Name b = "Acme Corp" ->
  filteredAccounts m = [a; b] ->
  resolveAccountSelection m "Acme" = Some a
  /\ resolveAccountSelection m "acme" = Some a
  /\ (accounts m = [a; b] ->
      forall input,
        strings.EqualFold (a_Name a) (strings.TrimSpace input) = false ->
        strings.EqualFold (a_Name b) (strings.TrimSpace input) = false ->
        strings.HasPrefix (strings.ToLower (a_Name a))
          (strings.ToLower (strings.TrimSpace input)) = true ->
        strings.HasPrefix (strings.ToLower (a_Name b))
          (strings.ToLower (strings.TrimSpace input)) = true ->
        resolveAccountSelection m input = None).
Proof.
  intros Ha Hb Hf.
  split; [|split].
  - destruct m; destruct a, b; simpl in Ha, Hb, Hf; subst.
    unfold resolveAccountSelection. cbn [filteredAccounts accounts length Nat.eqb].
    rewrite andb_false_r. vm_compute. reflexivity.
  - destruct m; destruct a, b; simpl in Ha, Hb, Hf; subst.
    unfold resolveAccountSelection. cbn [filteredAccounts accounts length Nat.eqb].
    rewrite andb_false_r. vm_compute. reflexivity.
  - intros Hacc input Ea Eb Pa Pb.
    unfold resolveAccountSelection. rewrite Hf, Hacc. cbn [length Nat.eqb andb].
    cbv zeta.
    destruct (strings.TrimSpace input) as [|c rest] eqn:Et; [reflexivity|].
    cbn [String.eqb].
    assert (Hc : strings.lowerByte c = "a"%char).
    { rewrite Ha in Pa. unfold strings.HasPrefix in Pa. simpl in Pa.
      destruct (Ascii.ascii_dec (strings.lowerByte c) (strings.lowerByte "A")) as [E|E];
        [exact E | discriminate Pa]. }
    assert (Hquery :
              (if strings.HasPrefix (strings.ToLower (String c rest)) "open "
               then strings.TrimSpace (strings.sliceFrom 5 (String c rest))
               else if strings.HasPrefix (strings.ToLower (String c rest)) "view "
               then strings.TrimSpace (strings.sliceFrom 5 (String c rest))
               else if strings.HasPrefix (strings.ToLower (String c rest)) "select "
               then strings.TrimSpace (strings.sliceFrom 7 (String c rest))
               else if strings.HasPrefix (strings.ToLower (String c rest)) "#"
               then strings.TrimSpace (strings.sliceFrom 1 (String c rest))
               else String c rest) = String c rest).
    { unfold strings.HasPrefix. cbn [strings.ToLower]. rewrite Hc. reflexivity. }
    rewrite Hquery, (Atoi_letter_a c rest Hc).
    cbn [app List.find]. rewrite Ea, Eb.
    unfold prefixScan. cbn [foldl]. rewrite Pa, Pb. reflexivity.
Qed.

Lemma C3_exact_name_before_prefix_witness :
  resolveAccountSelection session0 "Acme" = Some acme
  /\ resolveAccountSelection session0 "acme" = Some acme
  /\ resolveAccountSelection session0 "ac" = None.
Proof.
  destruct (C3_exact_name_before_prefix session0 acme acmeCorp
              eq_refl eq_refl eq_refl) as [H1 [H2 H3]].
  split; [exact H1 | split; [exact H2|]].
  exact (H3 eq_refl "ac" eq_refl eq_refl eq_refl eq_refl).
Defined.

(** ** Event classifier *)

Section SliceSorted.

Context {A : Type} (less : A -> A -> bool) (R : A -> A -> Prop).
Hypothesis R_trans : forall a b c, R a b -> R b c -> R a c.
Hypothesis less_R : forall a b, less a b = true -> R a b.
Hypothesis not_less_R : forall a b, less a b = false -> R b a.





End SliceSorted.












(** ** Navigation effect of the handlers *)

Ltac nav_simpl :=
  cbn [navOf pushNav popNav fst snd state prevStates setter
       set_state set_prevStates set_store set_cfg set_width set_height
       set_infoMessage set_errMessage set_showSplash set_menuInput set_accounts
       set_accountFilter set_filteredAccounts set_accountForm_ set_noteWizard_
       set_eventWizard_ set_dashboard set_settings set_accountDetail] in *.

Lemma navOf_set_store v (m : model) : navOf (set_store v m) = navOf m.
Proof. reflexivity. Qed.
Lemma navOf_set_cfg v (m : model) : navOf (set_cfg v m) = navOf m.
Proof. reflexivity. Qed.
Lemma navOf_set_width v (m : model) : navOf (set_width v m) = navOf m.
Proof. reflexivity. Qed.
Lemma navOf_set_height v (m : model) : navOf (set_height v m) = navOf m.
Proof. reflexivity. Qed.
Lemma navOf_set_infoMessage v (m : model) : navOf (set_infoMessage v m) = navOf m.
Proof. reflexivity. Qed.
Lemma navOf_set_errMessage v (m : model) : navOf (set_errMessage v m) = navOf m.
Proof. reflexivity. Qed.
Lemma navOf_set_showSplash v (m : model) : navOf (set_showSplash v m) = navOf m.
Proof. reflexivity. Qed.
Lemma navOf_set_menuInput v (m : model) : navOf (set_menuInput v m) = navOf m.
Proof. reflexivity. Qed.
Lemma navOf_set_accounts v (m : model) : navOf (set_accounts v m) = navOf m.
Proof. reflexivity. Qed.
Lemma navOf_set_accountFilter v (m : model) : navOf (set_accountFilter v m) = navOf m.
Proof. reflexivity. Qed.
Lemma navOf_set_filteredAccounts v (m : model) : navOf (set_filteredAccounts v m) = navOf m.
Proof. reflexivity. Qed.
Lemma navOf_set_accountForm_ v (m : model) : navOf (set_accountForm_ v m) = navOf m.
Proof. reflexivity. Qed.
Lemma navOf_set_noteWizard_ v (m : model) : navOf (set_noteWizard_ v m) = navOf m.
Proof. reflexivity. Qed.
Lemma navOf_set_eventWizard_ v (m : model) : navOf (set_eventWizard_ v m) = navOf m.
Proof. reflexivity. Qed.
Lemma navOf_set_dashboard v (m : model) : navOf (set_dashboard v m) = navOf m.
Proof. reflexivity. Qed.
Lemma navOf_set_settings v (m : model) : navOf (set_settings v m) = navOf m.
Proof. reflexivity. Qed.
Lemma navOf_set_accountDetail v (m : model) : navOf (set_accountDetail v m) = navOf m.
Proof. reflexivity. Qed.
Lemma navOf_set_state v (m : model) : navOf (set_state v m) = (v, prevStates m).
Proof. reflexivity. Qed.
Lemma navOf_set_prevStates v (m : model) : navOf (set_prevStates v m) = (state m, v).
Proof. reflexivity. Qed.

Create Rewrite HintDb nav.
#[local] Hint Rewrite navOf_set_store navOf_set_cfg navOf_set_width navOf_set_height navOf_set_infoMessage navOf_set_errMessage navOf_set_showSplash navOf_set_menuInput navOf_set_accounts navOf_set_accountFilter navOf_set_filteredAccounts navOf_set_accountForm_ navOf_set_noteWizard_ navOf_set_eventWizard_ navOf_set_dashboard navOf_set_settings navOf_set_accountDetail navOf_set_state navOf_set_prevStates : nav.

Lemma navOf_pushState (v : viewState) (m : model) :
  navOf (pushState v m) = pushNav v (navOf m).
Proof. reflexivity. Qed.

Lemma navOf_popState (m : model) : navOf (popState m) = popNav (navOf m).
Proof. unfold popState, popNav. nav_simpl. destruct (last (prevStates m)); reflexivity. Qed.

Lemma navOf_setMenuInput (p : string) (l : Z) (m : model) :
  navOf (setMenuInput p l m) = navOf m.
Proof. reflexivity. Qed.

Lemma navOf_ensureMenuInput (p : string) (l : Z) (m : model) :
  navOf (ensureMenuInput p l m) = navOf m.
Proof. unfold ensureMenuInput. repeat case_match; reflexivity. Qed.

Lemma navOf_resetMessages (m : model) : navOf (resetMessages m) = navOf m.
Proof. reflexivity. Qed.

Lemma navOf_refreshAccountDetailAccount (w : World) (m : model) :
  navOf (refreshAccountDetailAccount w m) = navOf m.
Proof. unfold refreshAccountDetailAccount. repeat case_match; reflexivity. Qed.

Lemma navOf_loadAccountActivity (w : World) (m : model) :
  navOf (loadAccountActivity w m) = navOf m.
Proof. unfold loadAccountActivity. repeat case_match; reflexivity. Qed.

Lemma navOf_refreshAccounts (w : World) (m : model) : navOf (refreshAccounts w m) = navOf m.
Proof. unfold refreshAccounts. repeat case_match; reflexivity. Qed.

Lemma navOf_refreshDashboard (w : World) (now : Time) (m : model) :
  navOf (refreshDashboard w now m) = navOf m.
Proof. unfold refreshDashboard. repeat case_match; reflexivity. Qed.

Lemma navOf_applyAccountFilter (w : World) (m : model) :
  navOf (applyAccountFilter w m) = navOf m.
Proof. unfold applyAccountFilter. repeat case_match; reflexivity. Qed.

Lemma navOf_handleAccountImport (w : World) (path : string) (m : model) :
  navOf (handleAccountImport w path m) = navOf m.
Proof. unfold handleAccountImport. repeat case_match; reflexivity. Qed.

Lemma navOf_openAccountDetail (w : World) (a : Account) (m : model) :
  navOf (openAccountDetail w a m) = pushNav stateAccountDetail (navOf m).
Proof.
  unfold openAccountDetail.
  rewrite navOf_setMenuInput, navOf_pushState, navOf_refreshAccountDetailAccount.
  reflexivity.
Qed.

Lemma navOf_exitToMainMenu (m : model) : navOf (exitToMainMenu m) = (stateMainMenu, []).
Proof. reflexivity. Qed.

Lemma navOf_focusAfterForm (m : model) : navOf (focusAfterForm m) = navOf m.
Proof. unfold focusAfterForm. repeat case_match; reflexivity. Qed.

Lemma navOf_cancelAccountForm (m : model) : navOf (cancelAccountForm m) = popNav (navOf m).
Proof.
  unfold cancelAccountForm. rewrite navOf_focusAfterForm, navOf_popState.
  case_match; reflexivity.
Qed.

Lemma navOf_saveNote (w : World) (a : option NullInt64) (m : model) :
  navOf (saveNote w a m).1 = navOf m.
Proof. unfold saveNote. case_match. reflexivity. Qed.

Lemma navOf_saveEvent (w : World) (a : option NullInt64) (m : model) :
  navOf (saveEvent w a m).1 = navOf m.
Proof. unfold saveEvent. repeat case_match; reflexivity. Qed.

Lemma navOf_completeNoteSave (w : World) (msg : string) (m : model) :
  navOf (completeNoteSave w msg m) = popNav (navOf m).
Proof.
  unfold completeNoteSave. rewrite navOf_refreshDashboard.
  repeat case_match;
    rewrite ?navOf_loadAccountActivity, ?navOf_refreshAccountDetailAccount,
            ?navOf_setMenuInput, navOf_popState; reflexivity.
Qed.

Lemma navOf_completeEventSave (w : World) (msg : string) (m : model) :
  navOf (completeEventSave w msg m) = popNav (navOf m).
Proof.
  unfold completeEventSave. rewrite navOf_refreshDashboard.
  repeat case_match;
    rewrite ?navOf_loadAccountActivity, ?navOf_refreshAccountDetailAccount,
            ?navOf_setMenuInput, navOf_popState; reflexivity.
Qed.

#[local] Hint Rewrite navOf_pushState navOf_popState navOf_setMenuInput navOf_ensureMenuInput
  navOf_resetMessages navOf_refreshAccountDetailAccount navOf_loadAccountActivity
  navOf_refreshAccounts navOf_refreshDashboard navOf_applyAccountFilter
  navOf_handleAccountImport navOf_openAccountDetail navOf_exitToMainMenu
  navOf_focusAfterForm navOf_cancelAccountForm navOf_completeNoteSave
  navOf_completeEventSave : nav.

Ltac solve_elem :=
  repeat first [apply list_elem_of_here | apply list_elem_of_further].

Ltac nav_saved :=
  repeat match goal with
  | H : saveNote ?w ?a ?m = (?m1, _) |- _ =>
      let Hn := fresh "Hn" in
      pose proof (navOf_saveNote w a m) as Hn; rewrite H in Hn; simpl fst in Hn;
      clear H
  | H : saveEvent ?w ?a ?m = (?m1, _) |- _ =>
      let Hn := fresh "Hn" in
      pose proof (navOf_saveEvent w a m) as Hn; rewrite H in Hn; simpl fst in Hn;
      clear H
  end.

Ltac nav_leaf :=
  nav_saved; unfold setter in *; autorewrite with nav in *;
  unfold navOf, pushNav, popNav in *; nav_simpl;
  repeat match goal with
  | H : (state _, prevStates _) = (state _, prevStates _) |- _ => injection H as ? ?
  end;
  repeat match goal with
  | H : state _ = state _ |- _ => rewrite ?H; clear H
  | H : prevStates _ = prevStates _ |- _ => rewrite ?H; clear H
  end;
  first [assumption | solve_elem].

Lemma updateMainMenu_nav (w : World) (msg : tea.Msg) (m : model) :
  navOf (updateMainMenu w msg m).1 ∈
    [navOf m; pushNav stateDashboard (navOf m); pushNav stateAccounts (navOf m);
     pushNav stateCreateAccount (navOf m); pushNav stateCreateChoice (navOf m);
     pushNav stateSettings (navOf m)].
Proof.
  unfold updateMainMenu. cbv zeta.
  pose proof (navOf_ensureMenuInput "Choose an option" 32 m) as He.
  set (m1 := ensureMenuInput "Choose an option" 32 m) in *. clearbody m1.
  repeat case_match; simpl fst; nav_leaf.
Qed.

Lemma updateAccounts_nav (w : World) (msg : tea.Msg) (m : model) :
  navOf (updateAccounts w msg m) ∈
    [navOf m; (stateMainMenu, []); popNav (navOf m); pushNav stateAccountDetail (navOf m)].
Proof.
  unfold updateAccounts. cbv zeta.
  repeat case_match; nav_leaf.
Qed.

Lemma updateAccountDetail_nav (w : World) (msg : tea.Msg) (m : model) :
  navOf (updateAccountDetail w msg m) ∈
    [navOf m; popNav (navOf m); pushNav stateCreateNote (navOf m);
     pushNav stateCreateEvent (navOf m); pushNav stateCreateAccount (navOf m)].
Proof.
  unfold updateAccountDetail. cbv zeta.
  pose proof (navOf_ensureMenuInput
                "1=Activity  2=Add note  3=Add event  4=Edit  5=Back" 64 m) as He.
  set (m1 := ensureMenuInput _ 64 m) in *. clearbody m1.
  repeat case_match; nav_leaf.
Qed.

Lemma updateCreateChoice_nav (w : World) (msg : tea.Msg) (m : model) :
  navOf (updateCreateChoice w msg m) ∈
    [navOf m; (stateCreateNote, prevStates m); (stateCreateEvent, prevStates m);
     popNav (navOf m); (stateMainMenu, [])].
Proof.
  unfold updateCreateChoice. cbv zeta.
  pose proof (navOf_ensureMenuInput "1=Note  2=Event  3=Back" 32 m) as He.
  set (m1 := ensureMenuInput _ 32 m) in *. clearbody m1.
  repeat case_match; nav_leaf.
Qed.

Lemma updateNoteWizard_nav (w : World) (msg : tea.Msg) (m : model) :
  navOf (updateNoteWizard w msg m) ∈ [navOf m; popNav (navOf m); (stateMainMenu, [])].
Proof.
  unfold updateNoteWizard. cbv zeta.
  repeat case_match; nav_leaf.
Qed.

Lemma updateEventWizard_nav (w : World) (msg : tea.Msg) (m : model) :
  navOf (updateEventWizard w msg m) ∈ [navOf m; popNav (navOf m); (stateMainMenu, [])].
Proof.
  unfold updateEventWizard. cbv zeta.
  repeat case_match; nav_leaf.
Qed.

Lemma updateDashboard_nav (w : World) (msg : tea.Msg) (m : model) :
  navOf (updateDashboard w msg m) ∈ [navOf m; popNav (navOf m); (stateMainMenu, [])].
Proof.
  unfold updateDashboard. cbv zeta.
  pose proof (navOf_ensureMenuInput "Command (t=toggle, r=refresh, /, exit.)" 48 m) as He.
  set (m1 := ensureMenuInput _ 48 m) in *. clearbody m1.
  repeat case_match; nav_leaf.
Qed.

Lemma updateSettings_nav (w : World) (msg : tea.Msg) (m : model) :
  navOf (updateSettings w msg m) ∈ [navOf m; popNav (navOf m); (stateMainMenu, [])].
Proof.
  unfold updateSettings. cbv zeta.
  pose proof (navOf_ensureMenuInput "1=Name  2=Timezone  3=Back" 40 m) as He.
  set (m1 := ensureMenuInput _ 40 m) in *. clearbody m1.
  repeat case_match; nav_leaf.
Qed.

Lemma submitAccountForm_nav (w : World) (m m' : model) :
  submitAccountForm w m = Some m' ->
  navOf m' ∈ [navOf m; (stateMainMenu, []); popNav (navOf m)].
Proof.
  unfold submitAccountForm. cbv zeta. intros H.
  repeat case_match; try discriminate;
    match goal with H : Some _ = Some _ |- _ => injection H as <- end; nav_leaf.
Qed.

Lemma updateAccountForm_nav (w : World) (msg : tea.Msg) (m m' : model) :
  updateAccountForm w msg m = Some m' ->
  navOf m' ∈ [navOf m; (stateMainMenu, []); popNav (navOf m)].
Proof.
  unfold updateAccountForm. cbv zeta. intros H.
  repeat case_match; try discriminate;
    try (match goal with H : Some _ = Some _ |- _ => injection H as <- end; nav_leaf).
  all: match goal with H : submitAccountForm _ _ = Some _ |- _ =>
         apply submitAccountForm_nav in H end.
  all: nav_leaf.
Qed.

(** ** The invariant of the navigation stack *)

Lemma Update_navSuccessors (w : World) (msg : tea.Msg) (m m' : model) (quit : bool) :
  Update w msg m = Some (m', quit) -> navOf m' ∈ navSuccessors (navOf m).
Proof.
  assert (Hself : forall x : model, navOf x ∈ navSuccessors (navOf x)).
  { intros x. unfold navSuccessors. cbn [navOf fst]. destruct (state x); solve_elem. }
  unfold Update. intros H.
  set (m1 := match msg with
             | tea.WindowSizeMsg width_ height_ => m <| width := width_ |> <| height := height_ |>
             | _ => m
             end) in *.
  assert (Hm1 : navOf m1 = navOf m) by (unfold m1; destruct msg; reflexivity).
  assert (Hstep : match state m1 with
                  | stateMainMenu => Some (updateMainMenu w msg m1)
                  | stateAccounts => Some (updateAccounts w msg m1, false)
                  | stateAccountDetail => Some (updateAccountDetail w msg m1, false)
                  | stateCreateAccount =>
                      match updateAccountForm w msg m1 with
                      | Some m => Some (m, false)
                      | None => None
                      end
                  | stateCreateChoice => Some (updateCreateChoice w msg m1, false)
                  | stateCreateNote => Some (updateNoteWizard w msg m1, false)
                  | stateCreateEvent => Some (updateEventWizard w msg m1, false)
                  | stateDashboard => Some (updateDashboard w msg m1, false)
                  | _ => Some (updateSettings w msg m1, false)
                  end = Some (m', quit) -> navOf m' ∈ navSuccessors (navOf m)).
  { clear H. rewrite <- Hm1. clearbody m1. clear Hm1 m. intros H.
    unfold navSuccessors. cbn [navOf fst snd].
    destruct (state m1) eqn:Hs.
    - injection H as H. pose proof (updateMainMenu_nav w msg m1) as Hn.
      rewrite H in Hn. exact Hn.
    - injection H as <- _. apply updateDashboard_nav.
    - injection H as <- _. apply updateAccounts_nav.
    - injection H as <- _. apply updateAccountDetail_nav.
    - destruct (updateAccountForm w msg m1) as [m2|] eqn:Hf; [|discriminate].
      injection H as <- _. exact (updateAccountForm_nav _ _ _ _ Hf).
    - injection H as <- _. apply updateCreateChoice_nav.
    - injection H as <- _. apply updateNoteWizard_nav.
    - injection H as <- _. apply updateEventWizard_nav.
    - injection H as <- _. apply updateSettings_nav.
    - injection H as <- _. apply updateSettings_nav.
    - injection H as <- _. apply updateSettings_nav. }
  destruct msg as [[]| |]; try (apply Hstep; exact H).
  injection H as <- _. apply Hself.
Qed.

Lemma validNavs_closed (n n' : viewState * list viewState) :
  n ∈ validNavs -> n' ∈ navSuccessors n -> n' ∈ validNavs.
Proof.
  intros Hn Hn'. unfold validNavs in Hn.
  repeat (apply elem_of_cons in Hn as [->|Hn]);
    try (apply elem_of_nil in Hn; contradiction);
    vm_compute in Hn';
    repeat (apply elem_of_cons in Hn' as [->|Hn']);
    try (apply elem_of_nil in Hn'; contradiction);
    unfold validNavs; solve_elem.
Qed.

Lemma validNavs_active_not_stacked (n : viewState * list viewState) :
  n ∈ validNavs -> n.1 ∉ n.2.
Proof.
  intros Hn. unfold validNavs in Hn.
  repeat (apply elem_of_cons in Hn as [->|Hn]);
    try (apply elem_of_nil in Hn; contradiction);
    cbn [fst snd]; intros Hin;
    repeat (apply elem_of_cons in Hin as [Hin|Hin]; [discriminate|]);
    apply elem_of_nil in Hin; contradiction.
Qed.

Lemma reachable_validNavs (m : model) : reachable m -> navOf m ∈ validNavs.
Proof.
  induction 1 as [w store_ cfg_ | w msg m m' quit _ IH HU].
  - unfold newModel. cbv zeta. rewrite navOf_refreshAccounts, navOf_refreshDashboard.
    left.
  - eapply validNavs_closed; [exact IH|]. eapply Update_navSuccessors. exact HU.
Qed.

Lemma reachable_run (w : World) (msgs : list tea.Msg) (m m' : model) :
  reachable m -> run w msgs m = Some m' -> reachable m'.
Proof.
  revert m. induction msgs as [|msg msgs IH]; simpl; intros m Hr Hm.
  - injection Hm as <-. exact Hr.
  - destruct (Update w msg m) as [[m2 q]|] eqn:E; [|discriminate].
    eapply IH; [|exact Hm]. eapply reachable_step; eauto.
Qed.

(** C9: the active view is never on the stack.  In every session state
    reachable from the initial model by processing messages, whatever the
    collaborators answer, the active view is not an element of the
    navigation stack. *)
Theorem C9_active_view_not_in_stack (m : model) :
  reachable m -> state m ∉ prevStates m.
Proof.
  intros H. exact (validNavs_active_not_stacked (navOf m) (reachable_validNavs m H)).
Qed.

Lemma C9_active_view_not_in_stack_witness :
  match run quietWorld (submit "2" ++ submit "1" ++ submit "2") session0 with
  | Some m => state m = stateCreateNote /\ state m ∉ prevStates m
  | None => False
  end.
Proof.
  destruct (run quietWorld (submit "2" ++ submit "1" ++ submit "2") session0) as [m|] eqn:E.
  - split.
    + vm_compute in E. injection E as <-. reflexivity.
    + apply C9_active_view_not_in_stack.
      eapply reachable_run; [apply reachable_init | exact E].
  - vm_compute in E. discriminate E.
Defined.

(** ** The invariant of the account form *)

Lemma form_set_state v (m : model) : accountForm_ (set_state v m) = accountForm_ m.
Proof. reflexivity. Qed.
Lemma form_set_prevStates v (m : model) : accountForm_ (set_prevStates v m) = accountForm_ m.
Proof. reflexivity. Qed.
Lemma form_set_store v (m : model) : accountForm_ (set_store v m) = accountForm_ m.
Proof. reflexivity. Qed.
Lemma form_set_cfg v (m : model) : accountForm_ (set_cfg v m) = accountForm_ m.
Proof. reflexivity. Qed.
Lemma form_set_width v (m : model) : accountForm_ (set_width v m) = accountForm_ m.
Proof. reflexivity. Qed.
Lemma form_set_height v (m : model) : accountForm_ (set_height v m) = accountForm_ m.
Proof. reflexivity. Qed.
Lemma form_set_infoMessage v (m : model) : accountForm_ (set_infoMessage v m) = accountForm_ m.
Proof. reflexivity. Qed.
Lemma form_set_errMessage v (m : model) : accountForm_ (set_errMessage v m) = accountForm_ m.
Proof. reflexivity. Qed.
Lemma form_set_showSplash v (m : model) : accountForm_ (set_showSplash v m) = accountForm_ m.
Proof. reflexivity. Qed.
Lemma form_set_menuInput v (m : model) : accountForm_ (set_menuInput v m) = accountForm_ m.
Proof. reflexivity. Qed.
Lemma form_set_accounts v (m : model) : accountForm_ (set_accounts v m) = accountForm_ m.
Proof. reflexivity. Qed.
Lemma form_set_accountFilter v (m : model) : accountForm_ (set_accountFilter v m) = accountForm_ m.
Proof. reflexivity. Qed.
Lemma form_set_filteredAccounts v (m : model) : accountForm_ (set_filteredAccounts v m) = accountForm_ m.
Proof. reflexivity. Qed.
Lemma form_set_noteWizard_ v (m : model) : accountForm_ (set_noteWizard_ v m) = accountForm_ m.
Proof. reflexivity. Qed.
Lemma form_set_eventWizard_ v (m : model) : accountForm_ (set_eventWizard_ v m) = accountForm_ m.
Proof. reflexivity. Qed.
Lemma form_set_dashboard v (m : model) : accountForm_ (set_dashboard v m) = accountForm_ m.
Proof. reflexivity. Qed.
Lemma form_set_settings v (m : model) : accountForm_ (set_settings v m) = accountForm_ m.
Proof. reflexivity. Qed.
Lemma form_set_accountDetail v (m : model) : accountForm_ (set_accountDetail v m) = accountForm_ m.
Proof. reflexivity. Qed.
Lemma form_set_accountForm_ v (m : model) : accountForm_ (set_accountForm_ v m) = v.
Proof. reflexivity. Qed.

Create Rewrite HintDb form.
#[local] Hint Rewrite form_set_state form_set_prevStates form_set_store form_set_cfg form_set_width form_set_height form_set_infoMessage form_set_errMessage form_set_showSplash form_set_menuInput form_set_accounts form_set_accountFilter form_set_filteredAccounts form_set_noteWizard_ form_set_eventWizard_ form_set_dashboard form_set_settings form_set_accountDetail form_set_accountForm_ : form.
Lemma form_pushState (v : viewState) (m : model) : accountForm_ (pushState v m) = accountForm_ m.
Proof. unfold pushState. repeat case_match; reflexivity. Qed.
Lemma form_popState  (m : model) : accountForm_ (popState  m) = accountForm_ m.
Proof. unfold popState. repeat case_match; reflexivity. Qed.
Lemma form_setMenuInput (p : string) (l : Z) (m : model) : accountForm_ (setMenuInput p l m) = accountForm_ m.
Proof. unfold setMenuInput. repeat case_match; reflexivity. Qed.
Lemma form_ensureMenuInput (p : string) (l : Z) (m : model) : accountForm_ (ensureMenuInput p l m) = accountForm_ m.
Proof. unfold ensureMenuInput. repeat case_match; reflexivity. Qed.
Lemma form_resetMessages  (m : model) : accountForm_ (resetMessages  m) = accountForm_ m.
Proof. unfold resetMessages. repeat case_match; reflexivity. Qed.
Lemma form_refreshAccountDetailAccount (w : World) (m : model) : accountForm_ (refreshAccountDetailAccount w m) = accountForm_ m.
Proof. unfold refreshAccountDetailAccount. repeat case_match; reflexivity. Qed.
Lemma form_loadAccountActivity (w : World) (m : model) : accountForm_ (loadAccountActivity w m) = accountForm_ m.
Proof. unfold loadAccountActivity. repeat case_match; reflexivity. Qed.
Lemma form_refreshAccounts (w : World) (m : model) : accountForm_ (refreshAccounts w m) = accountForm_ m.
Proof. unfold refreshAccounts. repeat case_match; reflexivity. Qed.
Lemma form_refreshDashboard (w : World) (now : Time) (m : model) : accountForm_ (refreshDashboard w now m) = accountForm_ m.
Proof. unfold refreshDashboard. repeat case_match; reflexivity. Qed.
Lemma form_applyAccountFilter (w : World) (m : model) : accountForm_ (applyAccountFilter w m) = accountForm_ m.
Proof. unfold applyAccountFilter. repeat case_match; reflexivity. Qed.
Lemma form_handleAccountImport (w : World) (path : string) (m : model) : accountForm_ (handleAccountImport w path m) = accountForm_ m.
Proof. unfold handleAccountImport. repeat case_match; reflexivity. Qed.
Lemma form_exitToMainMenu  (m : model) : accountForm_ (exitToMainMenu  m) = accountForm_ m.
Proof. unfold exitToMainMenu. repeat case_match; reflexivity. Qed.
Lemma form_openAccountDetail (w : World) (a : Account) (m : model) :
  accountForm_ (openAccountDetail w a m) = accountForm_ m.
Proof.
  unfold openAccountDetail.
  rewrite form_setMenuInput, form_pushState, form_refreshAccountDetailAccount. reflexivity.
Qed.
Lemma form_saveNote (w : World) (a : option NullInt64) (m : model) :
  accountForm_ (saveNote w a m).1 = accountForm_ m.
Proof. unfold saveNote. case_match. reflexivity. Qed.
Lemma form_saveEvent (w : World) (a : option NullInt64) (m : model) :
  accountForm_ (saveEvent w a m).1 = accountForm_ m.
Proof. unfold saveEvent. repeat case_match; reflexivity. Qed.
Lemma form_completeNoteSave (w : World) (msg : string) (m : model) :
  accountForm_ (completeNoteSave w msg m) = accountForm_ m.
Proof.
  unfold completeNoteSave. rewrite form_refreshDashboard.
  repeat case_match;
    rewrite ?form_loadAccountActivity, ?form_refreshAccountDetailAccount,
            ?form_setMenuInput, form_popState; reflexivity.
Qed.
Lemma form_completeEventSave (w : World) (msg : string) (m : model) :
  accountForm_ (completeEventSave w msg m) = accountForm_ m.
Proof.
  unfold completeEventSave. rewrite form_refreshDashboard.
  repeat case_match;
    rewrite ?form_loadAccountActivity, ?form_refreshAccountDetailAccount,
            ?form_setMenuInput, form_popState; reflexivity.
Qed.
Lemma form_focusAfterForm (m : model) : accountForm_ (focusAfterForm m) = accountForm_ m.
Proof. unfold focusAfterForm. repeat case_match; reflexivity. Qed.

#[local] Hint Rewrite form_pushState form_popState form_setMenuInput form_ensureMenuInput form_resetMessages form_refreshAccountDetailAccount form_loadAccountActivity form_refreshAccounts form_refreshDashboard form_applyAccountFilter form_handleAccountImport form_exitToMainMenu form_openAccountDetail form_completeNoteSave
  form_completeEventSave form_focusAfterForm : form.

Lemma formOK_new (existing : option Account) : formOK (newAccountForm existing).
Proof. destruct existing; unfold formOK; cbn; lia. Qed.

Ltac form_saved :=
  repeat match goal with
  | H : saveNote ?w ?a ?m = (?m1, _) |- _ =>
      let Hn := fresh "Hn" in
      pose proof (form_saveNote w a m) as Hn; rewrite H in Hn; simpl fst in Hn;
      clear H
  | H : saveEvent ?w ?a ?m = (?m1, _) |- _ =>
      let Hn := fresh "Hn" in
      pose proof (form_saveEvent w a m) as Hn; rewrite H in Hn; simpl fst in Hn;
      clear H
  end.

Ltac form_leaf :=
  form_saved; unfold setter in *; autorewrite with form in *;
  repeat match goal with
  | H : accountForm_ _ = accountForm_ _ |- _ => rewrite ?H; clear H
  end;
  first [assumption | apply formOK_new | exact (formOK_new None)].

Lemma updateMainMenu_form (w : World) (msg : tea.Msg) (m : model) :
  formOK (accountForm_ m) -> formOK (accountForm_ (updateMainMenu w msg m).1).
Proof.
  intros H. unfold updateMainMenu. cbv zeta.
  pose proof (form_ensureMenuInput "Choose an option" 32 m) as He.
  set (m1 := ensureMenuInput "Choose an option" 32 m) in *. clearbody m1.
  repeat case_match; simpl fst; form_leaf.
Qed.

Lemma updateAccounts_form (w : World) (msg : tea.Msg) (m : model) :
  formOK (accountForm_ m) -> formOK (accountForm_ (updateAccounts w msg m)).
Proof. intros H. unfold updateAccounts. cbv zeta. repeat case_match; form_leaf. Qed.

Lemma updateAccountDetail_form (w : World) (msg : tea.Msg) (m : model) :
  formOK (accountForm_ m) -> formOK (accountForm_ (updateAccountDetail w msg m)).
Proof.
  intros H. unfold updateAccountDetail. cbv zeta.
  pose proof (form_ensureMenuInput
                "1=Activity  2=Add note  3=Add event  4=Edit  5=Back" 64 m) as He.
  set (m1 := ensureMenuInput _ 64 m) in *. clearbody m1.
  repeat case_match; form_leaf.
Qed.

Lemma updateCreateChoice_form (w : World) (msg : tea.Msg) (m : model) :
  formOK (accountForm_ m) -> formOK (accountForm_ (updateCreateChoice w msg m)).
Proof.
  intros H. unfold updateCreateChoice. cbv zeta.
  pose proof (form_ensureMenuInput "1=Note  2=Event  3=Back" 32 m) as He.
  set (m1 := ensureMenuInput _ 32 m) in *. clearbody m1.
  repeat case_match; form_leaf.
Qed.

Lemma updateNoteWizard_form (w : World) (msg : tea.Msg) (m : model) :
  formOK (accountForm_ m) -> formOK (accountForm_ (updateNoteWizard w msg m)).
Proof. intros H. unfold updateNoteWizard. cbv zeta. repeat case_match; form_leaf. Qed.

Lemma updateEventWizard_form (w : World) (msg : tea.Msg) (m : model) :
  formOK (accountForm_ m) -> formOK (accountForm_ (updateEventWizard w msg m)).
Proof. intros H. unfold updateEventWizard. cbv zeta. repeat case_match; form_leaf. Qed.

Lemma updateDashboard_form (w : World) (msg : tea.Msg) (m : model) :
  formOK (accountForm_ m) -> formOK (accountForm_ (updateDashboard w msg m)).
Proof.
  intros H. unfold updateDashboard. cbv zeta.
  pose proof (form_ensureMenuInput "Command (t=toggle, r=refresh, /, exit.)" 48 m) as He.
  set (m1 := ensureMenuInput _ 48 m) in *. clearbody m1.
  repeat case_match; form_leaf.
Qed.

Lemma updateSettings_form (w : World) (msg : tea.Msg) (m : model) :
  formOK (accountForm_ m) -> formOK (accountForm_ (updateSettings w msg m)).
Proof.
  intros H. unfold updateSettings. cbv zeta.
  pose proof (form_ensureMenuInput "1=Name  2=Timezone  3=Back" 40 m) as He.
  set (m1 := ensureMenuInput _ 40 m) in *. clearbody m1.
  repeat case_match; form_leaf.
Qed.

Lemma fieldAt_in_range (fields : list formField) (i : Z) :
  0 <= i < Z.of_nat (length fields) -> is_Some (fieldAt fields i).
Proof.
  intros H. unfold fieldAt. destruct (0 <=? i) eqn:E; [|apply Z.leb_gt in E; lia].
  apply lookup_lt_is_Some. lia.
Qed.

Lemma formOK_cancel (m : model) : formOK (accountForm_ (cancelAccountForm m)).
Proof.
  unfold cancelAccountForm. rewrite form_focusAfterForm, form_popState.
  case_match; apply formOK_new.
Qed.

Lemma submitAccountForm_form (w : World) (m m' : model) :
  formOK (accountForm_ m) ->
  submitAccountForm w m = Some m' -> formOK (accountForm_ m').
Proof.
  intros H. unfold submitAccountForm. cbv zeta. intros E.
  repeat case_match; try discriminate;
    match goal with H : Some _ = Some _ |- _ => injection H as <- end;
    unfold setter; autorewrite with form;
    try assumption; try apply formOK_new;
    unfold formOK in *; cbn; lia.
Qed.

Lemma submitAccountForm_total (w : World) (m : model) :
  formOK (accountForm_ m) -> is_Some (submitAccountForm w m).
Proof.
  intros H. unfold submitAccountForm. cbv zeta.
  destruct (fieldAt_in_range (af_fields (accountForm_ m)) 0) as [first Hfirst];
    [unfold formOK in H; lia|].
  rewrite Hfirst. repeat case_match; eauto.
Qed.

Lemma updateAccountForm_form (w : World) (msg : tea.Msg) (m m' : model) :
  formOK (accountForm_ m) ->
  updateAccountForm w msg m = Some m' -> formOK (accountForm_ m').
Proof.
  intros H. unfold updateAccountForm. cbv zeta. intros E.
  repeat case_match; try discriminate;
    try (match goal with H : submitAccountForm _ _ = Some _ |- _ =>
           apply submitAccountForm_form in H; [exact H|] end);
    try (match goal with H : Some _ = Some _ |- _ => injection H as <- end);
    try apply formOK_cancel;
    unfold setter; autorewrite with form;
    try assumption; try apply formOK_new;
    unfold formOK in *; cbn in *;
    repeat match goal with
    | H : (_ =? _) = false |- _ => apply Z.eqb_neq in H
    | H : (_ <=? _) = false |- _ => apply Z.leb_gt in H
    | H : context [length (<[_ := _]> _)] |- _ => rewrite length_insert in H
    end; rewrite ?length_insert; lia.
Qed.

Lemma updateAccountForm_total (w : World) (msg : tea.Msg) (m : model) :
  formOK (accountForm_ m) -> is_Some (updateAccountForm w msg m).
Proof.
  intros H. unfold updateAccountForm. cbv zeta.
  set (m1 := m <| accountForm_ := _ |>).
  assert (H1 : formOK (accountForm_ m1)) by exact H.
  clearbody m1.
  destruct msg as [[]| |]; eauto.
  destruct (isExitCommand _); eauto.
  destruct (isBackCommand _).
  - destruct (af_index (accountForm_ m1) =? 0) eqn:E0; eauto.
    apply Z.eqb_neq in E0.
    destruct (fieldAt_in_range (af_fields (accountForm_ m1)) (af_index (accountForm_ m1) - 1))
      as [prev ->]; [unfold formOK in H1; lia | eauto].
  - destruct (fieldAt_in_range (af_fields (accountForm_ m1)) (af_index (accountForm_ m1)))
      as [current ->]; [exact H1|].
    destruct (ff_required current && _); eauto.
    destruct (_ <=? _) eqn:El.
    + apply submitAccountForm_total. unfold formOK in *. cbn. rewrite length_insert. exact H1.
    + apply Z.leb_gt in El. cbn in El. rewrite length_insert in El.
      destruct (fieldAt_in_range
                  (<[Z.to_nat (af_index (accountForm_ m1)) :=
                       current <| ff_value := strings.TrimSpace
                                    (textinput.Value (af_input (accountForm_ m1))) |> ]>
                     (af_fields (accountForm_ m1)))
                  (af_index (accountForm_ m1) + 1)) as [next Hnext].
      * rewrite length_insert. unfold formOK in H1. lia.
      * cbn in *. rewrite Hnext. eauto.
Qed.

Lemma Update_formOK (w : World) (msg : tea.Msg) (m m' : model) (quit : bool) :
  formOK (accountForm_ m) -> Update w msg m = Some (m', quit) -> formOK (accountForm_ m').
Proof.
  intros H. unfold Update.
  set (m1 := match msg with
             | tea.WindowSizeMsg width_ height_ => m <| width := width_ |> <| height := height_ |>
             | _ => m
             end).
  assert (H1 : formOK (accountForm_ m1)) by (unfold m1; destruct msg; exact H).
  clearbody m1.
  assert (Hstep : match state m1 with
                  | stateMainMenu => Some (updateMainMenu w msg m1)
                  | stateAccounts => Some (updateAccounts w msg m1, false)
                  | stateAccountDetail => Some (updateAccountDetail w msg m1, false)
                  | stateCreateAccount =>
                      match updateAccountForm w msg m1 with
                      | Some m => Some (m, false)
                      | None => None
                      end
                  | stateCreateChoice => Some (updateCreateChoice w msg m1, false)
                  | stateCreateNote => Some (updateNoteWizard w msg m1, false)
                  | stateCreateEvent => Some (updateEventWizard w msg m1, false)
                  | stateDashboard => Some (updateDashboard w msg m1, false)
                  | _ => Some (updateSettings w msg m1, false)
                  end = Some (m', quit) -> formOK (accountForm_ m')).
  { intros E. destruct (state m1).
    - injection E as E. pose proof (updateMainMenu_form w msg m1 H1) as Hn.
      rewrite E in Hn. exact Hn.
    - injection E as <- _. apply updateDashboard_form, H1.
    - injection E as <- _. apply updateAccounts_form, H1.
    - injection E as <- _. apply updateAccountDetail_form, H1.
    - destruct (updateAccountForm w msg m1) as [m2|] eqn:Ef; [|discriminate].
      injection E as <- _. exact (updateAccountForm_form _ _ _ _ H1 Ef).
    - injection E as <- _. apply updateCreateChoice_form, H1.
    - injection E as <- _. apply updateNoteWizard_form, H1.
    - injection E as <- _. apply updateEventWizard_form, H1.
    - injection E as <- _. apply updateSettings_form, H1.
    - injection E as <- _. apply updateSettings_form, H1.
    - injection E as <- _. apply updateSettings_form, H1. }
  destruct msg as [[]| |]; try exact Hstep.
  intros E. injection E as <- _. exact H.
Qed.

Lemma Update_total (w : World) (msg : tea.Msg) (m : model) :
  formOK (accountForm_ m) -> is_Some (Update w msg m).
Proof.
  intros H. unfold Update.
  set (m1 := match msg with
             | tea.WindowSizeMsg width_ height_ => m <| width := width_ |> <| height := height_ |>
             | _ => m
             end).
  assert (H1 : formOK (accountForm_ m1)) by (unfold m1; destruct msg; exact H).
  clearbody m1.
  destruct msg as [[]| |]; eauto; destruct (state m1); eauto;
    match goal with
    | |- context [updateAccountForm w ?msg m1] =>
        destruct (updateAccountForm_total w msg m1 H1) as [m2 ->]; eauto
    end.
Qed.

Lemma reachable_formOK (m : model) : reachable m -> formOK (accountForm_ m).
Proof.
  induction 1 as [w store_ cfg_ | w msg m m' quit _ IH HU].
  - unfold newModel. cbv zeta. rewrite form_refreshAccounts, form_refreshDashboard.
    apply (formOK_new None).
  - eapply Update_formOK; eauto.
Qed.

(** X26: no turn panics.  The account form indexes its field list with a
    cursor that the handlers move; in every reachable session the cursor
    stays within the list, so that every message, in every world, leads
    to a next session instead of an index-out-of-range panic. *)
Theorem reachable_no_panic (m : model) (w : World) (msg : tea.Msg) :
  reachable m -> exists m' quit, Update w msg m = Some (m', quit) /\ reachable m'.
Proof.
  intros H. destruct (Update_total w msg m (reachable_formOK m H)) as [[m' quit] E].
  exists m', quit. split; [exact E|]. eapply reachable_step; eauto.
Qed.

(** ** The invariant of the text inputs *)

Lemma inputsOf_set_state v (m : model) : inputsOf (set_state v m) = inputsOf m.
Proof. reflexivity. Qed.
Lemma inputsOf_set_prevStates v (m : model) : inputsOf (set_prevStates v m) = inputsOf m.
Proof. reflexivity. Qed.
Lemma inputsOf_set_store v (m : model) : inputsOf (set_store v m) = inputsOf m.
Proof. reflexivity. Qed.
Lemma inputsOf_set_cfg v (m : model) : inputsOf (set_cfg v m) = inputsOf m.
Proof. reflexivity. Qed.
Lemma inputsOf_set_width v (m : model) : inputsOf (set_width v m) = inputsOf m.
Proof. reflexivity. Qed.
Lemma inputsOf_set_height v (m : model) : inputsOf (set_height v m) = inputsOf m.
Proof. reflexivity. Qed.
Lemma inputsOf_set_infoMessage v (m : model) : inputsOf (set_infoMessage v m) = inputsOf m.
Proof. reflexivity. Qed.
Lemma inputsOf_set_errMessage v (m : model) : inputsOf (set_errMessage v m) = inputsOf m.
Proof. reflexivity. Qed.
Lemma inputsOf_set_showSplash v (m : model) : inputsOf (set_showSplash v m) = inputsOf m.
Proof. reflexivity. Qed.
Lemma inputsOf_set_menuInput v (m : model) : inputsOf (set_menuInput v m) = inputsOf m.
Proof. reflexivity. Qed.
Lemma inputsOf_set_accounts v (m : model) : inputsOf (set_accounts v m) = inputsOf m.
Proof. reflexivity. Qed.
Lemma inputsOf_set_accountFilter v (m : model) : inputsOf (set_accountFilter v m) = inputsOf m.
Proof. reflexivity. Qed.
Lemma inputsOf_set_filteredAccounts v (m : model) : inputsOf (set_filteredAccounts v m) = inputsOf m.
Proof. reflexivity. Qed.
Lemma inputsOf_set_accountForm_ v (m : model) : inputsOf (set_accountForm_ v m) = inputsOf m.
Proof. reflexivity. Qed.
Lemma inputsOf_set_dashboard v (m : model) : inputsOf (set_dashboard v m) = inputsOf m.
Proof. reflexivity. Qed.
Lemma inputsOf_set_accountDetail v (m : model) : inputsOf (set_accountDetail v m) = inputsOf m.
Proof. reflexivity. Qed.
Lemma inputsOf_set_noteWizard_ v (m : model) :
  inputsOf (set_noteWizard_ v m) = (v, eventWizard_ m, settings m).
Proof. reflexivity. Qed.
Lemma inputsOf_set_eventWizard_ v (m : model) :
  inputsOf (set_eventWizard_ v m) = (noteWizard_ m, v, settings m).
Proof. reflexivity. Qed.
Lemma inputsOf_set_settings v (m : model) :
  inputsOf (set_settings v m) = (noteWizard_ m, eventWizard_ m, v).
Proof. reflexivity. Qed.

Create Rewrite HintDb inputs.
#[local] Hint Rewrite inputsOf_set_state inputsOf_set_prevStates inputsOf_set_store inputsOf_set_cfg inputsOf_set_width inputsOf_set_height inputsOf_set_infoMessage inputsOf_set_errMessage inputsOf_set_showSplash inputsOf_set_menuInput inputsOf_set_accounts inputsOf_set_accountFilter inputsOf_set_filteredAccounts inputsOf_set_accountForm_ inputsOf_set_dashboard inputsOf_set_accountDetail
  inputsOf_set_noteWizard_ inputsOf_set_eventWizard_ inputsOf_set_settings : inputs.
Lemma inputsOf_pushState (v : viewState) (m : model) : inputsOf (pushState v m) = inputsOf m.
Proof. unfold pushState. repeat case_match; reflexivity. Qed.
Lemma inputsOf_popState  (m : model) : inputsOf (popState  m) = inputsOf m.
Proof. unfold popState. repeat case_match; reflexivity. Qed.
Lemma inputsOf_setMenuInput (p : string) (l : Z) (m : model) : inputsOf (setMenuInput p l m) = inputsOf m.
Proof. unfold setMenuInput. repeat case_match; reflexivity. Qed.
Lemma inputsOf_ensureMenuInput (p : string) (l : Z) (m : model) : inputsOf (ensureMenuInput p l m) = inputsOf m.
Proof. unfold ensureMenuInput. repeat case_match; reflexivity. Qed.
Lemma inputsOf_resetMessages  (m : model) : inputsOf (resetMessages  m) = inputsOf m.
Proof. unfold resetMessages. repeat case_match; reflexivity. Qed.
Lemma inputsOf_refreshAccountDetailAccount (w : World) (m : model) : inputsOf (refreshAccountDetailAccount w m) = inputsOf m.
Proof. unfold refreshAccountDetailAccount. repeat case_match; reflexivity. Qed.
Lemma inputsOf_loadAccountActivity (w : World) (m : model) : inputsOf (loadAccountActivity w m) = inputsOf m.
Proof. unfold loadAccountActivity. repeat case_match; reflexivity. Qed.
Lemma inputsOf_refreshAccounts (w : World) (m : model) : inputsOf (refreshAccounts w m) = inputsOf m.
Proof. unfold refreshAccounts. repeat case_match; reflexivity. Qed.
Lemma inputsOf_refreshDashboard (w : World) (now : Time) (m : model) : inputsOf (refreshDashboard w now m) = inputsOf m.
Proof. unfold refreshDashboard. repeat case_match; reflexivity. Qed.
Lemma inputsOf_applyAccountFilter (w : World) (m : model) : inputsOf (applyAccountFilter w m) = inputsOf m.
Proof. unfold applyAccountFilter. repeat case_match; reflexivity. Qed.
Lemma inputsOf_handleAccountImport (w : World) (path : string) (m : model) : inputsOf (handleAccountImport w path m) = inputsOf m.
Proof. unfold handleAccountImport. repeat case_match; reflexivity. Qed.
Lemma inputsOf_exitToMainMenu  (m : model) : inputsOf (exitToMainMenu  m) = inputsOf m.
Proof. unfold exitToMainMenu. repeat case_match; reflexivity. Qed.
Lemma inputsOf_focusAfterForm  (m : model) : inputsOf (focusAfterForm  m) = inputsOf m.
Proof. unfold focusAfterForm. repeat case_match; reflexivity. Qed.
Lemma inputsOf_openAccountDetail (w : World) (a : Account) (m : model) :
  inputsOf (openAccountDetail w a m) = inputsOf m.
Proof.
  unfold openAccountDetail.
  rewrite inputsOf_setMenuInput, inputsOf_pushState, inputsOf_refreshAccountDetailAccount.
  reflexivity.
Qed.
Lemma inputsOf_cancelAccountForm (m : model) : inputsOf (cancelAccountForm m) = inputsOf m.
Proof.
  unfold cancelAccountForm. rewrite inputsOf_focusAfterForm, inputsOf_popState.
  case_match; reflexivity.
Qed.
Lemma inputsOf_saveNote (w : World) (a : option NullInt64) (m : model) :
  inputsOf (saveNote w a m).1 = inputsOf m.
Proof. unfold saveNote. case_match. reflexivity. Qed.
Lemma inputsOf_saveEvent (w : World) (a : option NullInt64) (m : model) :
  inputsOf (saveEvent w a m).1 = inputsOf m.
Proof. unfold saveEvent. repeat case_match; reflexivity. Qed.
Lemma inputsOf_completeNoteSave (w : World) (msg : string) (m : model) :
  inputsOf (completeNoteSave w msg m) = (newNoteWizard None, eventWizard_ m, settings m).
Proof.
  unfold completeNoteSave. rewrite inputsOf_refreshDashboard.
  repeat case_match;
    rewrite ?inputsOf_loadAccountActivity, ?inputsOf_refreshAccountDetailAccount,
            ?inputsOf_setMenuInput, inputsOf_popState; reflexivity.
Qed.
Lemma inputsOf_completeEventSave (w : World) (msg : string) (m : model) :
  inputsOf (completeEventSave w msg m) = (noteWizard_ m, newEventWizard None, settings m).
Proof.
  unfold completeEventSave. rewrite inputsOf_refreshDashboard.
  repeat case_match;
    rewrite ?inputsOf_loadAccountActivity, ?inputsOf_refreshAccountDetailAccount,
            ?inputsOf_setMenuInput, inputsOf_popState; reflexivity.
Qed.

#[local] Hint Rewrite inputsOf_pushState inputsOf_popState inputsOf_setMenuInput inputsOf_ensureMenuInput inputsOf_resetMessages inputsOf_refreshAccountDetailAccount inputsOf_loadAccountActivity inputsOf_refreshAccounts inputsOf_refreshDashboard inputsOf_applyAccountFilter inputsOf_handleAccountImport inputsOf_exitToMainMenu inputsOf_focusAfterForm inputsOf_openAccountDetail
  inputsOf_cancelAccountForm inputsOf_completeNoteSave inputsOf_completeEventSave : inputs.

Lemma focus_Update (msg : tea.Msg) (i : textinput.Model) :
  textinput.focus (textinput.Update msg i) = textinput.focus i.
Proof.
  unfold textinput.Update. destruct (textinput.focus i) eqn:E; [|exact E].
  destruct msg as [[]| |]; exact E.
Qed.

Lemma tidy_Update (msg : tea.Msg) (i : textinput.Model) :
  tidy i -> tidy (textinput.Update msg i).
Proof.
  unfold tidy. rewrite focus_Update. intros H E.
  unfold textinput.Update. rewrite E. exact (H E).
Qed.

Lemma tidy_focused (i : textinput.Model) : textinput.focus i = true -> tidy i.
Proof. unfold tidy. congruence. Qed.

Lemma focus_focused (i : textinput.Model) :
  textinput.focus (if negb (textinput.Focused i) then textinput.Focus i else i) = true.
Proof. unfold textinput.Focused. destruct (textinput.focus i) eqn:E; [exact E | reflexivity]. Qed.

Lemma tidy_SetValue_blank (i : textinput.Model) : tidy (textinput.SetValue "" i).
Proof.
  unfold tidy, textinput.SetValue, textinput.clip. intros _. cbn.
  destruct (_ && _); [destruct (Z.to_nat _)|]; reflexivity.
Qed.

Lemma inputsOK_new (a b : option Account) (s : settingsModel) :
  (sm_mode s <> settingsViewing -> textinput.focus (sm_input s) = true) ->
  inputsOK (newNoteWizard a, newEventWizard b, s).
Proof. intros H. unfold inputsOK, tidy. cbn. tauto. Qed.

Ltac inputs_saved :=
  repeat match goal with
  | H : saveNote ?w ?a ?m = (?m1, _) |- _ =>
      let Hn := fresh "Hn" in
      pose proof (inputsOf_saveNote w a m) as Hn; rewrite H in Hn; simpl fst in Hn;
      clear H
  | H : saveEvent ?w ?a ?m = (?m1, _) |- _ =>
      let Hn := fresh "Hn" in
      pose proof (inputsOf_saveEvent w a m) as Hn; rewrite H in Hn; simpl fst in Hn;
      clear H
  end.

Ltac inputs_facts :=
  repeat first
    [ assumption
    | apply focus_focused
    | apply tidy_SetValue_blank
    | rewrite focus_Update
    | apply tidy_Update
    | apply tidy_focused
    | reflexivity
    | (intros; congruence) ].

Ltac inputs_leaf :=
  inputs_saved; unfold setter in *; autorewrite with inputs in *;
  unfold inputsOf in *;
  repeat match goal with
  | H : (_, _, _) = (_, _, _) |- _ => injection H as ? ? ?
  end;
  cbn -[textinput.Update textinput.SetValue inputsOK];
  repeat match goal with
  | H : noteWizard_ _ = _ |- _ => rewrite ?H; clear H
  | H : eventWizard_ _ = _ |- _ => rewrite ?H; clear H
  | H : settings _ = _ |- _ => rewrite ?H; clear H
  end;
  unfold inputsOK in *; cbn [fst snd] in *;
  match goal with H : _ /\ _ /\ _ /\ _ /\ _ /\ _ |- _ =>
    destruct H as (J1 & J2 & J3 & J4 & J5 & J6) end;
  cbn -[textinput.Update textinput.SetValue]; repeat split; inputs_facts.

Lemma updateNoteWizard_inputs (w : World) (msg : tea.Msg) (m : model) :
  inputsOK (inputsOf m) -> inputsOK (inputsOf (updateNoteWizard w msg m)).
Proof. intros H. unfold updateNoteWizard. cbv zeta. repeat case_match; inputs_leaf. Qed.

Lemma updateEventWizard_inputs (w : World) (msg : tea.Msg) (m : model) :
  inputsOK (inputsOf m) -> inputsOK (inputsOf (updateEventWizard w msg m)).
Proof. intros H. unfold updateEventWizard. cbv zeta. repeat case_match; inputs_leaf. Qed.

Lemma updateSettings_inputs (w : World) (msg : tea.Msg) (m : model) :
  inputsOK (inputsOf m) -> inputsOK (inputsOf (updateSettings w msg m)).
Proof.
  intros H. unfold updateSettings. cbv zeta.
  pose proof (inputsOf_ensureMenuInput "1=Name  2=Timezone  3=Back" 40 m) as He.
  set (m1 := ensureMenuInput _ 40 m) in *. clearbody m1.
  repeat case_match; inputs_leaf.
Qed.

Lemma updateMainMenu_inputs (w : World) (msg : tea.Msg) (m : model) :
  inputsOK (inputsOf m) -> inputsOK (inputsOf (updateMainMenu w msg m).1).
Proof.
  intros H. unfold updateMainMenu. cbv zeta.
  pose proof (inputsOf_ensureMenuInput "Choose an option" 32 m) as He.
  set (m1 := ensureMenuInput "Choose an option" 32 m) in *. clearbody m1.
  repeat case_match; simpl fst; inputs_leaf.
Qed.

Lemma updateAccounts_inputs (w : World) (msg : tea.Msg) (m : model) :
  inputsOK (inputsOf m) -> inputsOK (inputsOf (updateAccounts w msg m)).
Proof. intros H. unfold updateAccounts. cbv zeta. repeat case_match; inputs_leaf. Qed.

Lemma updateAccountDetail_inputs (w : World) (msg : tea.Msg) (m : model) :
  inputsOK (inputsOf m) -> inputsOK (inputsOf (updateAccountDetail w msg m)).
Proof.
  intros H. unfold updateAccountDetail. cbv zeta.
  pose proof (inputsOf_ensureMenuInput
                "1=Activity  2=Add note  3=Add event  4=Edit  5=Back" 64 m) as He.
  set (m1 := ensureMenuInput _ 64 m) in *. clearbody m1.
  repeat case_match; inputs_leaf.
Qed.

Lemma updateCreateChoice_inputs (w : World) (msg : tea.Msg) (m : model) :
  inputsOK (inputsOf m) -> inputsOK (inputsOf (updateCreateChoice w msg m)).
Proof.
  intros H. unfold updateCreateChoice. cbv zeta.
  pose proof (inputsOf_ensureMenuInput "1=Note  2=Event  3=Back" 32 m) as He.
  set (m1 := ensureMenuInput _ 32 m) in *. clearbody m1.
  repeat case_match; inputs_leaf.
Qed.

Lemma updateDashboard_inputs (w : World) (msg : tea.Msg) (m : model) :
  inputsOK (inputsOf m) -> inputsOK (inputsOf (updateDashboard w msg m)).
Proof.
  intros H. unfold updateDashboard. cbv zeta.
  pose proof (inputsOf_ensureMenuInput "Command (t=toggle, r=refresh, /, exit.)" 48 m) as He.
  set (m1 := ensureMenuInput _ 48 m) in *. clearbody m1.
  repeat case_match; inputs_leaf.
Qed.

Lemma submitAccountForm_inputs (w : World) (m m' : model) :
  inputsOK (inputsOf m) -> submitAccountForm w m = Some m' -> inputsOK (inputsOf m').
Proof.
  intros H. unfold submitAccountForm. cbv zeta. intros E.
  repeat case_match; try discriminate;
    match goal with H : Some _ = Some _ |- _ => injection H as <- end; inputs_leaf.
Qed.

Lemma updateAccountForm_inputs (w : World) (msg : tea.Msg) (m m' : model) :
  inputsOK (inputsOf m) -> updateAccountForm w msg m = Some m' -> inputsOK (inputsOf m').
Proof.
  intros H. unfold updateAccountForm. cbv zeta. intros E.
  repeat case_match; try discriminate;
    try (match goal with H : Some _ = Some _ |- _ => injection H as <- end; inputs_leaf).
  all: match goal with H : submitAccountForm _ _ = Some _ |- _ =>
         apply submitAccountForm_inputs in H; [exact H|] end.
  all: inputs_leaf.
Qed.

Lemma Update_inputsOK (w : World) (msg : tea.Msg) (m m' : model) (quit : bool) :
  inputsOK (inputsOf m) -> Update w msg m = Some (m', quit) -> inputsOK (inputsOf m').
Proof.
  intros H. unfold Update.
  set (m1 := match msg with
             | tea.WindowSizeMsg width_ height_ => m <| width := width_ |> <| height := height_ |>
             | _ => m
             end).
  assert (H1 : inputsOK (inputsOf m1)) by (unfold m1; destruct msg; exact H).
  clearbody m1.
  assert (Hstep : match state m1 with
                  | stateMainMenu => Some (updateMainMenu w msg m1)
                  | stateAccounts => Some (updateAccounts w msg m1, false)
                  | stateAccountDetail => Some (updateAccountDetail w msg m1, false)
                  | stateCreateAccount =>
                      match updateAccountForm w msg m1 with
                      | Some m => Some (m, false)
                      | None => None
                      end
                  | stateCreateChoice => Some (updateCreateChoice w msg m1, false)
                  | stateCreateNote => Some (updateNoteWizard w msg m1, false)
                  | stateCreateEvent => Some (updateEventWizard w msg m1, false)
                  | stateDashboard => Some (updateDashboard w msg m1, false)
                  | _ => Some (updateSettings w msg m1, false)
                  end = Some (m', quit) -> inputsOK (inputsOf m')).
  { intros E. destruct (state m1).
    - injection E as E. pose proof (updateMainMenu_inputs w msg m1 H1) as Hn.
      rewrite E in Hn. exact Hn.
    - injection E as <- _. apply updateDashboard_inputs, H1.
    - injection E as <- _. apply updateAccounts_inputs, H1.
    - injection E as <- _. apply updateAccountDetail_inputs, H1.
    - destruct (updateAccountForm w msg m1) as [m2|] eqn:Ef; [|discriminate].
      injection E as <- _. exact (updateAccountForm_inputs _ _ _ _ H1 Ef).
    - injection E as <- _. apply updateCreateChoice_inputs, H1.
    - injection E as <- _. apply updateNoteWizard_inputs, H1.
    - injection E as <- _. apply updateEventWizard_inputs, H1.
    - injection E as <- _. apply updateSettings_inputs, H1.
    - injection E as <- _. apply updateSettings_inputs, H1.
    - injection E as <- _. apply updateSettings_inputs, H1. }
  destruct msg as [[]| |]; try exact Hstep.
  intros E. injection E as <- _. exact H.
Qed.

Lemma reachable_inputsOK (m : model) : reachable m -> inputsOK (inputsOf m).
Proof.
  induction 1 as [w store_ cfg_ | w msg m m' quit _ IH HU].
  - unfold newModel. cbv zeta. rewrite inputsOf_refreshAccounts, inputsOf_refreshDashboard.
    apply inputsOK_new. intros H. contradiction.
  - eapply Update_inputsOK; eauto.
Qed.

Lemma tidy_typed (i : textinput.Model) :
  tidy i -> strings.TrimSpace (textinput.Value i) <> "" -> textinput.Focused i = true.
Proof.
  unfold tidy, textinput.Focused, textinput.Value. intros Ht Hv.
  destruct (textinput.focus i); [reflexivity|].
  rewrite Ht in Hv by reflexivity. contradiction.
Qed.

Lemma tidy_answered (i : textinput.Model) (value : string) :
  tidy i ->
  strings.ToLower (strings.TrimSpace (textinput.Value i)) = value ->
  value ∉ ["y"; "yes"; "n"; "no"; ""] ->
  textinput.Focused i = true.
Proof.
  intros Ht Hv Hans. apply tidy_typed; [exact Ht|]. intros E.
  rewrite E in Hv. apply Hans. rewrite <- Hv.
  repeat first [apply list_elem_of_here | apply list_elem_of_further].
Qed.

(** ** A duplicate name in the account-creation form *)

(** C4 fails in its last part.  A new account named "Acme" is entered,
    the four optional fields are left blank, and the database rejects the
    insertion because the name exists.  The form stays open on the name
    field with the error set, and the name is kept in the field list, but
    the input is emptied: the typed name is not shown for correction.  (The
    edit path of the same handler puts the name back into the input.) *)
Theorem C4_duplicate_name_empties_input :
  match run duplicateWorld
          (submit "3" ++ submit "Acme" ++ submit "" ++ submit "" ++ submit "" ++ submit "")
          session0 with
  | Some m =>
      state m = stateCreateAccount
      /\ prevStates m = [stateMainMenu]
      /\ af_editing (accountForm_ m) = false
      /\ af_err (accountForm_ m) = "An account with that name already exists"
      /\ af_index (accountForm_ m) = 0
      /\ ff_value <$> af_fields (accountForm_ m) !! 0%nat = Some "Acme"
      /\ textinput.Value (af_input (accountForm_ m)) = ""
      /\ textinput.Value (af_input (accountForm_ m)) <> "Acme"
  | None => False
  end.
Proof. vm_compute. repeat split. discriminate. Qed.

(** The edit path on the same failure: the name is shown again. *)
Lemma duplicate_name_on_edit_keeps_input :
  match run quietWorld (submit "2" ++ submit "1" ++ submit "4") session0 with
  | Some m =>
      match run duplicateWorld (repeat (tea.KeyMsg tea.KeyEnter) 5) m with
      | Some m' =>
          af_editing (accountForm_ m') = true
          /\ af_err (accountForm_ m') = "An account with that name already exists"
          /\ af_index (accountForm_ m') = 0
          /\ textinput.Value (af_input (accountForm_ m')) = "Acme"
      | None => False
      end
  | None => False
  end.
Proof. vm_compute. repeat split. Qed.

(** ** White space *)

Lemma TrimRight_idempotent (s : string) :
  strings.TrimRight (strings.TrimRight s) = strings.TrimRight s.
Proof.
  induction s as [|c s IH]; simpl; [reflexivity|].
  destruct (strings.TrimRight s) as [|c' r] eqn:E.
  - destruct (Ascii.is_space c) eqn:Hc; simpl; [reflexivity|]. rewrite Hc. reflexivity.
  - change (strings.TrimRight (String c (String c' r)))
      with (match strings.TrimRight (String c' r) with
            | EmptyString => if Ascii.is_space c then EmptyString else String c EmptyString
            | rest' => String c rest'
            end).
    rewrite IH. reflexivity.
Qed.

Lemma TrimLeft_noLeadingSpace (s : string) : noLeadingSpace (strings.TrimLeft s).
Proof.
  induction s as [|c s IH]; simpl; [exact I|].
  destruct (Ascii.is_space c) eqn:Hc; [exact IH | exact Hc].
Qed.

Lemma TrimRight_noLeadingSpace (s : string) :
  noLeadingSpace s -> noLeadingSpace (strings.TrimRight s).
Proof.
  destruct s as [|c s]; simpl; [auto|]. intros Hc.
  destruct (strings.TrimRight s); [rewrite Hc|]; exact Hc.
Qed.

Lemma TrimLeft_fixed (s : string) : noLeadingSpace s -> strings.TrimLeft s = s.
Proof. destruct s as [|c s]; simpl; [auto|]. intros ->. reflexivity. Qed.

Lemma TrimSpace_idempotent (s : string) :
  strings.TrimSpace (strings.TrimSpace s) = strings.TrimSpace s.
Proof.
  unfold strings.TrimSpace.
  rewrite (TrimLeft_fixed (strings.TrimRight (strings.TrimLeft s))).
  - apply TrimRight_idempotent.
  - apply TrimRight_noLeadingSpace, TrimLeft_noLeadingSpace.
Qed.

Lemma is_space_lowerByte (c : ascii) : Ascii.is_space (strings.lowerByte c) = Ascii.is_space c.
Proof. destruct c as [[] [] [] [] [] [] [] []]; reflexivity. Qed.

Lemma lowerByte_idempotent (c : ascii) :
  strings.lowerByte (strings.lowerByte c) = strings.lowerByte c.
Proof. destruct c as [[] [] [] [] [] [] [] []]; reflexivity. Qed.

Lemma ToLower_idempotent (s : string) :
  strings.ToLower (strings.ToLower s) = strings.ToLower s.
Proof.
  induction s as [|c s IH]; [reflexivity|].
  cbn [strings.ToLower]. rewrite lowerByte_idempotent, IH. reflexivity.
Qed.

Lemma ToLower_TrimLeft (s : string) :
  strings.ToLower (strings.TrimLeft s) = strings.TrimLeft (strings.ToLower s).
Proof.
  induction s as [|c s IH]; [reflexivity|].
  cbn [strings.ToLower strings.TrimLeft]. rewrite is_space_lowerByte.
  destruct (Ascii.is_space c); [exact IH | reflexivity].
Qed.

Lemma ToLower_TrimRight (s : string) :
  strings.ToLower (strings.TrimRight s) = strings.TrimRight (strings.ToLower s).
Proof.
  induction s as [|c s IH]; [reflexivity|].
  cbn [strings.ToLower strings.TrimRight]. rewrite <- IH, is_space_lowerByte.
  destruct (strings.TrimRight s); [destruct (Ascii.is_space c)|]; reflexivity.
Qed.

Lemma ToLower_TrimSpace (s : string) :
  strings.ToLower (strings.TrimSpace s) = strings.TrimSpace (strings.ToLower s).
Proof. unfold strings.TrimSpace. rewrite ToLower_TrimRight, ToLower_TrimLeft. reflexivity. Qed.

Lemma isExitCommand_TrimSpace (v : string) :
  isExitCommand (strings.TrimSpace v) = isExitCommand v.
Proof.
  unfold isExitCommand. rewrite ToLower_TrimSpace, TrimSpace_idempotent. reflexivity.
Qed.

Lemma isExitCommand_ToLower (v : string) :
  isExitCommand (strings.ToLower v) = isExitCommand v.
Proof. unfold isExitCommand. rewrite ToLower_idempotent. reflexivity. Qed.

(** ** Single turns of the note wizard *)

#[local] Arguments strings.TrimSpace : simpl never.
#[local] Arguments strings.ToLower : simpl never.
#[local] Arguments isExitCommand : simpl never.
#[local] Arguments isBackCommand : simpl never.
#[local] Arguments String.eqb : simpl never.
#[local] Arguments textinput.clip : simpl never.
#[local] Arguments completeNoteSave : simpl never.
#[local] Arguments completeEventSave : simpl never.
#[local] Arguments Update : simpl never.
#[local] Arguments turns : simpl never.

Lemma clip_short (limit : Z) (s : string) :
  strings.len s <= limit -> textinput.clip limit s = s.
Proof.
  intros H. unfold textinput.clip.
  destruct (0 <? limit); simpl; [|reflexivity].
  destruct (limit <? strings.len s) eqn:E; [|reflexivity].
  apply Z.ltb_lt in E. lia.
Qed.

Lemma completeNoteSave_fields (w : World) (message : string) (m : model) :
  infoMessage (completeNoteSave w message m) = message
  /\ noteWizard_ (completeNoteSave w message m) = newNoteWizard None
  /\ store (completeNoteSave w message m) = store m
  /\ navOf (completeNoteSave w message m) = popNav (navOf m).
Proof.
  split; [|split; [|split]]; [| | |apply navOf_completeNoteSave];
    unfold completeNoteSave, refreshDashboard, loadAccountActivity,
      refreshAccountDetailAccount, popState, setMenuInput;
    repeat case_match; reflexivity.
Qed.


Lemma Update_createNote (w : World) (k : tea.Key) (m : model) :
  state m = stateCreateNote -> k <> tea.KeyCtrlC ->
  Update w (tea.KeyMsg k) m = Some (updateNoteWizard w (tea.KeyMsg k) m, false).
Proof. intros Hs Hk. unfold Update. rewrite Hs. destruct k; congruence. Qed.


Lemma Enter_inert (i : textinput.Model) : textinput.Update (tea.KeyMsg tea.KeyEnter) i = i.
Proof. unfold textinput.Update. destruct (textinput.focus i); reflexivity. Qed.

Lemma Focus_focused (i : textinput.Model) :
  textinput.Focused i = true ->
  (if negb (textinput.Focused i) then textinput.Focus i else i) = i.
Proof. intros ->. reflexivity. Qed.

Lemma note_content_typed (w : World) (m : model) (runes : string) :
  state m = stateCreateNote ->
  nw_stage (noteWizard_ m) = noteStageContent ->
  textinput.Focused (nw_contentInput (noteWizard_ m)) = true ->
  Update w (tea.KeyMsg (tea.KeyRunes runes)) m =
    Some (m <| noteWizard_ :=
                 noteWizard_ m
                   <| nw_contentInput :=
                        textinput.Update (tea.KeyMsg (tea.KeyRunes runes))
                          (nw_contentInput (noteWizard_ m)) |> |>, false).
Proof.
  intros Hs Hst Hf.
  rewrite Update_createNote by (exact Hs || discriminate).
  unfold updateNoteWizard. rewrite Hst, Focus_focused by exact Hf. reflexivity.
Qed.

Lemma note_content_accepted (w : World) (m : model) :
  state m = stateCreateNote ->
  nw_stage (noteWizard_ m) = noteStageContent ->
  nw_presetAccount (noteWizard_ m) = None ->
  textinput.Focused (nw_contentInput (noteWizard_ m)) = true ->
  strings.TrimSpace (textinput.Value (nw_contentInput (noteWizard_ m))) <> "" ->
  isExitCommand (strings.TrimSpace (textinput.Value (nw_contentInput (noteWizard_ m)))) = false ->
  isBackCommand (strings.TrimSpace (textinput.Value (nw_contentInput (noteWizard_ m)))) = false ->
  Update w (tea.KeyMsg tea.KeyEnter) m =
    Some (m <| noteWizard_ :=
                 noteWizard_ m <| nw_err := "" |> <| nw_stage := noteStageAssociatePrompt |> |>,
          false).
Proof.
  intros Hs Hst Hp Hf Hne Hexit Hback. apply String.eqb_neq in Hne.
  rewrite Update_createNote by (exact Hs || discriminate).
  unfold updateNoteWizard. rewrite Hst, Focus_focused, Enter_inert by exact Hf.
  cbn. rewrite Hexit, Hback, Hne, Hp.
  destruct m as [? ? ? ? ? ? ? ? ? ? ? ? ? ? [] ? ? ? ?]. reflexivity.
Qed.

Lemma note_answer_typed (w : World) (m : model) (runes : string) :
  state m = stateCreateNote ->
  nw_stage (noteWizard_ m) = noteStageAssociatePrompt ->
  Update w (tea.KeyMsg (tea.KeyRunes runes)) m =
    Some (m <| noteWizard_ :=
                 noteWizard_ m
                   <| nw_associateInput :=
                        textinput.Update (tea.KeyMsg (tea.KeyRunes runes))
                          (textinput.Focus (nw_associateInput (noteWizard_ m))) |> |>, false).
Proof.
  intros Hs Hst.
  rewrite Update_createNote by (exact Hs || discriminate).
  unfold updateNoteWizard. rewrite Hst. cbn.
  destruct (nw_associateInput (noteWizard_ m)) as [? ? ? ? []]; reflexivity.
Qed.

Lemma note_answer_no (w : World) (m : model) (id : option Z) :
  state m = stateCreateNote ->
  nw_stage (noteWizard_ m) = noteStageAssociatePrompt ->
  textinput.Focused (nw_associateInput (noteWizard_ m)) = true ->
  strings.ToLower (strings.TrimSpace (textinput.Value (nw_associateInput (noteWizard_ m)))) = "n" ->
  strings.TrimSpace (textinput.Value (nw_contentInput (noteWizard_ m))) <> "" ->
  w_Exec w (InsertNote (strings.TrimSpace (textinput.Value (nw_contentInput (noteWizard_ m))))
              None (Name (Config (cfg m))) {| unixNano := w_Now w; location := UTC |})
    = ExecOk id ->
  exists m',
    Update w (tea.KeyMsg tea.KeyEnter) m = Some (m', false)
    /\ executed (store m') =
         executed (store m) ++
           [InsertNote (strings.TrimSpace (textinput.Value (nw_contentInput (noteWizard_ m))))
              None (Name (Config (cfg m))) {| unixNano := w_Now w; location := UTC |}]
    /\ infoMessage m' = "Note saved"
    /\ noteWizard_ m' = newNoteWizard None
    /\ navOf m' = popNav (navOf m).
Proof.
  intros Hs Hst Hf Hn Hne Hexec.
  assert (Hne' : String.eqb (strings.TrimSpace (strings.TrimSpace
             (textinput.Value (nw_contentInput (noteWizard_ m))))) "" = false).
  { rewrite TrimSpace_idempotent. apply String.eqb_neq. exact Hne. }
  rewrite Update_createNote by (exact Hs || discriminate).
  unfold updateNoteWizard. rewrite Hst, Focus_focused, Enter_inert by exact Hf.
  cbn. rewrite Hn. cbn.
  unfold saveNote, storage.CreateNote. cbn. rewrite Hne'.
  replace (time.toUTC _) with {| unixNano := w_Now w; location := UTC |}
    by (destruct (time.IsZero _); reflexivity).
  rewrite Hexec.
  eexists. split; [reflexivity|].
  destruct (completeNoteSave_fields w "Note saved"
              (m <| noteWizard_ := noteWizard_ m
                      <| nw_associateInput :=
                           textinput.SetValue "" (nw_associateInput (noteWizard_ m)) |>
                      <| nw_associate := false |> |>
                 <| store := storage.record
                      (InsertNote (strings.TrimSpace
                                     (textinput.Value (nw_contentInput (noteWizard_ m))))
                         None (Name (Config (cfg m)))
                         {| unixNano := w_Now w; location := UTC |}) (store m) |>))
    as [H1 [H2 [H3 H4]]].
  split; [|split; [|split]].
  - etransitivity; [exact (f_equal executed H3) | reflexivity].
  - exact H1.
  - exact H2.
  - exact H4.
Qed.



(** ** The note wizard, end to end *)

(** The claim C7 as stated fails in its last part.  The wizard without a
    preset account is started from the create-choice screen, which
    replaces itself by the wizard instead of pushing it: after the note
    "Follow up" is saved unassociated, the session is on the main menu,
    not on the create-choice screen that was active when the wizard
    started. *)
Lemma C7_returns_below_create_choice :
  match run quietWorld (submit "4") session0 with
  | Some before =>
      state before = stateCreateChoice
      /\ match run quietWorld (submit "1") before with
         | Some started =>
             state started = stateCreateNote
             /\ nw_presetAccount (noteWizard_ started) = None
             /\ match run quietWorld (submit "Follow up" ++ submit "n") started with
                | Some final =>
                    infoMessage final = "Note saved"
                    /\ executed (store final) =
                         [InsertNote "Follow up" None "sam"
                            {| unixNano := w_Now quietWorld; location := UTC |}]
                    /\ state final = stateMainMenu
                    /\ state final <> state before
                | None => False
                end
         | None => False
         end
  | None => False
  end.
Proof. vm_compute. repeat split; discriminate. Qed.

(** C7, amended: the note wizard without a preset account.  From a
    session whose active view is the note wizard in its fresh state, the
    user types a content that is not blank and is neither escape command,
    presses enter, types "n" at the associate prompt and presses enter,
    and the database accepts the insertion.  Then a note with that content
    (trimmed) and no account is written, the message is "Note saved", the
    wizard is back in its fresh state, and the navigation stack is popped:
    the active view is the one that was on top of the stack when the
    wizard was running, which for a wizard started from the create-choice
    screen is the view below that screen. *)
Theorem C7_note_saved_unassociated (w1 w2 w3 w4 : World) (m : model) (content : string) (id : option Z) :
  state m = stateCreateNote ->
  noteWizard_ m = newNoteWizard None ->
  strings.len content <= 256 ->
  strings.TrimSpace content <> "" ->
  isExitCommand (strings.TrimSpace content) = false ->
  isBackCommand (strings.TrimSpace content) = false ->
  w_Exec w4 (InsertNote (strings.TrimSpace content) None (Name (Config (cfg m)))
               {| unixNano := w_Now w4; location := UTC |}) = ExecOk id ->
  exists m',
    turns [(w1, tea.KeyMsg (tea.KeyRunes content)); (w2, tea.KeyMsg tea.KeyEnter);
           (w3, tea.KeyMsg (tea.KeyRunes "n")); (w4, tea.KeyMsg tea.KeyEnter)] m = Some m'
    /\ executed (store m') =
         executed (store m) ++
           [InsertNote (strings.TrimSpace content) None (Name (Config (cfg m)))
              {| unixNano := w_Now w4; location := UTC |}]
    /\ infoMessage m' = "Note saved"
    /\ noteWizard_ m' = newNoteWizard None
    /\ navOf m' = popNav (navOf m).
Proof.
  intros Hs Hw Hlen Hne Hexit Hback Hexec.
  assert (Htyped : textinput.Update (tea.KeyMsg (tea.KeyRunes content))
                     (nw_contentInput (newNoteWizard None))
                   = nw_contentInput (newNoteWizard None) <| textinput.value := content |>).
  { cbn. change ("" +:+ content) with content. rewrite clip_short by exact Hlen. reflexivity. }
  unfold turns.
  rewrite note_content_typed by (rewrite ?Hw; reflexivity || exact Hs).
  rewrite Hw, Htyped.
  rewrite note_content_accepted by (reflexivity || assumption).
  rewrite note_answer_typed by (reflexivity || assumption).
  match goal with |- context [Update w4 _ ?m3] =>
    destruct (note_answer_no w4 m3 id) as [m' [HU Hprops]];
      [exact Hs | reflexivity | reflexivity | reflexivity | exact Hne | exact Hexec |]
  end.
  rewrite HU. exists m'. split; [reflexivity | exact Hprops].
Qed.

Lemma C7_note_saved_unassociated_witness :
  exists m',
    turns [(quietWorld, tea.KeyMsg (tea.KeyRunes "Follow up"));
           (quietWorld, tea.KeyMsg tea.KeyEnter);
           (quietWorld, tea.KeyMsg (tea.KeyRunes "n"));
           (quietWorld, tea.KeyMsg tea.KeyEnter)] noteSession = Some m'
    /\ executed (store m') =
         executed (store noteSession) ++
           [InsertNote (strings.TrimSpace "Follow up") None (Name (Config (cfg noteSession)))
              {| unixNano := w_Now quietWorld; location := UTC |}]
    /\ infoMessage m' = "Note saved"
    /\ noteWizard_ m' = newNoteWizard None
    /\ navOf m' = popNav (navOf noteSession).
Proof.
  apply (C7_note_saved_unassociated quietWorld quietWorld quietWorld quietWorld
           noteSession "Follow up" (Some 3)).
  - reflexivity.
  - reflexivity.
  - vm_compute. discriminate.
  - vm_compute. discriminate.
  - reflexivity.
  - reflexivity.
  - reflexivity.
Defined.

(** ** Rejections of the validators *)

Lemma Update_createEvent (w : World) (k : tea.Key) (m : model) :
  state m = stateCreateEvent -> k <> tea.KeyCtrlC ->
  Update w (tea.KeyMsg k) m = Some (updateEventWizard w (tea.KeyMsg k) m, false).
Proof. intros Hs Hk. unfold Update. rewrite Hs. destruct k; congruence. Qed.

Lemma Update_settings (w : World) (k : tea.Key) (m : model) :
  state m = stateSettings -> k <> tea.KeyCtrlC ->
  Update w (tea.KeyMsg k) m = Some (updateSettings w (tea.KeyMsg k) m, false).
Proof. intros Hs Hk. unfold Update. rewrite Hs. destruct k; congruence. Qed.

Lemma Update_createAccount (w : World) (k : tea.Key) (m : model) :
  state m = stateCreateAccount -> k <> tea.KeyCtrlC ->
  Update w (tea.KeyMsg k) m =
    match updateAccountForm w (tea.KeyMsg k) m with
    | Some m' => Some (m', false)
    | None => None
    end.
Proof. intros Hs Hk. unfold Update. rewrite Hs. destruct k; congruence. Qed.

Lemma exit_blank : isExitCommand "" = false. Proof. reflexivity. Qed.
Lemma back_blank : isBackCommand "" = false. Proof. reflexivity. Qed.

Lemma not_answer (value : string) :
  value ∉ ["y"; "yes"; "n"; "no"; ""] ->
  String.eqb value "y" || String.eqb value "yes" = false
  /\ String.eqb value "n" || String.eqb value "no" || String.eqb value "" = false.
Proof.
  intros H.
  assert (forall s, s ∈ ["y"; "yes"; "n"; "no"; ""] -> String.eqb value s = false) as Hs.
  { intros s Hin. apply String.eqb_neq. intros ->. contradiction. }
  rewrite !Hs; [auto| | | | |]; repeat first [apply list_elem_of_here | apply list_elem_of_further].
Qed.

(** The claim C8 as stated fails for the yes/no answer.  At the associate
    prompt of the note wizard the answer "maybe" is rejected with the
    error of the stage, on the same stage and view, but the answer is
    erased from its input: the buffer of the stage is not intact. *)
Lemma C8_rejected_answer_is_erased :
  match run quietWorld
          (submit "4" ++ submit "1" ++ submit "Follow up" ++ [tea.KeyMsg (tea.KeyRunes "maybe")])
          session0 with
  | Some m =>
      textinput.Value (nw_associateInput (noteWizard_ m)) = "maybe"
      /\ match Update quietWorld (tea.KeyMsg tea.KeyEnter) m with
         | Some (m', _) =>
             nw_err (noteWizard_ m') = "Please answer y or n"
             /\ nw_stage (noteWizard_ m') = nw_stage (noteWizard_ m)
             /\ state m' = state m
             /\ prevStates m' = prevStates m
             /\ textinput.Value (nw_associateInput (noteWizard_ m')) = ""
             /\ m' <> m <| noteWizard_ := noteWizard_ m <| nw_err := "Please answer y or n" |> |>
         | None => False
         end
  | None => False
  end.
Proof.
  vm_compute. repeat split. intros E.
  apply (f_equal (fun x => textinput.value (nw_associateInput (noteWizard_ x)))) in E.
  discriminate E.
Qed.

(** C8, amended: a rejection is local.  In every reachable session,
    whenever the validator of a stage rejects the submitted text (an empty
    required field of the account form, an empty note content, an empty
    event title, a malformed event schedule, an answer other than yes or
    no at an associate prompt, an empty name or time zone, a time zone
    that does not load), the session after the turn is the session before
    it with the error of the stage set and, at the associate prompts only,
    with the rejected answer erased from its input.  The active view, the
    navigation stack, the store, the stage and every other buffer are
    unchanged. *)
Theorem C8_rejection_is_local (w : World) (m m' : model) :
  reachable m ->
  rejection w m m' ->
  Update w (tea.KeyMsg tea.KeyEnter) m = Some (m', false)
  /\ state m' = state m
  /\ prevStates m' = prevStates m
  /\ store m' = store m
  /\ af_index (accountForm_ m') = af_index (accountForm_ m)
  /\ af_fields (accountForm_ m') = af_fields (accountForm_ m)
  /\ af_input (accountForm_ m') = af_input (accountForm_ m)
  /\ nw_stage (noteWizard_ m') = nw_stage (noteWizard_ m)
  /\ nw_contentInput (noteWizard_ m') = nw_contentInput (noteWizard_ m)
  /\ nw_accountInput (noteWizard_ m') = nw_accountInput (noteWizard_ m)
  /\ ew_stage (eventWizard_ m') = ew_stage (eventWizard_ m)
  /\ ew_titleInput (eventWizard_ m') = ew_titleInput (eventWizard_ m)
  /\ ew_detailsInput (eventWizard_ m') = ew_detailsInput (eventWizard_ m)
  /\ ew_scheduleInput (eventWizard_ m') = ew_scheduleInput (eventWizard_ m)
  /\ ew_accountInput (eventWizard_ m') = ew_accountInput (eventWizard_ m)
  /\ sm_mode (settings m') = sm_mode (settings m)
  /\ sm_input (settings m') = sm_input (settings m).
Proof.
  intros Hreach H. split; [|destruct H; cbn; repeat split; reflexivity].
  apply reachable_inputsOK in Hreach as (J1 & J2 & J3 & J4 & J5 & J6).
  unfold inputsOf in *. cbn [fst snd] in *.
  destruct H as [f Hs Hf Hr Hv
                | Hs Hst Hv
                | Hs Hst Hv
                | value Hs Hst Hv Hexit Hback Hne Hparse
                | value Hs Hst Hv Hexit Hback Hans
                | value Hs Hst Hv Hexit Hback Hans
                | Hs Hst Hv
                | Hs Hst Hv
                | value Hs Hst Hv Hexit Hback Hne Hload].
  - rewrite Update_createAccount by (assumption || discriminate).
    unfold updateAccountForm. rewrite Enter_inert.
    destruct m as [? ? ? ? ? ? ? ? ? ? ? ? ? [] ? ? ? ? ?]. cbn in *.
    rewrite Hv. cbn. rewrite Hf, Hr. reflexivity.
  - rewrite Update_createNote by (assumption || discriminate).
    unfold updateNoteWizard. rewrite Hst, Focus_focused, Enter_inert by exact J1.
    cbn. rewrite Hv. cbn.
    destruct m as [? ? ? ? ? ? ? ? ? ? ? ? ? ? [] ? ? ? ?]. reflexivity.
  - rewrite Update_createEvent by (assumption || discriminate).
    unfold updateEventWizard. rewrite Hst. cbv zeta.
    rewrite Focus_focused, Enter_inert by exact J3.
    cbn. rewrite Hv. cbn.
    destruct m as [? ? ? ? ? ? ? ? ? ? ? ? ? ? ? [] ? ? ?]. reflexivity.
  - assert (Hfo : textinput.Focused (ew_scheduleInput (eventWizard_ m)) = true).
    { apply tidy_typed; [exact J4|]. rewrite Hv. exact Hne. }
    rewrite Update_createEvent by (assumption || discriminate).
    unfold updateEventWizard. rewrite Hst. cbv zeta.
    rewrite Focus_focused, Enter_inert by exact Hfo.
    cbn. rewrite Hv, Hexit, Hback, Hparse. apply String.eqb_neq in Hne. rewrite Hne. cbn.
    destruct m as [? ? ? ? ? ? ? ? ? ? ? ? ? ? ? [] ? ? ?]. reflexivity.
  - pose proof (tidy_answered _ _ J2 Hv Hans) as Hfo.
    apply not_answer in Hans as [Hy Hn].
    rewrite Update_createNote by (assumption || discriminate).
    unfold updateNoteWizard. rewrite Hst, Focus_focused, Enter_inert by exact Hfo.
    cbn. rewrite Hv, Hexit, Hback, Hy, Hn.
    destruct m as [? ? ? ? ? ? ? ? ? ? ? ? ? ? [] ? ? ? ?]. reflexivity.
  - pose proof (tidy_answered _ _ J5 Hv Hans) as Hfo.
    apply not_answer in Hans as [Hy Hn].
    rewrite Update_createEvent by (assumption || discriminate).
    unfold updateEventWizard. rewrite Hst. cbv zeta.
    rewrite Focus_focused, Enter_inert by exact Hfo.
    cbn. rewrite Hv, Hexit, Hback, Hy, Hn.
    destruct m as [? ? ? ? ? ? ? ? ? ? ? ? ? ? ? [] ? ? ?]. reflexivity.
  - assert (Hfo : textinput.Focused (sm_input (settings m)) = true)
      by (apply J6; rewrite Hst; discriminate).
    rewrite Update_settings by (assumption || discriminate).
    unfold updateSettings. rewrite Hst. cbv zeta.
    rewrite Focus_focused, Enter_inert by exact Hfo.
    cbn. rewrite Hv. cbn.
    destruct m as [? ? ? ? ? ? ? ? ? ? ? ? ? ? ? ? ? [] ?]. reflexivity.
  - assert (Hfo : textinput.Focused (sm_input (settings m)) = true)
      by (apply J6; rewrite Hst; discriminate).
    rewrite Update_settings by (assumption || discriminate).
    unfold updateSettings. rewrite Hst. cbv zeta.
    rewrite Focus_focused, Enter_inert by exact Hfo.
    cbn. rewrite Hv. cbn.
    destruct m as [? ? ? ? ? ? ? ? ? ? ? ? ? ? ? ? ? [] ?]. reflexivity.
  - assert (Hfo : textinput.Focused (sm_input (settings m)) = true)
      by (apply J6; rewrite Hst; discriminate).
    rewrite Update_settings by (assumption || discriminate).
    unfold updateSettings. rewrite Hst. cbv zeta.
    rewrite Focus_focused, Enter_inert by exact Hfo.
    cbn. rewrite Hv, Hexit, Hback, Hload. apply String.eqb_neq in Hne. rewrite Hne. cbn.
    destruct m as [? ? ? ? ? ? ? ? ? ? ? ? ? ? ? ? ? [] ?]. reflexivity.
Qed.

Lemma C8_rejection_is_local_witness :
  match run quietWorld (submit "4" ++ submit "1") session0 with
  | Some m =>
      state m = stateCreateNote
      /\ Update quietWorld (tea.KeyMsg tea.KeyEnter) m =
           Some (m <| noteWizard_ := noteWizard_ m <| nw_err := "Note cannot be empty" |> |>,
                 false)
  | None => False
  end.
Proof.
  destruct (run quietWorld (submit "4" ++ submit "1") session0) as [m|] eqn:E.
  - assert (Hr : reachable m) by (eapply reachable_run; [apply reachable_init | exact E]).
    vm_compute in E. injection E as E.
    assert (Hs : state m = stateCreateNote) by (rewrite <- E; reflexivity).
    split; [exact Hs|].
    apply (C8_rejection_is_local quietWorld m _ Hr).
    apply reject_note_content; [exact Hs | rewrite <- E; reflexivity | rewrite <- E; reflexivity].
  - vm_compute in E. discriminate E.
Defined.

(** ** The exit command on the account detail screen *)

(** C6 fails on the account detail screen.  The session opens the
    accounts list and the first account, so that the account detail view
    is active above the main menu and the accounts list; the exit token
    "exit." is then submitted.  The account-detail table declares the
    token as a synonym of its back action: the session returns to the
    accounts list with the main menu still on the stack, instead of
    clearing the stack and activating the main menu. *)
Theorem C6_exit_on_account_detail_pops_once :
  isExitCommand "exit." = true
  /\ match run quietWorld (submit "2" ++ submit "1") session0 with
     | Some m =>
         state m = stateAccountDetail
         /\ prevStates m = [stateMainMenu; stateAccounts]
         /\ match run quietWorld (submit "exit.") m with
            | Some m' => state m' = stateAccounts /\ prevStates m' = [stateMainMenu]
            | None => False
            end
     | None => False
     end.
Proof. vm_compute. repeat split. Qed.

(** On that screen the synonym "quit" of the exit command is no command
    at all: the view and the stack stay as they are and an error is
    shown. *)
Lemma quit_on_account_detail_is_unknown :
  isExitCommand "quit" = true
  /\ match run quietWorld (submit "2" ++ submit "1" ++ submit "quit") session0 with
     | Some m =>
         state m = stateAccountDetail
         /\ prevStates m = [stateMainMenu; stateAccounts]
         /\ ad_err (accountDetail m) = "Unknown choice"
     | None => False
     end.
Proof. vm_compute. repeat split. Qed.


Lemma isExitCommand_cases (v : string) :
  isExitCommand v = true ->
  strings.TrimSpace (strings.ToLower v) = "exit."
  \/ strings.TrimSpace (strings.ToLower v) = "quit".
Proof.
  unfold isExitCommand. intros H. apply orb_true_iff in H as [H|H];
    apply String.eqb_eq in H; auto.
Qed.

Lemma Update_other (w : World) (m : model) :
  Update w (tea.KeyMsg tea.KeyEnter) m =
    match state m with
    | stateMainMenu => Some (updateMainMenu w (tea.KeyMsg tea.KeyEnter) m)
    | stateAccounts => Some (updateAccounts w (tea.KeyMsg tea.KeyEnter) m, false)
    | stateAccountDetail => Some (updateAccountDetail w (tea.KeyMsg tea.KeyEnter) m, false)
    | stateCreateAccount =>
        match updateAccountForm w (tea.KeyMsg tea.KeyEnter) m with
        | Some m => Some (m, false)
        | None => None
        end
    | stateCreateChoice => Some (updateCreateChoice w (tea.KeyMsg tea.KeyEnter) m, false)
    | stateCreateNote => Some (updateNoteWizard w (tea.KeyMsg tea.KeyEnter) m, false)
    | stateCreateEvent => Some (updateEventWizard w (tea.KeyMsg tea.KeyEnter) m, false)
    | stateDashboard => Some (updateDashboard w (tea.KeyMsg tea.KeyEnter) m, false)
    | _ => Some (updateSettings w (tea.KeyMsg tea.KeyEnter) m, false)
    end.
Proof. reflexivity. Qed.

Ltac eval_eqb :=
  repeat match goal with
  | |- context [String.eqb ?a ?b] =>
      let r := eval vm_compute in (String.eqb a b) in
      progress change (String.eqb a b) with r
  end.

Lemma Value_focused (i : textinput.Model) :
  textinput.Value (if negb (textinput.Focused i) then textinput.Focus i else i)
  = textinput.Value i.
Proof. destruct (textinput.Focused i); reflexivity. Qed.

Lemma exit_resets_settings (w : World) (m : model) :
  isExitCommand
    (textinput.Value
       match sm_mode (settings m) with
       | settingsViewing => menuInput (ensureMenuInput "1=Name  2=Timezone  3=Back" 40 m)
       | _ => sm_input (settings m)
       end) = true ->
  exists m' quit,
    Some (updateSettings w (tea.KeyMsg tea.KeyEnter) m, false) = Some (m', quit)
    /\ navOf m' = (stateMainMenu, []).
Proof.
  intros Hexit. unfold updateSettings. cbv zeta.
  destruct (sm_mode (settings m)); rewrite !Enter_inert; cbn.
  - set (m1 := ensureMenuInput _ 40 m) in *. clearbody m1.
    apply isExitCommand_cases in Hexit as [E|E]; rewrite E; eval_eqb; cbn;
      do 2 eexists; (split; [reflexivity|]); reflexivity.
  - rewrite Value_focused, isExitCommand_TrimSpace, Hexit.
    do 2 eexists; (split; [reflexivity|]); reflexivity.
  - rewrite Value_focused, isExitCommand_TrimSpace, Hexit.
    do 2 eexists; (split; [reflexivity|]); reflexivity.
Qed.

(** X27: the exit command outside the account detail screen.  On every
    screen but the account detail one, when the enter key arrives and the
    text of the active input is the exit command ("exit." or "quit", in
    any case, with white space around), the turn clears the stack and
    activates the main menu, before any validation of the stage. *)
Theorem exit_resets_outside_account_detail (w : World) (m : model) :
  navOf m ∈ validNavs ->
  state m <> stateAccountDetail ->
  isExitCommand (submittedText m) = true ->
  exists m' quit,
    Update w (tea.KeyMsg tea.KeyEnter) m = Some (m', quit)
    /\ navOf m' = (stateMainMenu, []).
Proof.
  intros Hv Hs Hexit. rewrite Update_other.
  unfold submittedText in Hexit.
  destruct (state m) eqn:Hst; try contradiction.
  - (* main menu *)
    assert (Hp : prevStates m = []).
    { unfold navOf, validNavs in Hv. rewrite Hst in Hv.
      repeat (apply elem_of_cons in Hv as [Hv|Hv]; [congruence|]).
      apply elem_of_nil in Hv. contradiction. }
    unfold updateMainMenu. cbv zeta. rewrite Enter_inert. cbn [tea.isEnter].
    set (m1 := ensureMenuInput "Choose an option" 32 m) in *.
    assert (Hn : navOf m1 = (stateMainMenu, [])).
    { unfold m1. rewrite navOf_ensureMenuInput. unfold navOf. rewrite Hst, Hp. reflexivity. }
    clearbody m1.
    apply isExitCommand_cases in Hexit as [E|E]; cbn; rewrite E;
      do 2 eexists; (split; [reflexivity|]); exact Hn.
  - (* dashboard *)
    unfold updateDashboard. cbv zeta. rewrite Enter_inert. cbn [tea.isEnter].
    set (m1 := ensureMenuInput _ 48 m) in *. clearbody m1.
    apply isExitCommand_cases in Hexit as [E|E]; cbn; rewrite E; eval_eqb; cbn;
      do 2 eexists; (split; [reflexivity|]); reflexivity.
  - (* accounts *)
    unfold updateAccounts. cbv zeta. rewrite Enter_inert. cbn.
    rewrite isExitCommand_TrimSpace, Hexit.
    do 2 eexists. split; reflexivity.
  - (* account form *)
    unfold updateAccountForm. cbv zeta. rewrite Enter_inert.
    replace (m <| accountForm_ := accountForm_ m <| af_input := af_input (accountForm_ m) |> |>)
      with m by (destruct m as [? ? ? ? ? ? ? ? ? ? ? ? ? [] ? ? ? ? ?]; reflexivity).
    rewrite isExitCommand_TrimSpace, Hexit.
    do 2 eexists. split; reflexivity.
  - (* create choice *)
    unfold updateCreateChoice. cbv zeta. rewrite Enter_inert. cbn [tea.isEnter].
    set (m1 := ensureMenuInput _ 32 m) in *. clearbody m1.
    apply isExitCommand_cases in Hexit as [E|E]; cbn; rewrite E; eval_eqb; cbn;
      do 2 eexists; (split; [reflexivity|]); reflexivity.
  - (* note wizard *)
    unfold updateNoteWizard. cbv zeta.
    destruct (nw_stage (noteWizard_ m)); rewrite !Enter_inert; cbn;
      rewrite Value_focused, ?isExitCommand_ToLower, ?isExitCommand_TrimSpace, Hexit;
      do 2 eexists; (split; [reflexivity|]); reflexivity.
  - (* event wizard *)
    unfold updateEventWizard. cbv zeta.
    destruct (ew_stage (eventWizard_ m)); rewrite !Enter_inert; cbn;
      rewrite Value_focused, ?isExitCommand_ToLower, ?isExitCommand_TrimSpace, Hexit;
      do 2 eexists; (split; [reflexivity|]); reflexivity.
  - (* settings *)
    apply (exit_resets_settings w m Hexit).
  - apply (exit_resets_settings w m Hexit).
  - apply (exit_resets_settings w m Hexit).
Qed.

(* ===================================================================== *)
(** * Part III: further properties *)
(* ===================================================================== *)

(** ** What a resolution means *)

Lemma directMatch_declared (options : list menuOption) (value id : string) :
  directMatch options value = Some id ->
  exists o, o ∈ options /\ mo_id o = id /\ value ∈ mo_synonyms o.
Proof.
  induction options as [|o options IH]; simpl; [discriminate|].
  destruct (existsb (fun syn => String.eqb value syn) (mo_synonyms o)) eqn:E.
  - intros [= <-]. apply existsb_elem_of in E as [s [Hs Heq]].
    apply String.eqb_eq in Heq. subst s.
    exists o. split; [left|]. auto.
  - intros H. destruct (IH H) as [o' [Ho' H']]. exists o'. split; [right; exact Ho' | exact H'].
Qed.

(** X1: a successful resolution is never arbitrary.  For every table,
    when the resolver answers [id] for an input, the input is not blank
    and, trimmed and lower-cased, it is a synonym declared by an option
    with identifier [id], or the beginning of a keyword of such an
    option. *)
Theorem resolveSelection_sound (options : list menuOption) (input id : string) :
  resolveSelection options input = Some id ->
  let value := strings.TrimSpace (strings.ToLower input) in
  strings.TrimSpace input <> ""
  /\ ((exists o, o ∈ options /\ mo_id o = id /\ value ∈ mo_synonyms o)
      \/ candidate options value id).
Proof.
  intros H value. unfold resolveSelection in H. fold value in H.
  destruct (String.eqb_spec value "") as [E|Hne]; [discriminate|].
  split.
  - intros Hblank. apply Hne. unfold value.
    rewrite <- ToLower_TrimSpace, Hblank. reflexivity.
  - destruct (directMatch options value) as [id'|] eqn:Hd.
    + injection H as <-. left. apply directMatch_declared. exact Hd.
    + right. destruct (decide (size (prefixMatches options value) = 1%nat)) as [Hsize|];
        [|discriminate].
      apply size_1_elem_of in Hsize as [x Hx].
      apply prefixMatches_candidate.
      assert (Hel : elements (prefixMatches options value) = [x]).
      { apply leibniz_equiv in Hx. rewrite Hx. apply elements_singleton. }
      rewrite Hel in H. injection H as <-.
      apply leibniz_equiv in Hx. rewrite Hx. apply elem_of_singleton. reflexivity.
Qed.

Lemma resolveSelection_sound_witness :
  strings.TrimSpace "Set" <> ""
  /\ ((exists o, o ∈ mainMenuOptions /\ mo_id o = "settings"
                 /\ strings.TrimSpace (strings.ToLower "Set") ∈ mo_synonyms o)
      \/ candidate mainMenuOptions (strings.TrimSpace (strings.ToLower "Set")) "settings").
Proof.
  apply (resolveSelection_sound mainMenuOptions "Set" "settings"). reflexivity.
Defined.

Lemma resolveSelection_ToLower (options : list menuOption) (input : string) :
  resolveSelection options (strings.ToLower input) = resolveSelection options input.
Proof. unfold resolveSelection. rewrite ToLower_idempotent. reflexivity. Qed.

Lemma resolveSelection_TrimSpace (options : list menuOption) (input : string) :
  resolveSelection options (strings.TrimSpace input) = resolveSelection options input.
Proof.
  unfold resolveSelection. rewrite ToLower_TrimSpace, TrimSpace_idempotent. reflexivity.
Qed.

(** X2: the resolvers do not see the case of the letters nor the white
    space around the input: an input, its lower-cased form and its
    trimmed form resolve alike, in every table. *)
Theorem resolveSelection_normalises (options : list menuOption) (input : string) :
  resolveSelection options (strings.ToLower input) = resolveSelection options input
  /\ resolveSelection options (strings.TrimSpace input) = resolveSelection options input
  /\ resolveMainMenuSelection (strings.TrimSpace (strings.ToLower input))
      = resolveMainMenuSelection input
  /\ resolveAccountDetailAction (strings.TrimSpace (strings.ToLower input))
      = resolveAccountDetailAction input.
Proof.
  unfold resolveMainMenuSelection, resolveAccountDetailAction.
  rewrite !resolveSelection_TrimSpace, !resolveSelection_ToLower. auto.
Qed.

(** ** What the account selection resolver returns *)

Lemma prefixScan_spec (queryLower : string) (list : list Account) (match0 : Account) (count0 : Z) :
  let r := prefixScan queryLower (match0, count0) list in
  count0 <= r.2
  /\ (r.2 = count0 -> r.1 = match0)
  /\ (count0 < r.2 -> r.1 ∈ list).
Proof.
  revert match0 count0. unfold prefixScan.
  induction list as [|a list IH]; intros match0 count0; simpl.
  - split; [lia|]. split; [auto|lia].
  - destruct (strings.HasPrefix (strings.ToLower (a_Name a)) queryLower).
    + destruct (IH a (count0 + 1)) as (H1 & H2 & H3).
      split; [lia|]. split; [lia|].
      intros _. destruct (Z.eq_dec
        (foldl (fun '(match_, count) a0 =>
                  if strings.HasPrefix (strings.ToLower (a_Name a0)) queryLower
                  then (a0, count + 1) else (match_, count)) (a, count0 + 1) list).2
        (count0 + 1)) as [E|E].
      * rewrite (H2 E). left.
      * right. apply H3. lia.
    + destruct (IH match0 count0) as (H1 & H2 & H3).
      split; [lia|]. split; [exact H2|].
      intros Hlt. right. apply H3. exact Hlt.
Qed.

(** X3: the account selection resolver only ever selects an account of
    the session: whatever the input, the account it returns is an entry
    of the filtered list or of the full list, never the zero account that
    the prefix scan starts from. *)
Theorem resolveAccountSelection_sound (m : model) (input : string) (account : Account) :
  resolveAccountSelection m input = Some account ->
  account ∈ filteredAccounts m \/ account ∈ accounts m.
Proof.
  unfold resolveAccountSelection.
  destruct ((length (accounts m) =? 0)%nat && (length (filteredAccounts m) =? 0)%nat);
    [discriminate|].
  destruct (String.eqb (strings.TrimSpace input) "").
  { destruct (filteredAccounts m) as [|only [|? ?]]; try discriminate.
    intros [= <-]. left. left. }
  cbv zeta.
  set (query := if strings.HasPrefix _ "open " then _ else _).
  clearbody query.
  match goal with |- match ?byIndex with _ => _ end = _ -> _ =>
    destruct byIndex as [a|] eqn:Hidx end.
  { intros [= <-]. left.
    destruct (strconv.Atoi query) as [idx|]; [|discriminate].
    destruct ((0 <? idx) && (idx <=? Z.of_nat (length (filteredAccounts m))));
      [|discriminate].
    eapply list_elem_of_lookup_2. exact Hidx. }
  clear Hidx.
  destruct (List.find _ (filteredAccounts m ++ accounts m)) as [a|] eqn:Hfind.
  { intros [= <-]. apply find_some in Hfind as [Hin _].
    apply list_elem_of_In, elem_of_app in Hin. exact Hin. }
  clear Hfind.
  pose proof (prefixScan_spec (strings.ToLower query) (filteredAccounts m) emptyAccount 0)
    as (H1 & H2 & H3).
  destruct (prefixScan (strings.ToLower query) (emptyAccount, 0) (filteredAccounts m))
    as [match1 count1].
  cbn [fst snd] in *.
  destruct (Z.eqb_spec count1 1) as [E1|N1].
  { intros [= <-]. left. apply H3. lia. }
  pose proof (prefixScan_spec (strings.ToLower query) (accounts m) match1 count1)
    as (K1 & K2 & K3).
  destruct (prefixScan (strings.ToLower query) (match1, count1) (accounts m))
    as [match2 count2].
  cbn [fst snd] in *.
  destruct (Z.eqb_spec count2 1) as [E2|N2]; [|discriminate].
  intros [= <-]. right. apply K3. lia.
Qed.

Lemma resolveAccountSelection_sound_witness :
  acmeCorp ∈ filteredAccounts session0 \/ acmeCorp ∈ accounts session0.
Proof.
  apply (resolveAccountSelection_sound session0 "open acme c"). reflexivity.
Defined.

Lemma ToLower_String (c : ascii) (rest : string) :
  strings.ToLower (String c rest) = String (strings.lowerByte c) (strings.ToLower rest).
Proof. reflexivity. Qed.

Lemma HasPrefix_head (c d : ascii) (rest p : string) :
  strings.lowerByte c <> d ->
  strings.HasPrefix (strings.ToLower (String c rest)) (String d p) = false.
Proof.
  intros Hne. rewrite ToLower_String. unfold strings.HasPrefix. simpl.
  destruct (Ascii.ascii_dec d (strings.lowerByte c)); [congruence | reflexivity].
Qed.

(** A string that [strconv.Atoi] accepts begins with a sign or a digit. *)
Lemma Atoi_head (s : string) (idx : Z) :
  strconv.Atoi s = Some idx ->
  exists c rest, s = String c rest
    /\ strings.lowerByte c <> "o"%char /\ strings.lowerByte c <> "v"%char
    /\ strings.lowerByte c <> "s"%char /\ strings.lowerByte c <> "#"%char.
Proof.
  destruct s as [|c rest]; [discriminate|]. intros H.
  exists c, rest. split; [reflexivity|].
  destruct c as [[] [] [] [] [] [] [] []]; cbn in H; try discriminate H;
    repeat split; vm_compute; discriminate.
Qed.

(** X4: a number selects by position.  When the trimmed input, or what
    follows a leading "#", reads as a decimal number between 1 and the
    length of the filtered list, the resolver selects the entry of the
    filtered list at that position, before it looks at any name. *)
Theorem resolveAccountSelection_by_number (m : model) (input query : string) (idx : Z) :
  strings.TrimSpace input = query \/ strings.TrimSpace input = String "#" query ->
  strconv.Atoi (strings.TrimSpace query) = Some idx ->
  0 < idx <= Z.of_nat (length (filteredAccounts m)) ->
  exists account, filteredAccounts m !! Z.to_nat (idx - 1) = Some account
    /\ resolveAccountSelection m input = Some account.
Proof.
  intros Hin Hatoi Hidx.
  destruct (lookup_lt_is_Some_2 (filteredAccounts m) (Z.to_nat (idx - 1)) ltac:(lia))
    as [account Hacc].
  exists account. split; [exact Hacc|].
  unfold resolveAccountSelection.
  replace ((length (filteredAccounts m) =? 0)%nat) with false
    by (symmetry; apply Nat.eqb_neq; lia).
  rewrite andb_false_r. cbv zeta.
  assert (Hq : (if strings.HasPrefix (strings.ToLower (strings.TrimSpace input)) "open "
                then strings.TrimSpace (strings.sliceFrom 5 (strings.TrimSpace input))
                else if strings.HasPrefix (strings.ToLower (strings.TrimSpace input)) "view "
                then strings.TrimSpace (strings.sliceFrom 5 (strings.TrimSpace input))
                else if strings.HasPrefix (strings.ToLower (strings.TrimSpace input)) "select "
                then strings.TrimSpace (strings.sliceFrom 7 (strings.TrimSpace input))
                else if strings.HasPrefix (strings.ToLower (strings.TrimSpace input)) "#"
                then strings.TrimSpace (strings.sliceFrom 1 (strings.TrimSpace input))
                else strings.TrimSpace input) = strings.TrimSpace query
               /\ strings.TrimSpace input <> "").
  { destruct Hin as [E|E].
    - assert (Eq : strings.TrimSpace query = query)
        by (rewrite <- E; apply TrimSpace_idempotent).
      rewrite Eq in *. rewrite E.
      destruct (Atoi_head _ _ Hatoi) as (c & rest & -> & Ho & Hv & Hs & Hh).
      rewrite !HasPrefix_head by assumption. split; [reflexivity | discriminate].
    - rewrite E. split; [|discriminate].
      rewrite !HasPrefix_head by (vm_compute; discriminate).
      rewrite ToLower_String. change (strings.lowerByte "#") with "#"%char.
      unfold strings.HasPrefix. simpl.
      destruct (strings.ToLower query); reflexivity. }
  destruct Hq as [Hq Hne]. rewrite Hq.
  apply String.eqb_neq in Hne. rewrite Hne.
  rewrite Hatoi.
  replace ((0 <? idx) && (idx <=? Z.of_nat (length (filteredAccounts m)))) with true
    by (symmetry; apply andb_true_iff; split; [apply Z.ltb_lt | apply Z.leb_le]; lia).
  rewrite Hacc. reflexivity.
Qed.

Lemma resolveAccountSelection_by_number_witness :
  exists account, filteredAccounts session0 !! Z.to_nat (2 - 1) = Some account
    /\ resolveAccountSelection session0 " #2 " = Some account.
Proof.
  apply (resolveAccountSelection_by_number session0 " #2 " "2" 2).
  - right. reflexivity.
  - reflexivity.
  - vm_compute. split; [reflexivity | discriminate].
Defined.

(** ** The shape of the navigation *)

Lemma reachable_default_run (w : World) (msgs : list tea.Msg) (m : model) :
  reachable m -> reachable (default m (run w msgs m)).
Proof.
  intros H. destruct (run w msgs m) as [m'|] eqn:E; [|exact H].
  exact (reachable_run w msgs m m' H E).
Qed.

Lemma session0_reachable : reachable session0.
Proof. apply reachable_init. Qed.

Lemma noteSession_reachable : reachable noteSession.
Proof. exact (reachable_default_run _ _ _ session0_reachable). Qed.

(** X5: the main menu is the root of every navigation.  In every
    reachable session the stack is empty exactly when the main menu is
    active; otherwise the main menu is the bottom entry of the stack, and
    the stack never holds more than three views. *)
Theorem reachable_root_is_main_menu (m : model) :
  reachable m ->
  (state m = stateMainMenu <-> prevStates m = [])
  /\ head (prevStates m ++ [state m]) = Some stateMainMenu
  /\ (length (prevStates m) <= 3)%nat.
Proof.
  intros H. apply reachable_validNavs in H.
  unfold navOf, validNavs in H.
  repeat (apply elem_of_cons in H as [H|H];
          [injection H as -> ->; repeat split; simpl; (discriminate || lia || auto)|]).
  apply elem_of_nil in H. contradiction.
Qed.

Lemma reachable_root_is_main_menu_witness :
  (state noteSession = stateMainMenu <-> prevStates noteSession = [])
  /\ head (prevStates noteSession ++ [state noteSession]) = Some stateMainMenu
  /\ (length (prevStates noteSession) <= 3)%nat.
Proof. apply (reachable_root_is_main_menu noteSession noteSession_reachable). Defined.

(** X6: two view constants are never used.  No reachable session has
    [stateSettingsEditName] or [stateSettingsEditTimezone] as its active
    view or on its stack: the two editors of the settings screen run
    inside [stateSettings], told apart by the mode of the settings
    model. *)
Theorem reachable_settings_edit_states_unused (m : model) :
  reachable m ->
  forall v, v = stateSettingsEditName \/ v = stateSettingsEditTimezone ->
  state m <> v /\ v ∉ prevStates m.
Proof.
  intros H v Hv. apply reachable_validNavs in H.
  unfold navOf, validNavs in H.
  repeat (apply elem_of_cons in H as [H|H];
          [injection H as -> ->; split;
           [destruct Hv as [-> | ->]; discriminate
           |intros Hin; repeat (apply elem_of_cons in Hin as [->|Hin];
                                [destruct Hv; discriminate|]);
            apply elem_of_nil in Hin; contradiction]|]).
  apply elem_of_nil in H. contradiction.
Qed.

Lemma reachable_settings_edit_states_unused_witness :
  state noteSession <> stateSettingsEditName
  /\ stateSettingsEditName ∉ prevStates noteSession.
Proof.
  apply (reachable_settings_edit_states_unused noteSession noteSession_reachable).
  left. reflexivity.
Defined.

(** ** Leaving the program *)

Lemma isEnter_true (msg : tea.Msg) : tea.isEnter msg = true -> msg = tea.KeyMsg tea.KeyEnter.
Proof. destruct msg as [[]| |]; simpl; congruence. Qed.

Lemma isEnter_false (msg : tea.Msg) : msg <> tea.KeyMsg tea.KeyEnter -> tea.isEnter msg = false.
Proof. destruct msg as [[]| |]; simpl; congruence. Qed.

Lemma updateMainMenu_quit (w : World) (msg : tea.Msg) (m m' : model) :
  updateMainMenu w msg m = (m', true) ->
  msg = tea.KeyMsg tea.KeyEnter
  /\ resolveMainMenuSelection
       (textinput.Value (menuInput (ensureMenuInput "Choose an option" 32 m))) = Some menuQuit.
Proof.
  unfold updateMainMenu. cbv zeta.
  set (m1 := ensureMenuInput "Choose an option" 32 m). clearbody m1.
  destruct (tea.isEnter msg) eqn:Hm; [|discriminate].
  apply isEnter_true in Hm. subst msg. rewrite Enter_inert.
  cbn [menuInput setter set_menuInput set_showSplash].
  unfold resolveMainMenuSelection at 1.
  rewrite resolveSelection_TrimSpace, resolveSelection_ToLower.
  fold (resolveMainMenuSelection (textinput.Value (menuInput m1))).
  destruct (resolveMainMenuSelection (textinput.Value (menuInput m1))) as [action|].
  - repeat (match goal with
            | |- context [String.eqb action ?x] =>
                destruct (String.eqb_spec action x) as [->|?]
            end; try discriminate).
    intros _. split; reflexivity.
  - destruct (_ || _); discriminate.
Qed.

(** X7: the program ends on request only.  A turn asks the program to
    quit only when its message is the interrupt key, or when the enter
    key arrives on the main menu with a text that resolves to the quit
    option; no other screen and no other message ends the session. *)
Theorem quit_only_on_request (w : World) (msg : tea.Msg) (m m' : model) :
  Update w msg m = Some (m', true) ->
  msg = tea.KeyMsg tea.KeyCtrlC
  \/ (state m = stateMainMenu /\ msg = tea.KeyMsg tea.KeyEnter
      /\ resolveMainMenuSelection (submittedText m) = Some menuQuit).
Proof.
  assert (Hd : forall msg0 m0,
             match state m0 with
             | stateMainMenu => Some (updateMainMenu w msg0 m0)
             | stateDashboard => Some (updateDashboard w msg0 m0, false)
             | stateAccounts => Some (updateAccounts w msg0 m0, false)
             | stateAccountDetail => Some (updateAccountDetail w msg0 m0, false)
             | stateCreateAccount =>
                 match updateAccountForm w msg0 m0 with
                 | Some m => Some (m, false)
                 | None => None
                 end
             | stateCreateChoice => Some (updateCreateChoice w msg0 m0, false)
             | stateCreateNote => Some (updateNoteWizard w msg0 m0, false)
             | stateCreateEvent => Some (updateEventWizard w msg0 m0, false)
             | _ => Some (updateSettings w msg0 m0, false)
             end = Some (m', true) ->
             state m0 = stateMainMenu /\ msg0 = tea.KeyMsg tea.KeyEnter
             /\ resolveMainMenuSelection
                  (textinput.Value (menuInput (ensureMenuInput "Choose an option" 32 m0)))
                = Some menuQuit).
  { intros msg0 m0 H. destruct (state m0); try discriminate H.
    - injection H as H. apply updateMainMenu_quit in H. tauto.
    - destruct (updateAccountForm w msg0 m0); discriminate H. }
  unfold Update. intros H.
  destruct msg as [k | width_ height_ |].
  - destruct k; try (left; reflexivity); right; apply Hd in H as (Hs & Hm & Hq);
      try discriminate Hm.
    unfold submittedText. rewrite Hs. auto.
  - apply Hd in H as (_ & Hm & _). discriminate Hm.
  - apply Hd in H as (_ & Hm & _). discriminate Hm.
Qed.

Lemma quit_only_on_request_witness :
  tea.KeyMsg tea.KeyEnter = tea.KeyMsg tea.KeyCtrlC
  \/ (state (default session0 (run quietWorld [tea.KeyMsg (tea.KeyRunes "q")] session0))
        = stateMainMenu
      /\ tea.KeyMsg tea.KeyEnter = tea.KeyMsg tea.KeyEnter
      /\ resolveMainMenuSelection
           (submittedText (default session0
                             (run quietWorld [tea.KeyMsg (tea.KeyRunes "q")] session0)))
         = Some menuQuit).
Proof.
  eapply (quit_only_on_request quietWorld). vm_compute. reflexivity.
Defined.

(** ** What a turn writes *)

Lemma persistOf_set_state v (m : model) : persistOf (set_state v m) = persistOf m.
Proof. reflexivity. Qed.
Lemma persistOf_set_prevStates v (m : model) : persistOf (set_prevStates v m) = persistOf m.
Proof. reflexivity. Qed.
Lemma persistOf_set_width v (m : model) : persistOf (set_width v m) = persistOf m.
Proof. reflexivity. Qed.
Lemma persistOf_set_height v (m : model) : persistOf (set_height v m) = persistOf m.
Proof. reflexivity. Qed.
Lemma persistOf_set_infoMessage v (m : model) : persistOf (set_infoMessage v m) = persistOf m.
Proof. reflexivity. Qed.
Lemma persistOf_set_errMessage v (m : model) : persistOf (set_errMessage v m) = persistOf m.
Proof. reflexivity. Qed.
Lemma persistOf_set_showSplash v (m : model) : persistOf (set_showSplash v m) = persistOf m.
Proof. reflexivity. Qed.
Lemma persistOf_set_menuInput v (m : model) : persistOf (set_menuInput v m) = persistOf m.
Proof. reflexivity. Qed.
Lemma persistOf_set_accounts v (m : model) : persistOf (set_accounts v m) = persistOf m.
Proof. reflexivity. Qed.
Lemma persistOf_set_accountFilter v (m : model) : persistOf (set_accountFilter v m) = persistOf m.
Proof. reflexivity. Qed.
Lemma persistOf_set_filteredAccounts v (m : model) : persistOf (set_filteredAccounts v m) = persistOf m.
Proof. reflexivity. Qed.
Lemma persistOf_set_accountForm_ v (m : model) : persistOf (set_accountForm_ v m) = persistOf m.
Proof. reflexivity. Qed.
Lemma persistOf_set_noteWizard_ v (m : model) : persistOf (set_noteWizard_ v m) = persistOf m.
Proof. reflexivity. Qed.
Lemma persistOf_set_eventWizard_ v (m : model) : persistOf (set_eventWizard_ v m) = persistOf m.
Proof. reflexivity. Qed.
Lemma persistOf_set_dashboard v (m : model) : persistOf (set_dashboard v m) = persistOf m.
Proof. reflexivity. Qed.
Lemma persistOf_set_settings v (m : model) : persistOf (set_settings v m) = persistOf m.
Proof. reflexivity. Qed.
Lemma persistOf_set_accountDetail v (m : model) : persistOf (set_accountDetail v m) = persistOf m.
Proof. reflexivity. Qed.
Lemma persistOf_set_store v (m : model) : persistOf (set_store v m) = (v, cfg m).
Proof. reflexivity. Qed.
Lemma persistOf_set_cfg v (m : model) : persistOf (set_cfg v m) = (store m, v).
Proof. reflexivity. Qed.

Create Rewrite HintDb persist.
#[local] Hint Rewrite persistOf_set_state persistOf_set_prevStates persistOf_set_width persistOf_set_height persistOf_set_infoMessage persistOf_set_errMessage persistOf_set_showSplash persistOf_set_menuInput persistOf_set_accounts persistOf_set_accountFilter persistOf_set_filteredAccounts persistOf_set_accountForm_ persistOf_set_noteWizard_ persistOf_set_eventWizard_ persistOf_set_dashboard persistOf_set_settings persistOf_set_accountDetail persistOf_set_store persistOf_set_cfg : persist.


Lemma persistOf_pushState (v : viewState) (m : model) : persistOf (pushState v m) = persistOf m.
Proof. reflexivity. Qed.

Lemma persistOf_popState (m : model) : persistOf (popState m) = persistOf m.
Proof. unfold popState. case_match; reflexivity. Qed.

Lemma persistOf_setMenuInput (p : string) (l : Z) (m : model) :
  persistOf (setMenuInput p l m) = persistOf m.
Proof. reflexivity. Qed.

Lemma persistOf_ensureMenuInput (p : string) (l : Z) (m : model) :
  persistOf (ensureMenuInput p l m) = persistOf m.
Proof. unfold ensureMenuInput. repeat case_match; reflexivity. Qed.

Lemma persistOf_resetMessages (m : model) : persistOf (resetMessages m) = persistOf m.
Proof. reflexivity. Qed.

Lemma persistOf_refreshAccountDetailAccount (w : World) (m : model) :
  persistOf (refreshAccountDetailAccount w m) = persistOf m.
Proof. unfold refreshAccountDetailAccount. repeat case_match; reflexivity. Qed.

Lemma persistOf_loadAccountActivity (w : World) (m : model) :
  persistOf (loadAccountActivity w m) = persistOf m.
Proof. unfold loadAccountActivity. repeat case_match; reflexivity. Qed.

Lemma persistOf_refreshAccounts (w : World) (m : model) :
  persistOf (refreshAccounts w m) = persistOf m.
Proof. unfold refreshAccounts. repeat case_match; reflexivity. Qed.

Lemma persistOf_refreshDashboard (w : World) (now : Time) (m : model) :
  persistOf (refreshDashboard w now m) = persistOf m.
Proof. unfold refreshDashboard. repeat case_match; reflexivity. Qed.

Lemma persistOf_applyAccountFilter (w : World) (m : model) :
  persistOf (applyAccountFilter w m) = persistOf m.
Proof. unfold applyAccountFilter. repeat case_match; reflexivity. Qed.

Lemma persistOf_exitToMainMenu (m : model) : persistOf (exitToMainMenu m) = persistOf m.
Proof. reflexivity. Qed.

Lemma persistOf_focusAfterForm (m : model) : persistOf (focusAfterForm m) = persistOf m.
Proof. unfold focusAfterForm. repeat case_match; reflexivity. Qed.

Lemma persistOf_openAccountDetail (w : World) (a : Account) (m : model) :
  persistOf (openAccountDetail w a m) = persistOf m.
Proof.
  unfold openAccountDetail.
  rewrite persistOf_setMenuInput, persistOf_pushState, persistOf_refreshAccountDetailAccount.
  reflexivity.
Qed.

Lemma persistOf_cancelAccountForm (m : model) : persistOf (cancelAccountForm m) = persistOf m.
Proof.
  unfold cancelAccountForm. rewrite persistOf_focusAfterForm, persistOf_popState.
  case_match; reflexivity.
Qed.

Lemma persistOf_completeNoteSave (w : World) (msg : string) (m : model) :
  persistOf (completeNoteSave w msg m) = persistOf m.
Proof.
  unfold completeNoteSave. rewrite persistOf_refreshDashboard.
  repeat case_match;
    rewrite ?persistOf_loadAccountActivity, ?persistOf_refreshAccountDetailAccount,
            ?persistOf_setMenuInput, persistOf_popState; reflexivity.
Qed.

Lemma persistOf_completeEventSave (w : World) (msg : string) (m : model) :
  persistOf (completeEventSave w msg m) = persistOf m.
Proof.
  unfold completeEventSave. rewrite persistOf_refreshDashboard.
  repeat case_match;
    rewrite ?persistOf_loadAccountActivity, ?persistOf_refreshAccountDetailAccount,
            ?persistOf_setMenuInput, persistOf_popState; reflexivity.
Qed.

#[local] Hint Rewrite persistOf_pushState persistOf_popState persistOf_setMenuInput
  persistOf_ensureMenuInput persistOf_resetMessages persistOf_refreshAccountDetailAccount
  persistOf_loadAccountActivity persistOf_refreshAccounts persistOf_refreshDashboard
  persistOf_applyAccountFilter persistOf_exitToMainMenu persistOf_focusAfterForm
  persistOf_openAccountDetail persistOf_cancelAccountForm persistOf_completeNoteSave
  persistOf_completeEventSave : persist.

(** The four writers of the storage package: an error leaves the log as
    it is, a success appends the statement of the record. *)
Lemma CreateAccount_log (w : World) (s s' : Store) (a a' : Account) (err : option error) :
  storage.CreateAccount w s a = (s', a', err) ->
  match err with
  | Some _ => s' = s
  | None => exists q, executed s' = executed s ++ [q]
  end.
Proof.
  unfold storage.CreateAccount. cbv zeta.
  repeat case_match; intros [=]; subst; first [reflexivity | eexists; reflexivity].
Qed.

Lemma UpdateAccount_log (w : World) (s s' : Store) (a : Account) (err : option error) :
  storage.UpdateAccount w s a = (s', err) ->
  match err with
  | Some _ => s' = s
  | None => exists q, executed s' = executed s ++ [q]
  end.
Proof.
  unfold storage.UpdateAccount. cbv zeta.
  repeat case_match; intros [=]; subst; first [reflexivity | eexists; reflexivity].
Qed.

Lemma CreateNote_log (w : World) (s s' : Store) (n : Note) (err : option error) :
  storage.CreateNote w s n = (s', err) ->
  match err with
  | Some _ => s' = s
  | None => exists q, executed s' = executed s ++ [q]
  end.
Proof.
  unfold storage.CreateNote. cbv zeta.
  repeat case_match; intros [=]; subst; first [reflexivity | eexists; reflexivity].
Qed.

Lemma CreateEvent_log (w : World) (s s' : Store) (e : Event) (err : option error) :
  storage.CreateEvent w s e = (s', err) ->
  match err with
  | Some _ => s' = s
  | None => exists q, executed s' = executed s ++ [q]
  end.
Proof.
  unfold storage.CreateEvent. cbv zeta.
  repeat case_match; intros [=]; subst; first [reflexivity | eexists; reflexivity].
Qed.

Lemma writesOne_refl (enter : bool) (p : Store * ConfigStore) : writesOne enter p p.
Proof. split; [reflexivity | left; reflexivity]. Qed.

Lemma saveNote_persist (w : World) (a : option NullInt64) (m m' : model) (err : option error) :
  saveNote w a m = (m', err) -> writesOne true (persistOf m) (persistOf m').
Proof.
  unfold saveNote. cbv zeta.
  destruct (storage.CreateNote _ _ _) as [store_ err'] eqn:E. intros [= <- <-].
  apply CreateNote_log in E. split; [reflexivity|]. cbn.
  destruct err' as [?|]; [left; exact E | right; split; [reflexivity | exact E]].
Qed.

Lemma saveEvent_persist (w : World) (a : option NullInt64) (m m' : model) (err : option error) :
  saveEvent w a m = (m', err) -> writesOne true (persistOf m) (persistOf m').
Proof.
  unfold saveEvent. cbv zeta.
  destruct (if String.eqb _ "" then _ else _) as [eventTime|].
  - destruct (storage.CreateEvent _ _ _) as [store_ err'] eqn:E. intros [= <- <-].
    apply CreateEvent_log in E. split; [reflexivity|]. cbn.
    destruct err' as [?|]; [left; exact E | right; split; [reflexivity | exact E]].
  - intros [= <- <-]. apply writesOne_refl.
Qed.

Lemma handleAccountImport_persist (w : World) (path : string) (m : model) :
  writesMany true (persistOf m) (persistOf (handleAccountImport w path m)).
Proof.
  unfold handleAccountImport. cbv zeta.
  repeat case_match; (split; [reflexivity|]);
    first [left; reflexivity | right; split; [reflexivity|]; eexists; reflexivity].
Qed.

Ltac persist_fact H :=
  unfold setter in H; autorewrite with persist in H;
  unfold writesOne, writesMany, persistOf in H; cbn [fst snd] in H.

Ltac persist_saved :=
  repeat match goal with
  | H : saveNote _ _ _ = (_, _) |- _ => apply saveNote_persist in H; persist_fact H
  | H : saveEvent _ _ _ = (_, _) |- _ => apply saveEvent_persist in H; persist_fact H
  | H : storage.CreateAccount _ _ _ = _ |- _ => apply CreateAccount_log in H; persist_fact H
  | H : storage.UpdateAccount _ _ _ = _ |- _ => apply UpdateAccount_log in H; persist_fact H
  | |- context [handleAccountImport ?w ?p ?m] =>
      let mi := fresh "mi" in
      let Hi := fresh "Hi" in
      pose proof (handleAccountImport_persist w p m) as Hi;
      set (mi := handleAccountImport w p m) in *; clearbody mi;
      persist_fact Hi
  end.

Ltac persist_leaf :=
  persist_saved; unfold setter; autorewrite with persist;
  unfold writesOne, writesMany, configures, persistOf;
  cbn [fst snd tea.isEnter];
  first
    [ reflexivity
    | assumption
    | split; [first [reflexivity | tauto] |];
      first
        [ left; reflexivity
        | tauto
        | right; split; [reflexivity|]; first [assumption | eexists; reflexivity] ] ].

Lemma updateMainMenu_persist (w : World) (msg : tea.Msg) (m : model) :
  persistOf (updateMainMenu w msg m).1 = persistOf m.
Proof.
  unfold updateMainMenu. cbv zeta.
  repeat case_match; simpl fst; persist_leaf.
Qed.

Lemma updateAccountDetail_persist (w : World) (msg : tea.Msg) (m : model) :
  persistOf (updateAccountDetail w msg m) = persistOf m.
Proof.
  unfold updateAccountDetail. cbv zeta.
  repeat case_match; persist_leaf.
Qed.

Lemma updateCreateChoice_persist (w : World) (msg : tea.Msg) (m : model) :
  persistOf (updateCreateChoice w msg m) = persistOf m.
Proof.
  unfold updateCreateChoice. cbv zeta.
  repeat case_match; persist_leaf.
Qed.

Lemma updateDashboard_persist (w : World) (msg : tea.Msg) (m : model) :
  persistOf (updateDashboard w msg m) = persistOf m.
Proof.
  unfold updateDashboard. cbv zeta.
  repeat case_match; persist_leaf.
Qed.

Lemma updateNoteWizard_persist (w : World) (msg : tea.Msg) (m : model) :
  writesOne (tea.isEnter msg) (persistOf m) (persistOf (updateNoteWizard w msg m)).
Proof.
  unfold updateNoteWizard. cbv zeta.
  repeat case_match; persist_leaf.
Qed.

Lemma updateEventWizard_persist (w : World) (msg : tea.Msg) (m : model) :
  writesOne (tea.isEnter msg) (persistOf m) (persistOf (updateEventWizard w msg m)).
Proof.
  unfold updateEventWizard. cbv zeta.
  repeat case_match; persist_leaf.
Qed.

Lemma updateAccounts_persist (w : World) (msg : tea.Msg) (m : model) :
  writesMany (tea.isEnter msg) (persistOf m) (persistOf (updateAccounts w msg m)).
Proof.
  unfold updateAccounts. cbv zeta.
  repeat case_match; persist_leaf.
Qed.

Lemma updateSettings_persist (w : World) (msg : tea.Msg) (m : model) :
  configures w (tea.isEnter msg) (persistOf m) (persistOf (updateSettings w msg m)).
Proof.
  unfold updateSettings. cbv zeta.
  repeat case_match;
    first
      [ persist_leaf
      | unfold setter; autorewrite with persist;
        unfold configures, persistOf, setter; cbn [fst snd];
        split; [reflexivity|]; right; split; [reflexivity|];
        first
          [ left; eexists; split; [|reflexivity]; apply String.eqb_neq; assumption
          | right; eexists; split; [|reflexivity]; eexists; eassumption ] ].
Qed.

Lemma submitAccountForm_persist (w : World) (m m' : model) :
  submitAccountForm w m = Some m' -> writesOne true (persistOf m) (persistOf m').
Proof.
  unfold submitAccountForm. cbv zeta. intros H.
  repeat case_match; try discriminate;
    match goal with H : Some _ = Some _ |- _ => injection H as <- end; persist_leaf.
Qed.

Lemma updateAccountForm_persist (w : World) (msg : tea.Msg) (m m' : model) :
  updateAccountForm w msg m = Some m' ->
  writesOne (tea.isEnter msg) (persistOf m) (persistOf m').
Proof.
  unfold updateAccountForm. cbv zeta. intros H.
  repeat case_match; try discriminate;
    try (match goal with H : Some _ = Some _ |- _ => injection H as <- end; persist_leaf).
  all: match goal with H : submitAccountForm _ _ = Some _ |- _ =>
         apply submitAccountForm_persist in H end.
  all: persist_leaf.
Qed.

Lemma persistStep_refl (w : World) (v : viewState) (enter : bool) (p : Store * ConfigStore) :
  persistStep w v enter p p.
Proof.
  destruct v; simpl; unfold writesOne, writesMany, configures; auto.
Qed.

Lemma Update_persistStep (w : World) (msg : tea.Msg) (m m' : model) (quit : bool) :
  Update w msg m = Some (m', quit) ->
  persistStep w (state m) (tea.isEnter msg) (persistOf m) (persistOf m').
Proof.
  unfold Update. intros H.
  set (m1 := match msg with
             | tea.WindowSizeMsg width_ height_ => m <| width := width_ |> <| height := height_ |>
             | _ => m
             end) in *.
  assert (Hm1 : persistOf m1 = persistOf m /\ state m1 = state m)
    by (unfold m1; destruct msg; split; reflexivity).
  destruct Hm1 as [Hp Hs].
  assert (Hstep : match state m1 with
                  | stateMainMenu => Some (updateMainMenu w msg m1)
                  | stateAccounts => Some (updateAccounts w msg m1, false)
                  | stateAccountDetail => Some (updateAccountDetail w msg m1, false)
                  | stateCreateAccount =>
                      match updateAccountForm w msg m1 with
                      | Some m => Some (m, false)
                      | None => None
                      end
                  | stateCreateChoice => Some (updateCreateChoice w msg m1, false)
                  | stateCreateNote => Some (updateNoteWizard w msg m1, false)
                  | stateCreateEvent => Some (updateEventWizard w msg m1, false)
                  | stateDashboard => Some (updateDashboard w msg m1, false)
                  | _ => Some (updateSettings w msg m1, false)
                  end = Some (m', quit) ->
                  persistStep w (state m) (tea.isEnter msg) (persistOf m) (persistOf m')).
  { clear H. rewrite <- Hp, <- Hs. clearbody m1. clear Hp Hs m. intros H.
    destruct (state m1) eqn:Hs; simpl.
    - injection H as H. pose proof (updateMainMenu_persist w msg m1) as Hn.
      rewrite H in Hn. exact Hn.
    - injection H as <- _. apply updateDashboard_persist.
    - injection H as <- _. apply updateAccounts_persist.
    - injection H as <- _. apply updateAccountDetail_persist.
    - destruct (updateAccountForm w msg m1) as [m2|] eqn:Hf; [|discriminate].
      injection H as <- _. exact (updateAccountForm_persist _ _ _ _ Hf).
    - injection H as <- _. apply updateCreateChoice_persist.
    - injection H as <- _. apply updateNoteWizard_persist.
    - injection H as <- _. apply updateEventWizard_persist.
    - injection H as <- _. apply updateSettings_persist.
    - injection H as <- _. apply updateSettings_persist.
    - injection H as <- _. apply updateSettings_persist. }
  destruct msg as [[]| |]; try (apply Hstep; exact H).
  injection H as <- _. apply persistStep_refl.
Qed.

(** X8: only the enter key writes.  A turn whose message is not the enter
    key (typed characters, backspace, escape, a change of the window
    size, the interrupt key, any other message) leaves the log of the
    database and the configuration as they are, on every screen and
    whatever the collaborators answer. *)
Theorem only_enter_writes (w : World) (msg : tea.Msg) (m m' : model) (quit : bool) :
  msg <> tea.KeyMsg tea.KeyEnter ->
  Update w msg m = Some (m', quit) ->
  store m' = store m /\ cfg m' = cfg m.
Proof.
  intros Hm H. apply Update_persistStep in H.
  rewrite (isEnter_false msg Hm) in H.
  unfold persistStep, writesOne, writesMany, configures, persistOf in H.
  cbn [fst snd] in H.
  destruct (state m);
    first
      [ injection H as -> ->; auto
      | destruct H as [-> [->|[? _]]]; [auto | discriminate] ].
Qed.

Lemma only_enter_writes_witness :
  store (default session0 (run quietWorld [tea.KeyMsg tea.KeyEsc] noteSession))
    = store noteSession
  /\ cfg (default session0 (run quietWorld [tea.KeyMsg tea.KeyEsc] noteSession))
     = cfg noteSession.
Proof.
  apply (only_enter_writes quietWorld (tea.KeyMsg tea.KeyEsc) noteSession _ false).
  - discriminate.
  - vm_compute. reflexivity.
Defined.

(** X9: the log of the database only grows, and only on four screens.
    Whatever a turn does, the statements executed before it stay in the
    log, in order, with the new ones after them.  A turn adds statements
    only on the accounts list (the CSV import), the account form and the
    two wizards, and the form and the wizards add at most one. *)
Theorem log_is_append_only (w : World) (msg : tea.Msg) (m m' : model) (quit : bool) :
  Update w msg m = Some (m', quit) ->
  exists new,
    executed (store m') = executed (store m) ++ new
    /\ (new <> [] ->
        state m ∈ [stateAccounts; stateCreateAccount; stateCreateNote; stateCreateEvent])
    /\ (state m <> stateAccounts -> (length new <= 1)%nat).
Proof.
  intros H. apply Update_persistStep in H.
  unfold persistStep, writesOne, writesMany, configures, persistOf in H.
  cbn [fst snd] in H.
  assert (Hnone : store m' = store m ->
            exists new, executed (store m') = executed (store m) ++ new
              /\ (new <> [] -> state m ∈ [stateAccounts; stateCreateAccount;
                                          stateCreateNote; stateCreateEvent])
              /\ (state m <> stateAccounts -> (length new <= 1)%nat)).
  { intros ->. exists []. rewrite app_nil_r. repeat split; [contradiction | simpl; lia]. }
  destruct (state m);
    try (apply Hnone; first [injection H as ? ?; assumption | tauto]).
  - destruct H as [_ [E|[_ [new E]]]]; [auto|].
    exists new. repeat split; [exact E | intros _; solve_elem | contradiction].
  - destruct H as [_ [E|[_ [q E]]]]; [auto|].
    exists [q]. repeat split; [exact E | intros _; solve_elem | simpl; lia].
  - destruct H as [_ [E|[_ [q E]]]]; [auto|].
    exists [q]. repeat split; [exact E | intros _; solve_elem | simpl; lia].
  - destruct H as [_ [E|[_ [q E]]]]; [auto|].
    exists [q]. repeat split; [exact E | intros _; solve_elem | simpl; lia].
Qed.

Lemma log_is_append_only_witness :
  exists new,
    executed (store (default session0
                       (run quietWorld [tea.KeyMsg tea.KeyEnter] noteSession)))
      = executed (store noteSession) ++ new
    /\ (new <> [] ->
        state noteSession ∈
          [stateAccounts; stateCreateAccount; stateCreateNote; stateCreateEvent])
    /\ (state noteSession <> stateAccounts -> (length new <= 1)%nat).
Proof.
  apply (log_is_append_only quietWorld (tea.KeyMsg tea.KeyEnter) noteSession _ false).
  vm_compute. reflexivity.
Defined.

(** X10: the configuration changes in the settings editors only, and to
    sound values only.  When a turn changes the configuration, the
    settings screen is active, the message is the enter key, and the new
    configuration is the old one with a name that is not empty or with a
    time zone that the zone database of the turn loads. *)
Theorem configuration_changes_in_settings (w : World) (msg : tea.Msg) (m m' : model)
    (quit : bool) :
  Update w msg m = Some (m', quit) ->
  cfg m' <> cfg m ->
  state m ∈ [stateSettings; stateSettingsEditName; stateSettingsEditTimezone]
  /\ msg = tea.KeyMsg tea.KeyEnter
  /\ ((exists v, v <> "" /\ cfg m' = cfg m <| Config := Config (cfg m) <| Name := v |> |>)
      \/ (exists v, is_Some (w_LoadLocation w v)
            /\ cfg m' = cfg m <| Config := Config (cfg m) <| Timezone := v |> |>)).
Proof.
  intros H Hc. apply Update_persistStep in H.
  unfold persistStep, writesOne, writesMany, configures, persistOf in H.
  cbn [fst snd] in H.
  destruct (state m);
    try (exfalso; apply Hc; first [injection H as ? ?; assumption | tauto]).
  all: destruct H as [_ [E|[He H]]]; [contradiction|].
  all: apply isEnter_true in He.
  all: split; [solve_elem | split; [exact He | exact H]].
Qed.

Lemma configuration_changes_in_settings_witness :
  state nameSession ∈ [stateSettings; stateSettingsEditName; stateSettingsEditTimezone]
  /\ tea.KeyMsg tea.KeyEnter = tea.KeyMsg tea.KeyEnter
  /\ ((exists v, v <> ""
         /\ cfg (default session0 (run quietWorld [tea.KeyMsg tea.KeyEnter] nameSession))
            = cfg nameSession <| Config := Config (cfg nameSession) <| Name := v |> |>)
      \/ (exists v, is_Some (w_LoadLocation quietWorld v)
            /\ cfg (default session0 (run quietWorld [tea.KeyMsg tea.KeyEnter] nameSession))
               = cfg nameSession <| Config := Config (cfg nameSession) <| Timezone := v |> |>)).
Proof.
  apply (configuration_changes_in_settings quietWorld (tea.KeyMsg tea.KeyEnter)
           nameSession _ false).
  - vm_compute. reflexivity.
  - vm_compute. discriminate.
Defined.

(** ** The CSV import *)

Lemma headerIndex_fold (header : list string) (index : gmap string nat) (n : nat) :
  (foldl (fun '(index, i) h =>
            let key := strings.ToLower (strings.TrimSpace h) in
            (if String.eqb key "" then index else <[ key := i ]> index, S i))
         (index, n) header).2 = (n + length header)%nat.
Proof.
  revert index n. induction header as [|h header IH]; intros index n; simpl; [lia|].
  rewrite IH. lia.
Qed.

Lemma headerIndex_snoc (header : list string) (h : string) :
  headerIndex (header ++ [h]) =
    let key := strings.ToLower (strings.TrimSpace h) in
    if String.eqb key "" then headerIndex header
    else <[ key := length header ]> (headerIndex header).
Proof.
  unfold headerIndex. rewrite foldl_app. simpl.
  pose proof (headerIndex_fold header ∅ 0) as Hn.
  destruct (foldl _ (∅, 0%nat) header) as [index i]. simpl in *. subst i.
  destruct (String.eqb _ ""); reflexivity.
Qed.

(** X11: the header of a CSV file names its columns without regard to
    case and surrounding white space, and a name that occurs twice stands
    for its last occurrence: the position that [headerIndex] gives for a
    non-empty name is the last cell that, trimmed and lower-cased, equals
    it, and there is none exactly when no cell does. *)
Theorem headerIndex_last_occurrence (header : list string) (key : string) :
  key <> "" ->
  match headerIndex header !! key with
  | Some i =>
      (exists h, header !! i = Some h /\ strings.ToLower (strings.TrimSpace h) = key)
      /\ (forall j h, (i < j)%nat -> header !! j = Some h ->
                      strings.ToLower (strings.TrimSpace h) <> key)
  | None => forall h, h ∈ header -> strings.ToLower (strings.TrimSpace h) <> key
  end.
Proof.
  intros Hkey. induction header as [|h header IH] using rev_ind.
  - unfold headerIndex. simpl. rewrite lookup_empty. intros h Hh.
    apply elem_of_nil in Hh. contradiction.
  - rewrite headerIndex_snoc. cbv zeta.
    destruct (String.eqb_spec (strings.ToLower (strings.TrimSpace h)) "") as [Eh|Nh].
    + destruct (headerIndex header !! key) as [i|].
      * destruct IH as [[h' [Hi Hk]] Hlast]. split.
        -- exists h'. split; [|exact Hk]. apply lookup_app_l_Some. exact Hi.
        -- intros j h'' Hlt Hj.
           apply lookup_app_Some in Hj as [Hj|[Hge Hj]]; [eapply Hlast; eauto|].
           destruct (j - length header)%nat; [|discriminate].
           injection Hj as <-. congruence.
      * intros h' Hin. apply elem_of_app in Hin as [Hin|Hin]; [auto|].
        apply list_elem_of_singleton in Hin. subst h'. congruence.
    + destruct (decide (strings.ToLower (strings.TrimSpace h) = key)) as [Ek|Nk].
      * rewrite Ek, lookup_insert_eq. split.
        -- exists h. split; [|exact Ek].
           rewrite lookup_app_r by lia. rewrite Nat.sub_diag. reflexivity.
        -- intros j h' Hlt Hj. apply lookup_lt_Some in Hj.
           rewrite length_app in Hj. simpl in Hj. lia.
      * rewrite lookup_insert_ne by exact Nk.
        destruct (headerIndex header !! key) as [i|].
        -- destruct IH as [[h' [Hi Hk]] Hlast]. split.
           ++ exists h'. split; [|exact Hk]. apply lookup_app_l_Some. exact Hi.
           ++ intros j h'' Hlt Hj.
              apply lookup_app_Some in Hj as [Hj|[Hge Hj]]; [eapply Hlast; eauto|].
              destruct (j - length header)%nat; [|discriminate].
              injection Hj as <-. exact Nk.
        -- intros h' Hin. apply elem_of_app in Hin as [Hin|Hin]; [auto|].
           apply list_elem_of_singleton in Hin. subst h'. exact Nk.
Qed.

Lemma headerIndex_last_occurrence_witness :
  match headerIndex ["Name"; "phone"; " NAME "] !! "name" with
  | Some i =>
      (exists h, ["Name"; "phone"; " NAME "] !! i = Some h
                 /\ strings.ToLower (strings.TrimSpace h) = "name")
      /\ (forall j h, (i < j)%nat -> ["Name"; "phone"; " NAME "] !! j = Some h ->
                      strings.ToLower (strings.TrimSpace h) <> "name")
  | None => forall h, h ∈ ["Name"; "phone"; " NAME "] ->
                      strings.ToLower (strings.TrimSpace h) <> "name"
  end.
Proof. apply (headerIndex_last_occurrence ["Name"; "phone"; " NAME "] "name"). discriminate. Defined.

(** The statement of a successful [CreateAccount]. *)
Lemma CreateAccount_statement (w : World) (s s' : Store) (a a' : Account) :
  storage.CreateAccount w s a = (s', a', None) ->
  strings.TrimSpace (a_Name a) <> ""
  /\ exists created,
       executed s' = executed s ++
         [InsertAccount (strings.TrimSpace (a_Name a)) (storage.nullString (a_Phone a))
            (storage.nullString (a_Address a)) (storage.nullString (a_Email a))
            (storage.nullString (a_DecisionMaker a)) (a_Creator a) created]
       /\ location created = UTC.
Proof.
  unfold storage.CreateAccount. cbv zeta.
  destruct (String.eqb_spec (strings.TrimSpace (a_Name a)) "") as [|Hne]; [discriminate|].
  intros H. split; [exact Hne|].
  repeat case_match; try discriminate; injection H as <- <-;
    eexists; (split; [reflexivity|]); reflexivity.
Qed.

Lemma stamped_fields (b : bool) (t : Time) (a : Account) :
  let a' := if b then a <| a_CreatedAt := t |> else a in
  a_Name a' = a_Name a /\ a_Creator a' = a_Creator a.
Proof. destruct b; split; reflexivity. Qed.

Lemma parsed_fields (tl : TimeLib) (o : option string) (loc : Location) (a : Account) :
  let a' := match o with
            | Some stamp =>
                if String.eqb stamp "" then a
                else match parseImportTime tl stamp loc with
                     | Some parsed => a <| a_CreatedAt := parsed |>
                     | None => a
                     end
            | None => a
            end in
  a_Name a' = a_Name a /\ a_Creator a' = a_Creator a.
Proof. cbv zeta. repeat case_match; split; reflexivity. Qed.

Lemma optional_fields_name (phone address email decision : option string) (a : Account) :
  a_Name
    (match decision with
     | Some v =>
         (match email with
          | Some v => (match address with
                       | Some v => (match phone with
                                    | Some v => a <| a_Phone := v |> | None => a end)
                                     <| a_Address := v |>
                       | None => match phone with
                                 | Some v => a <| a_Phone := v |> | None => a end
                       end) <| a_Email := v |>
          | None => match address with
                    | Some v => (match phone with
                                 | Some v => a <| a_Phone := v |> | None => a end)
                                  <| a_Address := v |>
                    | None => match phone with
                              | Some v => a <| a_Phone := v |> | None => a end
                    end
          end) <| a_DecisionMaker := v |>
     | None =>
         match email with
         | Some v => (match address with
                      | Some v => (match phone with
                                   | Some v => a <| a_Phone := v |> | None => a end)
                                    <| a_Address := v |>
                      | None => match phone with
                                | Some v => a <| a_Phone := v |> | None => a end
                      end) <| a_Email := v |>
         | None => match address with
                   | Some v => (match phone with
                                | Some v => a <| a_Phone := v |> | None => a end)
                                 <| a_Address := v |>
                   | None => match phone with
                             | Some v => a <| a_Phone := v |> | None => a end
                   end
         end
     end) = a_Name a.
Proof. destruct phone, address, email, decision; reflexivity. Qed.

Lemma importRow_step (tl : TimeLib) (index : gmap string nat) (nameIdx : nat)
    (defaultCreator : string) (locUsed : Location) (st : importState) (rd : csvRead) :
  let st' := importRow tl index nameIdx defaultCreator locUsed st rd in
  let r := is_result st in
  let r' := is_result st' in
  let rec := if isRecord rd then 1 else 0 in
  exists new,
    executed (is_store st') = executed (is_store st) ++ new
    /\ imp_Created r' = imp_Created r + Z.of_nat (length new)
    /\ imp_Created r' + imp_Skipped r' = imp_Created r + imp_Skipped r + rec
    /\ Z.of_nat (length (imp_Errors r')) + imp_Created r'
       = Z.of_nat (length (imp_Errors r)) + imp_Created r + 1
    /\ is_row st' = is_row st + rec
    /\ Forall namedInsert new.
Proof.
  cbv zeta.
  assert (Hrep : forall row skipped message,
            row = is_row st + skipped ->
            let st' := reportRow st row skipped message in
            exists new,
              executed (is_store st') = executed (is_store st) ++ new
              /\ imp_Created (is_result st') = imp_Created (is_result st) + Z.of_nat (length new)
              /\ imp_Created (is_result st') + imp_Skipped (is_result st')
                 = imp_Created (is_result st) + imp_Skipped (is_result st) + skipped
              /\ Z.of_nat (length (imp_Errors (is_result st'))) + imp_Created (is_result st')
                 = Z.of_nat (length (imp_Errors (is_result st))) + imp_Created (is_result st) + 1
              /\ is_row st' = is_row st + skipped
              /\ Forall namedInsert new).
  { intros row skipped message ->. exists []. simpl. rewrite app_nil_r, length_app. simpl.
    repeat split; try lia. constructor. }
  unfold importRow, isRecord.
  destruct (cr_record rd) as [record|err]; [|apply Hrep; lia].
  cbv zeta.
  destruct (record !! nameIdx) as [cell|]; [|apply Hrep; lia].
  destruct (String.eqb_spec (strings.TrimSpace cell) "") as [|Hname]; [apply Hrep; lia|].
  match goal with |- context [storage.CreateAccount _ _ ?a] => set (account := a) end.
  assert (Hacc : a_Name account = strings.TrimSpace cell /\ a_Creator account <> "").
  { unfold account.
    match goal with |- context [if time.IsZero (a_CreatedAt ?x) then _ else _] =>
      destruct (stamped_fields (time.IsZero (a_CreatedAt x))
                  {| unixNano := w_Now (cr_world rd); location := locUsed |} x) as [-> ->]
    end.
    match goal with |- context [match column index record "created_at" with _ => _ end] =>
      match goal with |- a_Name ?y = _ /\ _ =>
        match y with
        | match _ with Some _ => _ | None => ?x end =>
            destruct (parsed_fields tl (column index record "created_at") locUsed x)
              as [-> ->]
        end
      end
    end.
    cbn [a_Name a_Creator setter set_a_Creator]. split.
    - apply optional_fields_name.
    - repeat case_match;
        repeat match goal with
        | H : String.eqb _ "" = false |- _ => apply String.eqb_neq in H
        end; first [assumption | discriminate]. }
  clearbody account. destruct Hacc as [Hn Hc].
  destruct (storage.CreateAccount (cr_world rd) (is_store st) account)
    as [[store_ account'] [err|]] eqn:E.
  - destruct err; apply Hrep; lia.
  - apply CreateAccount_statement in E as [_ [created [E _]]].
    eexists. cbn. split; [exact E|]. simpl.
    repeat split; try lia.
    constructor; [|constructor]. cbn.
    rewrite Hn, !TrimSpace_idempotent. auto.
Qed.

Lemma importRows_spec (tl : TimeLib) (index : gmap string nat) (nameIdx : nat)
    (defaultCreator : string) (locUsed : Location) (reads : list csvRead) (st : importState) :
  let st' := foldl (importRow tl index nameIdx defaultCreator locUsed) st reads in
  let r := is_result st in
  let r' := is_result st' in
  let records := Z.of_nat (length (filter (fun rd => isRecord rd = true) reads)) in
  exists new,
    executed (is_store st') = executed (is_store st) ++ new
    /\ imp_Created r' = imp_Created r + Z.of_nat (length new)
    /\ imp_Created r' + imp_Skipped r' = imp_Created r + imp_Skipped r + records
    /\ Z.of_nat (length (imp_Errors r')) + imp_Created r'
       = Z.of_nat (length (imp_Errors r)) + imp_Created r + Z.of_nat (length reads)
    /\ is_row st' = is_row st + records
    /\ Forall namedInsert new.
Proof.
  cbv zeta. revert st. induction reads as [|rd reads IH]; intros st.
  - exists []. simpl. rewrite app_nil_r. repeat split; try lia. constructor.
  - cbn [foldl].
    destruct (importRow_step tl index nameIdx defaultCreator locUsed st rd)
      as (new1 & E1 & C1 & S1 & R1 & W1 & N1).
    destruct (IH (importRow tl index nameIdx defaultCreator locUsed st rd))
      as (new2 & E2 & C2 & S2 & R2 & W2 & N2).
    exists (new1 ++ new2).
    rewrite E2, E1, app_assoc, length_app.
    assert (Hf : Z.of_nat (length (filter (fun rd => isRecord rd = true) (rd :: reads)))
                 = (if isRecord rd then 1 else 0)
                   + Z.of_nat (length (filter (fun rd => isRecord rd = true) reads))).
    { rewrite filter_cons. destruct (decide (isRecord rd = true)) as [->|Hn].
      - simpl. lia.
      - destruct (isRecord rd); [contradiction | lia]. }
    rewrite Hf. cbn [length].
    repeat split; try lia. apply Forall_app. auto.
Qed.

Lemma headerIndex_is_Some (header : list string) (key : string) :
  key <> "" ->
  is_Some (headerIndex header !! key)
  <-> exists h, h ∈ header /\ strings.ToLower (strings.TrimSpace h) = key.
Proof.
  intros Hkey. induction header as [|h header IH] using rev_ind.
  - unfold headerIndex. simpl. rewrite lookup_empty. split.
    + intros [? ?]. discriminate.
    + intros [h [Hh _]]. apply elem_of_nil in Hh. contradiction.
  - rewrite headerIndex_snoc. cbv zeta.
    assert (Hsplit : (exists h', h' ∈ header ++ [h]
                        /\ strings.ToLower (strings.TrimSpace h') = key)
                     <-> (exists h', h' ∈ header
                            /\ strings.ToLower (strings.TrimSpace h') = key)
                         \/ strings.ToLower (strings.TrimSpace h) = key).
    { split.
      - intros [h' [Hin Hk]]. apply elem_of_app in Hin as [Hin|Hin]; [left; eauto|].
        apply list_elem_of_singleton in Hin. subst h'. right. exact Hk.
      - intros [[h' [Hin Hk]]|Hk].
        + exists h'. split; [apply elem_of_app; auto | exact Hk].
        + exists h. split; [apply elem_of_app; right; left | exact Hk]. }
    rewrite Hsplit, <- IH. clear Hsplit IH.
    destruct (String.eqb_spec (strings.ToLower (strings.TrimSpace h)) "") as [Eh|Nh].
    + split; [auto|]. intros [H|H]; [exact H | congruence].
    + destruct (decide (strings.ToLower (strings.TrimSpace h) = key)) as [Ek|Nk].
      * rewrite Ek, lookup_insert_eq. split; [auto | eauto].
      * rewrite lookup_insert_ne by exact Nk. split; [auto|]. intros [H|H]; [exact H | contradiction].
Qed.

(** X12: every answer of the reader is accounted for.  When the import
    returns without error, the accounts it counts as created are the
    statements it added to the log; every record that the reader
    delivered was created or skipped; and every answer of the reader that
    did not create an account (a skipped record, an error of the reader)
    left exactly one message. *)
Theorem import_accounts_for_every_row (tl : TimeLib) (s s' : Store)
    (header : list string + error) (reads : list csvRead) (defaultCreator : string)
    (loc : option Location) (result : ImportResult) :
  ImportAccountsCSV tl s header reads defaultCreator loc = (s', result, None) ->
  exists new,
    executed s' = executed s ++ new
    /\ imp_Created result = Z.of_nat (length new)
    /\ imp_Created result + imp_Skipped result
       = Z.of_nat (length (filter (fun rd => isRecord rd = true) reads))
    /\ Z.of_nat (length (imp_Errors result)) + imp_Created result
       = Z.of_nat (length reads).
Proof.
  unfold ImportAccountsCSV. cbv zeta.
  destruct header as [header|err]; [|discriminate].
  destruct (headerIndex header !! "name") as [nameIdx|]; [|discriminate].
  intros [= <- <-].
  destruct (importRows_spec tl (headerIndex header) nameIdx defaultCreator
              (default (tl_Local tl) loc) reads
              {| is_result := {| imp_Created := 0; imp_Skipped := 0; imp_Errors := [] |};
                 is_row := 1; is_store := s |})
    as (new & E & C & S & R & _ & _).
  cbn [is_result is_store imp_Created imp_Skipped imp_Errors length] in *.
  exists new. repeat split; [exact E | lia | lia | lia].
Qed.

Lemma import_accounts_for_every_row_witness :
  exists new,
    executed sampleImport.1.1 = [] ++ new
    /\ imp_Created sampleImport.1.2 = Z.of_nat (length new)
    /\ imp_Created sampleImport.1.2 + imp_Skipped sampleImport.1.2
       = Z.of_nat (length (filter (fun rd => isRecord rd = true) sampleReads))
    /\ Z.of_nat (length (imp_Errors sampleImport.1.2)) + imp_Created sampleImport.1.2
       = Z.of_nat (length sampleReads).
Proof.
  apply (import_accounts_for_every_row sampleTimeLib {| executed := [] |} _
           (inl ["Name"; "Phone"]) sampleReads "sam" None).
  vm_compute. reflexivity.
Defined.

(** X13: the import writes sound rows only.  Every statement that a
    successful import adds to the log is an insertion into the accounts
    table whose name is trimmed and not empty and whose creator is not
    empty, whatever the file holds. *)
Theorem import_inserts_named_accounts (tl : TimeLib) (s s' : Store)
    (header : list string + error) (reads : list csvRead) (defaultCreator : string)
    (loc : option Location) (result : ImportResult) :
  ImportAccountsCSV tl s header reads defaultCreator loc = (s', result, None) ->
  exists new, executed s' = executed s ++ new /\ Forall namedInsert new.
Proof.
  unfold ImportAccountsCSV. cbv zeta.
  destruct header as [header|err]; [|discriminate].
  destruct (headerIndex header !! "name") as [nameIdx|]; [|discriminate].
  intros [= <- <-].
  destruct (importRows_spec tl (headerIndex header) nameIdx defaultCreator
              (default (tl_Local tl) loc) reads
              {| is_result := {| imp_Created := 0; imp_Skipped := 0; imp_Errors := [] |};
                 is_row := 1; is_store := s |})
    as (new & E & _ & _ & _ & _ & N).
  exists new. split; [exact E | exact N].
Qed.

Lemma import_inserts_named_accounts_witness :
  exists new, executed sampleImport.1.1 = [] ++ new /\ Forall namedInsert new.
Proof.
  apply (import_inserts_named_accounts sampleTimeLib {| executed := [] |} _
           (inl ["Name"; "Phone"]) sampleReads "sam" None sampleImport.1.2).
  vm_compute. reflexivity.
Defined.

(** X14: the import needs a name column.  It goes on to the rows exactly
    when some cell of the header, trimmed and lower-cased, is "name";
    otherwise it returns the error "csv missing 'name' column" with an
    empty summary and leaves the log as it is, whatever rows follow. *)
Theorem import_needs_name_column (tl : TimeLib) (s : Store) (header : list string)
    (reads : list csvRead) (defaultCreator : string) (loc : option Location) :
  ((ImportAccountsCSV tl s (inl header) reads defaultCreator loc).2 = None
   <-> exists h, h ∈ header /\ strings.ToLower (strings.TrimSpace h) = "name")
  /\ ((ImportAccountsCSV tl s (inl header) reads defaultCreator loc).2 = None
      \/ ImportAccountsCSV tl s (inl header) reads defaultCreator loc
         = (s, {| imp_Created := 0; imp_Skipped := 0; imp_Errors := [] |},
            Some (errorString "csv missing 'name' column"))).
Proof.
  pose proof (headerIndex_is_Some header "name" ltac:(discriminate)) as Hidx.
  unfold ImportAccountsCSV. cbv zeta.
  destruct (headerIndex header !! "name") as [nameIdx|]; cbn [snd].
  - split; [|left; reflexivity].
    split; [intros _; apply Hidx; eauto | reflexivity].
  - split; [|right; reflexivity].
    split; [discriminate|]. intros H. apply Hidx in H as [? ?]. discriminate.
Qed.

(** ** The writers of the storage package *)

(** X15: a write either fails or is logged.  Each of the four writers
    returns an error and leaves the log of statements as it is, or
    returns no error and appends exactly one statement; it returns no
    error only for a record whose name, content or title is not blank. *)
Theorem storage_writers_log (w : World) (s : Store) :
  (forall a, let r := storage.CreateAccount w s a in
     match r.2 with
     | Some _ => r.1.1 = s
     | None => strings.TrimSpace (a_Name a) <> ""
               /\ exists q, executed r.1.1 = executed s ++ [q]
     end)
  /\ (forall a, let r := storage.UpdateAccount w s a in
        match r.2 with
        | Some _ => r.1 = s
        | None => strings.TrimSpace (a_Name a) <> ""
                  /\ exists q, executed r.1 = executed s ++ [q]
        end)
  /\ (forall n, let r := storage.CreateNote w s n in
        match r.2 with
        | Some _ => r.1 = s
        | None => strings.TrimSpace (n_Content n) <> ""
                  /\ exists q, executed r.1 = executed s ++ [q]
        end)
  /\ (forall e, let r := storage.CreateEvent w s e in
        match r.2 with
        | Some _ => r.1 = s
        | None => strings.TrimSpace (e_Title e) <> ""
                  /\ exists q, executed r.1 = executed s ++ [q]
        end).
Proof.
  repeat split; intros x; cbv zeta.
  - unfold storage.CreateAccount. cbv zeta.
    destruct (String.eqb_spec (strings.TrimSpace (a_Name x)) ""); [reflexivity|].
    destruct (w_Exec w _) as [err|[id|]]; cbn; [destruct (storage.isUniqueConstraint err)| |];
      cbn; first [reflexivity | split; [assumption | eexists; reflexivity]].
  - unfold storage.UpdateAccount. cbv zeta.
    destruct (String.eqb_spec (strings.TrimSpace (a_Name x)) ""); [reflexivity|].
    destruct (w_Exec w _) as [err|id]; cbn; [destruct (storage.isUniqueConstraint err)|];
      cbn; first [reflexivity | split; [assumption | eexists; reflexivity]].
  - unfold storage.CreateNote. cbv zeta.
    destruct (String.eqb_spec (strings.TrimSpace (n_Content x)) ""); [reflexivity|].
    destruct (w_Exec w _) as [err|id]; cbn;
      first [reflexivity | split; [assumption | eexists; reflexivity]].
  - unfold storage.CreateEvent. cbv zeta.
    destruct (String.eqb_spec (strings.TrimSpace (e_Title x)) ""); [reflexivity|].
    destruct (w_Exec w _) as [err|id]; cbn;
      first [reflexivity | split; [assumption | eexists; reflexivity]].
Qed.

Lemma nullString_storedAs (raw : string) : storedAs raw (storage.nullString raw).
Proof.
  unfold storage.nullString, storedAs.
  destruct (String.eqb_spec (strings.TrimSpace raw) ""); auto.
Qed.

(** X16: account rows are stored normalised.  The statement that a
    successful [CreateAccount] or [UpdateAccount] executes carries the
    trimmed name, which is not empty, and for each optional field NULL
    when the field is blank and its trimmed text otherwise; the creation
    time of an inserted account is presented in UTC. *)
Theorem account_rows_are_normalised (w : World) (s s' : Store) (a : Account) :
  (forall a', storage.CreateAccount w s a = (s', a', None) ->
     exists phone address email decision created,
       executed s' = executed s ++
         [InsertAccount (strings.TrimSpace (a_Name a)) phone address email decision
            (a_Creator a) created]
       /\ strings.TrimSpace (a_Name a) <> ""
       /\ storedAs (a_Phone a) phone /\ storedAs (a_Address a) address
       /\ storedAs (a_Email a) email /\ storedAs (a_DecisionMaker a) decision
       /\ location created = UTC)
  /\ (storage.UpdateAccount w s a = (s', None) ->
      exists phone address email decision,
        executed s' = executed s ++
          [UpdateAccountRow (strings.TrimSpace (a_Name a)) phone address email decision
             (a_ID a)]
        /\ strings.TrimSpace (a_Name a) <> ""
        /\ storedAs (a_Phone a) phone /\ storedAs (a_Address a) address
        /\ storedAs (a_Email a) email /\ storedAs (a_DecisionMaker a) decision).
Proof.
  split.
  - intros a' H. apply CreateAccount_statement in H as [Hne [created [E Hloc]]].
    do 5 eexists. split; [exact E|].
    repeat split; first [exact Hne | exact Hloc | apply nullString_storedAs].
  - unfold storage.UpdateAccount. cbv zeta.
    destruct (String.eqb_spec (strings.TrimSpace (a_Name a)) "") as [|Hne]; [discriminate|].
    destruct (w_Exec w _) as [err|id];
      [destruct (storage.isUniqueConstraint err); discriminate|].
    intros [= <-]. do 4 eexists. split; [reflexivity|].
    repeat split; first [exact Hne | apply nullString_storedAs].
Qed.

(** ** The account form *)

(** X17: the form reads back what it was opened with.  The account that
    [buildAccount] makes from the fields of a form opened on an existing
    account is that account; and whatever the fields hold, the result
    keeps the identifier, the creator and the creation time of the
    account it starts from. *)
Theorem account_form_round_trip (a base : Account) (fields : list formField) :
  buildAccount (af_fields (newAccountForm (Some a))) a = a
  /\ a_ID (buildAccount fields base) = a_ID base
  /\ a_Creator (buildAccount fields base) = a_Creator base
  /\ a_CreatedAt (buildAccount fields base) = a_CreatedAt base.
Proof.
  split; [destruct a; reflexivity|].
  unfold buildAccount.
  destruct (fields !! 0%nat), (fields !! 1%nat), (fields !! 2%nat), (fields !! 3%nat),
    (fields !! 4%nat); repeat split; reflexivity.
Qed.

(** ** The wizards started from an account *)

Lemma createNote_now (w : World) (m : model) :
  time.toUTC (if time.IsZero (nowIn w m) then {| unixNano := w_Now w; location := UTC |}
              else nowIn w m)
  = {| unixNano := w_Now w; location := UTC |}.
Proof. destruct (time.IsZero _); reflexivity. Qed.

(** X18: a note added from an account is saved for that account.  In the
    note wizard opened with a preset account, when the enter key arrives
    on a content that is not blank and is no escape command and the
    database accepts the insertion, one note is written with the trimmed
    content, the identifier of the preset account, the configured name
    and the clock of the turn; the message names the account, the wizard
    is reset and the navigation is popped, without any question about an
    association. *)
Theorem note_saved_for_preset_account (w : World) (m : model) (preset : Account)
    (id : option Z) :
  let content := strings.TrimSpace (textinput.Value (nw_contentInput (noteWizard_ m))) in
  let q := InsertNote content (Some (a_ID preset)) (Name (Config (cfg m)))
             {| unixNano := w_Now w; location := UTC |} in
  state m = stateCreateNote ->
  nw_stage (noteWizard_ m) = noteStageContent ->
  nw_presetAccount (noteWizard_ m) = Some preset ->
  a_Name preset <> "" ->
  content <> "" ->
  isExitCommand content = false ->
  isBackCommand content = false ->
  w_Exec w q = ExecOk id ->
  exists m',
    Update w (tea.KeyMsg tea.KeyEnter) m = Some (m', false)
    /\ executed (store m') = executed (store m) ++ [q]
    /\ infoMessage m' = "Note saved for " +:+ a_Name preset
    /\ noteWizard_ m' = newNoteWizard None
    /\ navOf m' = popNav (navOf m).
Proof.
  intros content q Hs Hst Hp Hname Hne Hexit Hback Hexec.
  assert (Hne' : String.eqb (strings.TrimSpace content) "" = false).
  { unfold content. rewrite TrimSpace_idempotent. apply String.eqb_neq. exact Hne. }
  apply String.eqb_neq in Hne, Hname.
  rewrite Update_createNote by (exact Hs || discriminate).
  unfold updateNoteWizard. rewrite Hst, Enter_inert. cbv zeta.
  cbn [tea.isEnter]. rewrite Value_focused. fold content.
  rewrite Hexit, Hback, Hne.
  cbn [noteWizard_ setter set_noteWizard_ nw_presetAccount set_nw_err set_nw_contentInput].
  rewrite Hp.
  unfold saveNote, storage.CreateNote.
  cbn [noteWizard_ setter set_noteWizard_ nw_contentInput set_nw_err set_nw_contentInput
       n_Content n_AccountID n_Creator n_CreatedAt cfg store storage.nullInt64 Valid Int64].
  rewrite Value_focused. fold content. rewrite Hne'.
  rewrite createNote_now. fold q. rewrite Hexec, Hname. cbv beta iota. rewrite Hname.
  eexists. split; [reflexivity|].
  match goal with |- context [completeNoteSave w ?msg ?m0] =>
    destruct (completeNoteSave_fields w msg m0) as [H1 [H2 [H3 H4]]]
  end.
  split; [|split; [|split]].
  - etransitivity; [exact (f_equal executed H3) | reflexivity].
  - exact H1.
  - exact H2.
  - exact H4.
Qed.

Lemma note_saved_for_preset_account_witness :
  exists m',
    Update quietWorld (tea.KeyMsg tea.KeyEnter) presetNoteSession = Some (m', false)
    /\ executed (store m') =
         executed (store presetNoteSession) ++
           [InsertNote
              (strings.TrimSpace (textinput.Value (nw_contentInput (noteWizard_ presetNoteSession))))
              (Some (a_ID acme)) (Name (Config (cfg presetNoteSession)))
              {| unixNano := w_Now quietWorld; location := UTC |}]
    /\ infoMessage m' = "Note saved for " +:+ a_Name acme
    /\ noteWizard_ m' = newNoteWizard None
    /\ navOf m' = popNav (navOf presetNoteSession).
Proof.
  apply (note_saved_for_preset_account quietWorld presetNoteSession acme (Some 3)).
  - vm_compute. reflexivity.
  - vm_compute. reflexivity.
  - vm_compute. reflexivity.
  - discriminate.
  - vm_compute. discriminate.
  - vm_compute. reflexivity.
  - vm_compute. reflexivity.
  - reflexivity.
Defined.

(** X19: a note that the database refuses is not lost.  In the note
    wizard opened with a preset account, when the insertion fails the
    wizard stays on its content stage with the error of the storage
    package, the text typed is still in the input, and the log, the
    active view and the stack are as before. *)
Theorem refused_note_keeps_the_wizard (w : World) (m : model) (preset : Account)
    (err : error) :
  let content := strings.TrimSpace (textinput.Value (nw_contentInput (noteWizard_ m))) in
  let q := InsertNote content (Some (a_ID preset)) (Name (Config (cfg m)))
             {| unixNano := w_Now w; location := UTC |} in
  state m = stateCreateNote ->
  nw_stage (noteWizard_ m) = noteStageContent ->
  nw_presetAccount (noteWizard_ m) = Some preset ->
  content <> "" ->
  isExitCommand content = false ->
  isBackCommand content = false ->
  w_Exec w q = ExecErr err ->
  exists m',
    Update w (tea.KeyMsg tea.KeyEnter) m = Some (m', false)
    /\ nw_err (noteWizard_ m') = "insert note: " +:+ Error err
    /\ nw_stage (noteWizard_ m') = noteStageContent
    /\ textinput.Value (nw_contentInput (noteWizard_ m'))
       = textinput.Value (nw_contentInput (noteWizard_ m))
    /\ store m' = store m
    /\ navOf m' = navOf m.
Proof.
  intros content q Hs Hst Hp Hne Hexit Hback Hexec.
  assert (Hne' : String.eqb (strings.TrimSpace content) "" = false).
  { unfold content. rewrite TrimSpace_idempotent. apply String.eqb_neq. exact Hne. }
  apply String.eqb_neq in Hne.
  rewrite Update_createNote by (exact Hs || discriminate).
  unfold updateNoteWizard. rewrite Hst, Enter_inert. cbv zeta.
  cbn [tea.isEnter]. rewrite Value_focused. fold content.
  rewrite Hexit, Hback, Hne.
  cbn [noteWizard_ setter set_noteWizard_ nw_presetAccount set_nw_err set_nw_contentInput].
  rewrite Hp.
  unfold saveNote, storage.CreateNote.
  cbn [noteWizard_ setter set_noteWizard_ nw_contentInput set_nw_err set_nw_contentInput
       n_Content n_AccountID n_Creator n_CreatedAt cfg store storage.nullInt64 Valid Int64].
  rewrite Value_focused. fold content. rewrite Hne'.
  rewrite createNote_now. fold q. rewrite Hexec.
  eexists. split; [reflexivity|].
  cbn [noteWizard_ setter set_noteWizard_ set_store nw_err set_nw_err nw_stage
       nw_contentInput set_nw_contentInput store navOf state prevStates].
  repeat split; [exact Hst | apply Value_focused].
Qed.

Lemma refused_note_keeps_the_wizard_witness :
  exists m',
    Update brokenWorld (tea.KeyMsg tea.KeyEnter) presetNoteSession = Some (m', false)
    /\ nw_err (noteWizard_ m') = "insert note: " +:+ Error (errorString "disk I/O error")
    /\ nw_stage (noteWizard_ m') = noteStageContent
    /\ textinput.Value (nw_contentInput (noteWizard_ m'))
       = textinput.Value (nw_contentInput (noteWizard_ presetNoteSession))
    /\ store m' = store presetNoteSession
    /\ navOf m' = navOf presetNoteSession.
Proof.
  apply (refused_note_keeps_the_wizard brokenWorld presetNoteSession acme
           (errorString "disk I/O error")).
  - vm_compute. reflexivity.
  - vm_compute. reflexivity.
  - vm_compute. reflexivity.
  - vm_compute. discriminate.
  - vm_compute. reflexivity.
  - vm_compute. reflexivity.
  - reflexivity.
Defined.

Lemma completeEventSave_fields (w : World) (message : string) (m : model) :
  infoMessage (completeEventSave w message m) = message
  /\ eventWizard_ (completeEventSave w message m) = newEventWizard None
  /\ store (completeEventSave w message m) = store m
  /\ navOf (completeEventSave w message m) = popNav (navOf m).
Proof.
  assert (Hrd : forall now x, infoMessage (refreshDashboard w now x) = infoMessage x
                              /\ eventWizard_ (refreshDashboard w now x) = eventWizard_ x)
    by (intros; unfold refreshDashboard; repeat case_match; split; reflexivity).
  assert (Hla : forall x, infoMessage (loadAccountActivity w x) = infoMessage x
                          /\ eventWizard_ (loadAccountActivity w x) = eventWizard_ x)
    by (intros; unfold loadAccountActivity; repeat case_match; split; reflexivity).
  assert (Hra : forall x, infoMessage (refreshAccountDetailAccount w x) = infoMessage x
                          /\ eventWizard_ (refreshAccountDetailAccount w x) = eventWizard_ x)
    by (intros; unfold refreshAccountDetailAccount; repeat case_match; split; reflexivity).
  assert (Hpop : forall x, infoMessage (popState x) = infoMessage x
                           /\ eventWizard_ (popState x) = eventWizard_ x)
    by (intros; unfold popState; case_match; split; reflexivity).
  assert (Hfields : infoMessage (completeEventSave w message m) = message
                    /\ eventWizard_ (completeEventSave w message m) = newEventWizard None).
  { unfold completeEventSave. cbv zeta.
    destruct (Hrd (nowIn w
                (if decide (state (popState (m <| eventWizard_ := newEventWizard None |>
                                               <| infoMessage := message |>))
                            = stateAccountDetail)
                 then loadAccountActivity w (refreshAccountDetailAccount w
                        (popState (m <| eventWizard_ := newEventWizard None |>
                                     <| infoMessage := message |>)))
                 else if decide (state (popState (m <| eventWizard_ := newEventWizard None |>
                                                    <| infoMessage := message |>))
                                 = stateMainMenu)
                 then setMenuInput "Choose an option" 32
                        (popState (m <| eventWizard_ := newEventWizard None |>
                                     <| infoMessage := message |>))
                 else popState (m <| eventWizard_ := newEventWizard None |>
                                  <| infoMessage := message |>)))
              (if decide (state (popState (m <| eventWizard_ := newEventWizard None |>
                                             <| infoMessage := message |>))
                          = stateAccountDetail)
               then loadAccountActivity w (refreshAccountDetailAccount w
                      (popState (m <| eventWizard_ := newEventWizard None |>
                                   <| infoMessage := message |>)))
               else if decide (state (popState (m <| eventWizard_ := newEventWizard None |>
                                                  <| infoMessage := message |>))
                               = stateMainMenu)
               then setMenuInput "Choose an option" 32
                      (popState (m <| eventWizard_ := newEventWizard None |>
                                   <| infoMessage := message |>))
               else popState (m <| eventWizard_ := newEventWizard None |>
                                <| infoMessage := message |>))) as [-> ->].
    destruct (Hpop (m <| eventWizard_ := newEventWizard None |> <| infoMessage := message |>))
      as [Hi He].
    unfold setter in *.
    repeat case_match;
      rewrite ?(proj1 (Hla _)), ?(proj2 (Hla _)), ?(proj1 (Hra _)), ?(proj2 (Hra _));
      unfold setMenuInput, setter; cbn [infoMessage eventWizard_ set_menuInput];
      rewrite Hi, He; split; reflexivity. }
  destruct Hfields as [Hi He].
  split; [exact Hi|]. split; [exact He|]. split; [|apply navOf_completeEventSave].
  exact (f_equal fst (persistOf_completeEventSave w message m)).
Qed.

Lemma createEvent_time (now : Z) (t : Time) :
  time.toUTC (if time.IsZero t then {| unixNano := now; location := UTC |} else t)
  = {| unixNano := if unixNano t =? unixNano time.zero then now else unixNano t;
       location := UTC |}.
Proof. unfold time.IsZero. destruct (unixNano t =? unixNano time.zero); reflexivity. Qed.

(** X20: an event added from an account, and what an empty schedule
    means.  In the event wizard opened with a preset account, when the
    enter key arrives at the schedule stage on a text that is empty or
    that parses in the configured zone, and the database accepts the
    insertion, one event is written for the preset account with the
    trimmed title, the details (NULL when blank) and, as its time, the
    clock of the turn for an empty schedule and the parsed time
    otherwise (the clock again if the parsed time is the zero time); the
    message names the account, the wizard is reset and the navigation is
    popped. *)
Theorem event_saved_for_preset_account (w : World) (m : model) (preset : Account)
    (id : option Z) (when_ : Z) :
  let title := strings.TrimSpace (textinput.Value (ew_titleInput (eventWizard_ m))) in
  let details := strings.TrimSpace (textinput.Value (ew_detailsInput (eventWizard_ m))) in
  let schedule := strings.TrimSpace (textinput.Value (ew_scheduleInput (eventWizard_ m))) in
  let q := InsertEvent title (storage.nullString details)
             {| unixNano := if when_ =? unixNano time.zero then w_Now w else when_;
                location := UTC |}
             (Some (a_ID preset)) (Name (Config (cfg m)))
             {| unixNano := w_Now w; location := UTC |} in
  state m = stateCreateEvent ->
  ew_stage (eventWizard_ m) = eventStageSchedule ->
  ew_presetAccount (eventWizard_ m) = Some preset ->
  a_Name preset <> "" ->
  title <> "" ->
  isExitCommand schedule = false ->
  isBackCommand schedule = false ->
  (if String.eqb schedule "" then Some (w_Now w)
   else w_ParseInLocation w schedule (config.Location w (cfg m))) = Some when_ ->
  w_Exec w q = ExecOk id ->
  exists m',
    Update w (tea.KeyMsg tea.KeyEnter) m = Some (m', false)
    /\ executed (store m') = executed (store m) ++ [q]
    /\ infoMessage m' = "Event created for " +:+ a_Name preset
    /\ eventWizard_ m' = newEventWizard None
    /\ navOf m' = popNav (navOf m).
Proof.
  intros title details schedule q Hs Hst Hp Hname Htitle Hexit Hback Hwhen Hexec.
  assert (Htitle' : String.eqb (strings.TrimSpace title) "" = false).
  { unfold title. rewrite TrimSpace_idempotent. apply String.eqb_neq. exact Htitle. }
  apply String.eqb_neq in Hname.
  rewrite Update_createEvent by (exact Hs || discriminate).
  unfold updateEventWizard. rewrite Hst, Enter_inert. cbv zeta.
  cbn [tea.isEnter]. rewrite Value_focused. fold schedule.
  rewrite Hexit, Hback.
  cbn [eventWizard_ setter set_eventWizard_ ew_presetAccount set_ew_err set_ew_scheduleInput
       cfg].
  rewrite Hp.
  assert (Hvalid : negb (String.eqb schedule "")
                   && negb (bool_decide (is_Some
                        (w_ParseInLocation w schedule (config.Location w (cfg m))))) = false).
  { destruct (String.eqb schedule ""); [reflexivity|]. rewrite Hwhen.
    rewrite bool_decide_eq_true_2 by eauto. reflexivity. }
  rewrite Hvalid.
  unfold saveEvent, storage.CreateEvent.
  cbn [eventWizard_ setter set_eventWizard_ ew_titleInput ew_detailsInput ew_scheduleInput
       set_ew_err set_ew_scheduleInput cfg store].
  unfold nowIn. cbn [cfg set_eventWizard_].
  rewrite Value_focused. fold schedule title details.
  assert (Htime : (if String.eqb schedule "" then Some (nowIn w m)
                   else match w_ParseInLocation w schedule (config.Location w (cfg m)) with
                        | Some parsed =>
                            Some {| unixNano := parsed;
                                    location := config.Location w (cfg m) |}
                        | None => None
                        end)
                  = Some {| unixNano := when_; location := config.Location w (cfg m) |}).
  { unfold nowIn. destruct (String.eqb schedule "").
    - injection Hwhen as <-. reflexivity.
    - rewrite Hwhen. reflexivity. }
  unfold nowIn in Htime. rewrite Htime.
  cbn [e_Title e_Details e_EventTime e_AccountID e_Creator e_CreatedAt storage.nullInt64
       Valid Int64].
  rewrite Htitle'.
  rewrite (createEvent_time (w_Now w)
             {| unixNano := when_; location := config.Location w (cfg m) |}).
  rewrite (createEvent_time (w_Now w)
             {| unixNano := w_Now w; location := config.Location w (cfg m) |}).
  cbn [unixNano].
  replace (if w_Now w =? unixNano time.zero then w_Now w else w_Now w) with (w_Now w)
    by (destruct (w_Now w =? unixNano time.zero); reflexivity).
  cbn [unixNano]. fold q. rewrite Hexec, Hname. cbv beta iota. rewrite Hname.
  eexists. split; [reflexivity|].
  match goal with |- context [completeEventSave w ?msg ?m0] =>
    destruct (completeEventSave_fields w msg m0) as [H1 [H2 [H3 H4]]]
  end.
  split; [|split; [|split]].
  - etransitivity; [exact (f_equal executed H3) | reflexivity].
  - exact H1.
  - exact H2.
  - exact H4.
Qed.

Lemma event_saved_for_preset_account_witness :
  exists m',
    Update quietWorld (tea.KeyMsg tea.KeyEnter) presetEventSession = Some (m', false)
    /\ executed (store m') =
         executed (store presetEventSession) ++
           [InsertEvent
              (strings.TrimSpace
                 (textinput.Value (ew_titleInput (eventWizard_ presetEventSession))))
              (storage.nullString
                 (strings.TrimSpace
                    (textinput.Value (ew_detailsInput (eventWizard_ presetEventSession)))))
              {| unixNano := if w_Now quietWorld =? unixNano time.zero
                             then w_Now quietWorld else w_Now quietWorld;
                 location := UTC |}
              (Some (a_ID acme)) (Name (Config (cfg presetEventSession)))
              {| unixNano := w_Now quietWorld; location := UTC |}]
    /\ infoMessage m' = "Event created for " +:+ a_Name acme
    /\ eventWizard_ m' = newEventWizard None
    /\ navOf m' = popNav (navOf presetEventSession).
Proof.
  apply (event_saved_for_preset_account quietWorld presetEventSession acme (Some 3)
           (w_Now quietWorld)).
  - vm_compute. reflexivity.
  - vm_compute. reflexivity.
  - vm_compute. reflexivity.
  - discriminate.
  - vm_compute. discriminate.
  - vm_compute. reflexivity.
  - vm_compute. reflexivity.
  - vm_compute. reflexivity.
  - reflexivity.
Defined.

(** ** Saving the name in the settings *)

(** X21: a new name is applied before it is written.  In the name editor
    of the settings screen, the enter key on a text that is not blank and
    is no escape command puts the trimmed text into the configuration of
    the session and then writes the file.  When the write succeeds the
    editor closes with the message "Name updated"; when it fails the
    editor stays open with the error, and the configuration of the
    session keeps the new name all the same. *)
Theorem name_is_applied_before_it_is_saved (w : World) (m : model) :
  let value := strings.TrimSpace (textinput.Value (sm_input (settings m))) in
  state m = stateSettings ->
  sm_mode (settings m) = settingsEditingName ->
  value <> "" ->
  isExitCommand value = false ->
  isBackCommand value = false ->
  exists m',
    Update w (tea.KeyMsg tea.KeyEnter) m = Some (m', false)
    /\ Config (cfg m') = {| Name := value; Timezone := Timezone (Config (cfg m)) |}
    /\ navOf m' = navOf m
    /\ match w_writeConfig w {| Name := value; Timezone := Timezone (Config (cfg m)) |} with
       | Some err =>
           sm_err (settings m') = Error err
           /\ sm_mode (settings m') = settingsEditingName
           /\ infoMessage m' = infoMessage m
       | None =>
           sm_err (settings m') = ""
           /\ sm_mode (settings m') = settingsViewing
           /\ infoMessage m' = "Name updated"
       end.
Proof.
  intros value Hs Hmode Hne Hexit Hback. apply String.eqb_neq in Hne.
  rewrite Update_settings by (exact Hs || discriminate).
  unfold updateSettings. rewrite Hmode. cbv zeta.
  rewrite Enter_inert. cbn [tea.isEnter settings setter set_settings sm_input set_sm_input].
  rewrite Value_focused. fold value. rewrite Hexit, Hback, Hne.
  unfold config.Save.
  cbn [cfg setter set_cfg Config set_Config].
  destruct (w_writeConfig w {| Name := value; Timezone := Timezone (Config (cfg m)) |})
    as [err|] eqn:Ew;
    match goal with |- context [w_writeConfig w ?x] =>
      replace (w_writeConfig w x) with (w_writeConfig w
        {| Name := value; Timezone := Timezone (Config (cfg m)) |}) by reflexivity
    end; rewrite Ew;
    (eexists; split; [reflexivity|]); cbn; rewrite ?Hmode; auto.
Qed.

Lemma name_is_applied_before_it_is_saved_witness :
  exists m',
    Update quietWorld (tea.KeyMsg tea.KeyEnter) nameSession = Some (m', false)
    /\ Config (cfg m') =
         {| Name := strings.TrimSpace (textinput.Value (sm_input (settings nameSession)));
            Timezone := Timezone (Config (cfg nameSession)) |}
    /\ navOf m' = navOf nameSession
    /\ match w_writeConfig quietWorld
               {| Name := strings.TrimSpace
                            (textinput.Value (sm_input (settings nameSession)));
                  Timezone := Timezone (Config (cfg nameSession)) |} with
       | Some err =>
           sm_err (settings m') = Error err
           /\ sm_mode (settings m') = settingsEditingName
           /\ infoMessage m' = infoMessage nameSession
       | None =>
           sm_err (settings m') = ""
           /\ sm_mode (settings m') = settingsViewing
           /\ infoMessage m' = "Name updated"
       end.
Proof.
  apply (name_is_applied_before_it_is_saved quietWorld nameSession).
  - vm_compute. reflexivity.
  - vm_compute. reflexivity.
  - vm_compute. discriminate.
  - vm_compute. reflexivity.
  - vm_compute. reflexivity.
Defined.

(** ** Loading the configuration *)

Lemma defaultName_not_empty (h : Host) : configfile.defaultName h <> "".
Proof.
  unfold configfile.defaultName.
  destruct (String.eqb_spec (h_Getenv h "USER") ""); simpl; [|assumption].
  destruct (String.eqb (h_GOOS h) "windows"); simpl; [|discriminate].
  destruct (String.eqb_spec (h_Getenv h "USERNAME") ""); simpl; [discriminate | assumption].
Qed.

Lemma defaultTimezone_named (h : Host) :
  configfile.defaultTimezone h <> "" /\ configfile.defaultTimezone h <> "Local".
Proof.
  unfold configfile.defaultTimezone.
  destruct (String.eqb_spec (h_LocalName h) "Local"); simpl; [split; discriminate|].
  destruct (String.eqb_spec (h_LocalName h) ""); simpl; [split; discriminate|].
  split; assumption.
Qed.

(** X22: a loaded configuration is complete.  Whenever [Load] returns a
    store, on any host and whatever the file holds, the name and the time
    zone of its configuration are not empty: a missing value is replaced
    by the default, and the defaults are never empty (the default zone is
    never "Local" either). *)
Theorem Load_fills_defaults (h : Host) (s : ConfigStore) (written : list (string * string)) :
  configfile.Load h = (inl s, written) ->
  Name (Config s) <> "" /\ Timezone (Config s) <> ""
  /\ configfile.defaultName h <> ""
  /\ configfile.defaultTimezone h <> "" /\ configfile.defaultTimezone h <> "Local".
Proof.
  pose proof (defaultName_not_empty h) as Hn.
  pose proof (defaultTimezone_named h) as [Hz Hl].
  intros H. split; [|split; [|auto]].
  - unfold configfile.Load in H. cbv zeta in H.
    destruct (configfile.resolvePath h) as [cfgPath|]; [|discriminate].
    match type of H with (match ?x with _ => _ end) = _ =>
      destruct x as [[cfg|err] w0]; [|discriminate] end.
    injection H as <- _. cbn [Config].
    destruct (String.eqb_spec (Timezone cfg) "");
      (match goal with |- context [String.eqb (Name ?c) ""] =>
         destruct (String.eqb_spec (Name c) "") end); cbn; assumption.
  - unfold configfile.Load in H. cbv zeta in H.
    destruct (configfile.resolvePath h) as [cfgPath|]; [|discriminate].
    match type of H with (match ?x with _ => _ end) = _ =>
      destruct x as [[cfg|err] w0]; [|discriminate] end.
    injection H as <- _. cbn [Config].
    destruct (String.eqb_spec (Timezone cfg) "");
      (match goal with |- context [String.eqb (Name ?c) ""] =>
         destruct (String.eqb_spec (Name c) "") end); cbn; assumption.
Qed.

Lemma Load_fills_defaults_witness :
  Name (Config {| Config := {| Name := "CRM User"; Timezone := "UTC" |} |}) <> ""
  /\ Timezone (Config {| Config := {| Name := "CRM User"; Timezone := "UTC" |} |}) <> ""
  /\ configfile.defaultName freshHost <> ""
  /\ configfile.defaultTimezone freshHost <> ""
  /\ configfile.defaultTimezone freshHost <> "Local".
Proof.
  apply (Load_fills_defaults freshHost _
           [("/home/sam/.config/crmterm/config.json", "{ name: CRM User, timezone: UTC }")]).
  reflexivity.
Defined.

(** X23: the defaults are written once, on the first launch only.  A
    successful [Load] writes nothing when the file of the configuration
    exists, even if it fills a missing value in memory; when the file
    does not exist it writes one file, at the resolved path, holding the
    default configuration, and the store it returns holds that same
    configuration. *)
Theorem Load_writes_defaults_once (h : Host) (s : ConfigStore)
    (written : list (string * string)) :
  configfile.Load h = (inl s, written) ->
  exists cfgPath,
    configfile.resolvePath h = inl cfgPath
    /\ match h_Stat h cfgPath with
       | None => written = []
       | Some _ =>
           Config s = configfile.defaultConfig h
           /\ exists bytes, h_MarshalIndent h (Config s) = inl bytes
                            /\ written = [(cfgPath, bytes)]
       end.
Proof.
  pose proof (defaultName_not_empty h) as Hn.
  pose proof (defaultTimezone_named h) as [Hz _].
  unfold configfile.Load. cbv zeta.
  destruct (configfile.resolvePath h) as [cfgPath|]; [|discriminate].
  intros H. exists cfgPath. split; [reflexivity|].
  destruct (h_Stat h cfgPath) as [err|].
  - destruct (negb (h_IsNotExist h err)); [discriminate|].
    unfold configfile.writeConfig in H.
    destruct (h_MarshalIndent h (configfile.defaultConfig h)) as [bytes|] eqn:Em;
      [|discriminate].
    destruct (h_WriteFile h cfgPath bytes); [discriminate|].
    apply String.eqb_neq in Hn, Hz.
    change (Timezone (configfile.defaultConfig h)) with (configfile.defaultTimezone h) in H.
    rewrite Hz in H.
    change (Name (configfile.defaultConfig h)) with (configfile.defaultName h) in H.
    rewrite Hn in H.
    injection H as <- <-. cbn [Config]. split; [reflexivity|].
    exists bytes. split; [exact Em | reflexivity].
  - destruct (h_ReadFile h cfgPath) as [bytes|]; [|discriminate].
    destruct (h_Unmarshal h bytes); [|discriminate].
    injection H as _ <-. reflexivity.
Qed.

Lemma Load_writes_defaults_once_witness :
  exists cfgPath,
    configfile.resolvePath freshHost = inl cfgPath
    /\ match h_Stat freshHost cfgPath with
       | None =>
           [("/home/sam/.config/crmterm/config.json", "{ name: CRM User, timezone: UTC }")]
           = []
       | Some _ =>
           Config {| Config := {| Name := "CRM User"; Timezone := "UTC" |} |}
           = configfile.defaultConfig freshHost
           /\ exists bytes,
                h_MarshalIndent freshHost
                  (Config {| Config := {| Name := "CRM User"; Timezone := "UTC" |} |})
                = inl bytes
                /\ [("/home/sam/.config/crmterm/config.json",
                     "{ name: CRM User, timezone: UTC }")] = [(cfgPath, bytes)]
       end.
Proof. apply (Load_writes_defaults_once freshHost). reflexivity. Defined.

(** ** The keys that navigate *)

Ltac quiet_leaf :=
  unfold setter; autorewrite with nav; reflexivity.

Lemma quiet_handlers (w : World) (msg : tea.Msg) (m : model) :
  msg <> tea.KeyMsg tea.KeyEnter ->
  navOf (updateMainMenu w msg m).1 = navOf m
  /\ navOf (updateDashboard w msg m) = navOf m
  /\ navOf (updateCreateChoice w msg m) = navOf m
  /\ navOf (updateNoteWizard w msg m) = navOf m
  /\ navOf (updateEventWizard w msg m) = navOf m
  /\ navOf (updateSettings w msg m) = navOf m.
Proof.
  intros Hm. apply isEnter_false in Hm.
  unfold updateMainMenu, updateDashboard, updateCreateChoice, updateNoteWizard,
    updateEventWizard, updateSettings.
  cbv zeta. rewrite !Hm.
  repeat split; repeat case_match; simpl fst; quiet_leaf.
Qed.

Lemma escape_handlers (w : World) (msg : tea.Msg) (m : model) :
  msg <> tea.KeyMsg tea.KeyEnter ->
  navOf (updateAccounts w msg m)
    = match msg with tea.KeyMsg tea.KeyEsc => popNav (navOf m) | _ => navOf m end
  /\ navOf (updateAccountDetail w msg m)
     = match msg with tea.KeyMsg tea.KeyEsc => popNav (navOf m) | _ => navOf m end
  /\ (forall m', updateAccountForm w msg m = Some m' ->
        navOf m'
        = match msg with tea.KeyMsg tea.KeyEsc => popNav (navOf m) | _ => navOf m end).
Proof.
  intros Hm.
  unfold updateAccounts, updateAccountDetail, updateAccountForm. cbv zeta.
  destruct msg as [[]| |]; try contradiction; repeat split;
    try (intros m' [= <-]); repeat case_match; quiet_leaf.
Qed.

(** X24: only the enter key and the escape key navigate.  A turn whose
    message is not the enter key leaves the active view and the stack as
    they are, except for the escape key on the accounts list, the account
    detail and the account form, which pops the stack once; on the other
    screens the escape key does not navigate. *)
Theorem only_enter_and_escape_navigate (w : World) (msg : tea.Msg) (m m' : model)
    (quit : bool) :
  msg <> tea.KeyMsg tea.KeyEnter ->
  Update w msg m = Some (m', quit) ->
  navOf m' = afterKey msg m.
Proof.
  intros Hm. unfold Update.
  set (m1 := match msg with
             | tea.WindowSizeMsg width_ height_ => m <| width := width_ |> <| height := height_ |>
             | _ => m
             end).
  assert (Hm1 : navOf m1 = navOf m /\ state m1 = state m)
    by (unfold m1; destruct msg; split; reflexivity).
  destruct Hm1 as [Hn Hs].
  assert (Hstep : match state m1 with
                  | stateMainMenu => Some (updateMainMenu w msg m1)
                  | stateAccounts => Some (updateAccounts w msg m1, false)
                  | stateAccountDetail => Some (updateAccountDetail w msg m1, false)
                  | stateCreateAccount =>
                      match updateAccountForm w msg m1 with
                      | Some m => Some (m, false)
                      | None => None
                      end
                  | stateCreateChoice => Some (updateCreateChoice w msg m1, false)
                  | stateCreateNote => Some (updateNoteWizard w msg m1, false)
                  | stateCreateEvent => Some (updateEventWizard w msg m1, false)
                  | stateDashboard => Some (updateDashboard w msg m1, false)
                  | _ => Some (updateSettings w msg m1, false)
                  end = Some (m', quit) -> navOf m' = afterKey msg m).
  { unfold afterKey. rewrite <- Hn, <- Hs. clearbody m1. clear Hn Hs m.
    destruct (quiet_handlers w msg m1 Hm) as (Q1 & Q2 & Q3 & Q4 & Q5 & Q6).
    destruct (escape_handlers w msg m1 Hm) as (E1 & E2 & E3).
    intros H. destruct (state m1).
    - injection H as H. rewrite H in Q1. simpl fst in Q1. rewrite Q1.
      destruct msg as [[]| |]; reflexivity.
    - injection H as <- _. rewrite Q2. destruct msg as [[]| |]; reflexivity.
    - injection H as <- _. rewrite E1. destruct msg as [[]| |]; reflexivity.
    - injection H as <- _. rewrite E2. destruct msg as [[]| |]; reflexivity.
    - destruct (updateAccountForm w msg m1) as [m2|] eqn:Ef; [|discriminate].
      injection H as <- _. rewrite (E3 m2 eq_refl). destruct msg as [[]| |]; reflexivity.
    - injection H as <- _. rewrite Q3. destruct msg as [[]| |]; reflexivity.
    - injection H as <- _. rewrite Q4. destruct msg as [[]| |]; reflexivity.
    - injection H as <- _. rewrite Q5. destruct msg as [[]| |]; reflexivity.
    - injection H as <- _. rewrite Q6. destruct msg as [[]| |]; reflexivity.
    - injection H as <- _. rewrite Q6. destruct msg as [[]| |]; reflexivity.
    - injection H as <- _. rewrite Q6. destruct msg as [[]| |]; reflexivity. }
  destruct msg as [[]| |]; try exact Hstep.
  intros [= <- _]. unfold afterKey. destruct (state m); reflexivity.
Qed.

Lemma only_enter_and_escape_navigate_witness :
  navOf (default session0 (run quietWorld [tea.KeyMsg tea.KeyEsc] noteSession))
  = afterKey (tea.KeyMsg tea.KeyEsc) noteSession.
Proof.
  apply (only_enter_and_escape_navigate quietWorld (tea.KeyMsg tea.KeyEsc) noteSession _ false).
  - discriminate.
  - vm_compute. reflexivity.
Defined.

(** ** The menu input *)

Lemma textinput_Update_frame (msg : tea.Msg) (i : textinput.Model) :
  textinput.Placeholder (textinput.Update msg i) = textinput.Placeholder i
  /\ textinput.CharLimit (textinput.Update msg i) = textinput.CharLimit i
  /\ textinput.Focused (textinput.Update msg i) = textinput.Focused i.
Proof.
  unfold textinput.Update, textinput.Focused.
  destruct (textinput.focus i) eqn:E; [|rewrite E; auto].
  destruct msg as [[]| |]; cbn; rewrite ?E; auto.
Qed.

(** X25: the menu input is set up once per screen.  [ensureMenuInput]
    leaves the input focused; calling it again with the same placeholder
    and limit changes nothing; and for a placeholder without surrounding
    white space, what a key adds to the input after the first call is
    still there after the next call, so that a command can be typed over
    several turns on one screen. *)
Theorem ensureMenuInput_keeps_typed_text (placeholder : string) (limit : Z)
    (msg : tea.Msg) (m : model) :
  let m1 := ensureMenuInput placeholder limit m in
  let m2 := m1 <| menuInput := textinput.Update msg (menuInput m1) |> in
  textinput.Focused (menuInput m1) = true
  /\ ensureMenuInput placeholder limit m1 = m1
  /\ (strings.TrimSpace placeholder = placeholder ->
      ensureMenuInput placeholder limit m2 = m2).
Proof.
  cbv zeta.
  set (ok := fun x : model =>
         String.eqb (strings.TrimSpace (textinput.Placeholder (menuInput x))) placeholder
         && ((limit <=? 0) || (textinput.CharLimit (menuInput x) =? limit))).
  assert (Hkeep : forall x : model,
            ok x = true -> textinput.Focused (menuInput x) = true ->
            ensureMenuInput placeholder limit x = x).
  { intros x Hc Hf. unfold ensureMenuInput. fold (ok x). rewrite Hc, Hf. reflexivity. }
  assert (Hset : forall x : model,
            textinput.Focused (menuInput (setMenuInput placeholder limit x)) = true
            /\ textinput.Placeholder (menuInput (setMenuInput placeholder limit x)) = placeholder
            /\ ((limit <=? 0)
                || (textinput.CharLimit (menuInput (setMenuInput placeholder limit x))
                    =? limit)) = true).
  { intros x. unfold setMenuInput. cbv zeta.
    destruct (0 <? limit) eqn:El; cbn; repeat split.
    - rewrite Z.eqb_refl. apply orb_true_r.
    - apply Z.ltb_ge in El. apply orb_true_iff. left. apply Z.leb_le. exact El. }
  assert (Hm1 : textinput.Focused (menuInput (ensureMenuInput placeholder limit m)) = true
                /\ (ok (ensureMenuInput placeholder limit m) = true
                    \/ (ensureMenuInput placeholder limit m = setMenuInput placeholder limit m
                        /\ strings.TrimSpace placeholder <> placeholder))).
  { unfold ensureMenuInput. fold (ok m). destruct (ok m) eqn:Hc.
    - destruct (textinput.Focused (menuInput m)) eqn:Hf; cbn [negb].
      + split; [exact Hf | left; exact Hc].
      + split; [reflexivity | left; exact Hc].
    - destruct (Hset m) as (Hf & Hp & Hl). split; [exact Hf|].
      destruct (String.eqb_spec (strings.TrimSpace placeholder) placeholder) as [E|N].
      + left. unfold ok. rewrite Hp, Hl, E, String.eqb_refl. reflexivity.
      + right. split; [reflexivity | exact N]. }
  destruct Hm1 as [Hf Hcase]. split; [exact Hf|]. split.
  - destruct Hcase as [Hc|[E N]]; [apply Hkeep; assumption|].
    rewrite E. unfold ensureMenuInput.
    destruct (_ && _); [|reflexivity].
    destruct (Hset m) as (Hf' & _). rewrite Hf'. reflexivity.
  - intros Htrim. destruct Hcase as [Hc|[_ N]]; [|contradiction].
    destruct (textinput_Update_frame msg (menuInput (ensureMenuInput placeholder limit m)))
      as (Up & Ul & Uf).
    apply Hkeep.
    + unfold ok in *. cbn [menuInput setter set_menuInput]. rewrite Up, Ul. exact Hc.
    + cbn [menuInput setter set_menuInput]. rewrite Uf. exact Hf.
Qed.

(** ** Sample runs of the theorems above *)

Lemma account_rows_are_normalised_witness :
  exists phone address email decision created,
    executed (storage.CreateAccount quietWorld {| executed := [] |} acme).1.1
    = [] ++ [InsertAccount (strings.TrimSpace (a_Name acme)) phone address email decision
               (a_Creator acme) created]
    /\ strings.TrimSpace (a_Name acme) <> ""
    /\ storedAs (a_Phone acme) phone /\ storedAs (a_Address acme) address
    /\ storedAs (a_Email acme) email /\ storedAs (a_DecisionMaker acme) decision
    /\ location created = UTC.
Proof.
  apply (proj1 (account_rows_are_normalised quietWorld {| executed := [] |}
                  (storage.CreateAccount quietWorld {| executed := [] |} acme).1.1 acme)
           (storage.CreateAccount quietWorld {| executed := [] |} acme).1.2).
  vm_compute. reflexivity.
Defined.

Lemma reachable_no_panic_witness :
  state formSession = stateCreateAccount
  /\ exists m' quit,
       Update duplicateWorld (tea.KeyMsg tea.KeyEnter) formSession = Some (m', quit)
       /\ reachable m'.
Proof.
  split; [vm_compute; reflexivity|].
  apply (reachable_no_panic formSession duplicateWorld (tea.KeyMsg tea.KeyEnter)).
  exact (reachable_default_run _ _ _ session0_reachable).
Defined.

Lemma exit_resets_outside_account_detail_witness :
  state exitSession = stateCreateNote
  /\ exists m' quit,
       Update quietWorld (tea.KeyMsg tea.KeyEnter) exitSession = Some (m', quit)
       /\ navOf m' = (stateMainMenu, []).
Proof.
  split; [vm_compute; reflexivity|].
  apply (exit_resets_outside_account_detail quietWorld exitSession).
  - vm_compute. solve_elem.
  - vm_compute. discriminate.
  - vm_compute. reflexivity.
Defined.

Lemma ensureMenuInput_keeps_typed_text_witness :
  strings.TrimSpace "Choose an option" = "Choose an option"
  /\ ensureMenuInput "Choose an option" 32
       (ensureMenuInput "Choose an option" 32 session0
          <| menuInput := textinput.Update (tea.KeyMsg (tea.KeyRunes "d"))
                            (menuInput (ensureMenuInput "Choose an option" 32 session0)) |>)
     = ensureMenuInput "Choose an option" 32 session0
         <| menuInput := textinput.Update (tea.KeyMsg (tea.KeyRunes "d"))
                           (menuInput (ensureMenuInput "Choose an option" 32 session0)) |>.
Proof.
  split; [vm_compute; reflexivity|].
  apply (proj2 (proj2 (ensureMenuInput_keeps_typed_text "Choose an option" 32
                         (tea.KeyMsg (tea.KeyRunes "d")) session0))).
  vm_compute. reflexivity.
Defined.
